(** * The audit logging component of the Google Ads management layer

    A shallow embedding of [project-2/audit_logger.py]: the record store
    ([AuditLogger.log_operation], [AuditLogger.get_audit_logs]), the audit
    recorder ([AuditLogger.log_error]) and the operation interceptor (the
    [audit_log] decorator), followed by the properties the specification
    states about them.

    Python values, the [json] module, the [sqlite3] binding rules and the
    session state the logger reads are modelled first; the functions of the
    source follow, one definition per source function, in source order. *)

From Stdlib Require Import ZArith List String Ascii Bool Lia.
From Stdlib Require Import DecimalString Permutation Sorting.Sorted OrderedTypeEx.
Import ListNotations.

Open Scope string_scope.
Open Scope Z_scope.

#[local] Set Warnings "-register-all".

(** ** Python values

    [None], booleans, integers, strings, sequences, string-keyed dictionaries
    (keyword arguments and [Dict[str, Any]] parameters; the entries are kept
    in insertion order, the order [json.dumps] writes them in) and objects.
    A list stands for any sequence that can be indexed, measured and iterated
    (the vendor's repeated fields among them).  An object carries its class
    name, what [str] and [repr] return for it, and its data attributes; it is
    truthy and has no methods, and stands for everything the [json] module
    cannot serialize (service handles, vendor messages, exceptions).  Strings
    are sequences of code points below 256.  Floats are left out: the logger
    itself produces none (the elapsed time is truncated to an integer before
    it is stored). *)
Inductive pyval : Type :=
| PNone
| PBool (b : bool)
| PInt (n : Z)
| PStr (s : string)
| PList (items : list pyval)
| PTuple (items : list pyval)
| PDict (entries : list (string * pyval))
| PObj (cls : string) (text : string) (rep : string)
       (attrs : list (string * pyval)).

(** Induction on values, through the lists nested in them. *)
Section PyvalInduction.
Variable P : pyval -> Prop.
Hypothesis HNone : P PNone.
Hypothesis HBool : forall b, P (PBool b).
Hypothesis HInt : forall n, P (PInt n).
Hypothesis HStr : forall s, P (PStr s).
Hypothesis HList : forall l, Forall P l -> P (PList l).
Hypothesis HTuple : forall l, Forall P l -> P (PTuple l).
Hypothesis HDict : forall d, Forall (fun kv => P (snd kv)) d -> P (PDict d).
Hypothesis HObj :
  forall c t r attrs, Forall (fun kv => P (snd kv)) attrs -> P (PObj c t r attrs).

End PyvalInduction.

(** Results of fallible code: a value, or a raised exception object. *)
Inductive outcome (A : Type) : Type :=
| Ok (a : A)
| Raise (e : pyval).
Arguments Ok {A} a.
Arguments Raise {A} e.

Definition bind {A B : Type} (m : outcome A) (k : A -> outcome B) : outcome B :=
  match m with
  | Ok a => k a
  | Raise e => Raise e
  end.

Notation "x <- m ;; k" := (bind m (fun x => k))
  (at level 61, m at next level, right associativity).

(** First binding of a key, as attribute and dictionary lookup use it. *)
Fixpoint assoc {A : Type} (k : string) (l : list (string * A)) : option A :=
  match l with
  | [] => None
  | (k', v) :: t => if String.eqb k k' then Some v else assoc k t
  end.

Definition is_some {A : Type} (o : option A) : bool :=
  match o with Some _ => true | None => false end.

(** [type(v).__name__] *)
Definition type_name (v : pyval) : string :=
  match v with
  | PNone => "NoneType"
  | PBool _ => "bool"
  | PInt _ => "int"
  | PStr _ => "str"
  | PList _ => "list"
  | PTuple _ => "tuple"
  | PDict _ => "dict"
  | PObj cls _ _ _ => cls
  end.

(** Truth value of [v] in [if v:]. *)
Definition truthy (v : pyval) : bool :=
  match v with
  | PNone => false
  | PBool b => b
  | PInt n => negb (n =? 0)
  | PStr s => negb (String.eqb s "")
  | PList l | PTuple l => negb (Nat.eqb (List.length l) 0)
  | PDict d => negb (Nat.eqb (List.length d) 0)
  | PObj _ _ _ _ => true
  end.

(** [getattr(v, name)] and [hasattr(v, name)].  None of the names the logger
    probes ([failure], [errors], [error_code], [message], [location], [code],
    [results], [resource_name]) is an attribute of a built-in value, so only
    objects answer. *)
Definition getattr (v : pyval) (name : string) : option pyval :=
  match v with
  | PObj _ _ _ attrs => assoc name attrs
  | _ => None
  end.

Definition hasattr (v : pyval) (name : string) : bool :=
  is_some (getattr v name).

Definition getattr_default (v : pyval) (name : string) (dflt : pyval) : pyval :=
  match getattr v name with
  | Some x => x
  | None => dflt
  end.

(** *** Text of values: [str] and [repr] *)

(** [c in s] for a one-character string [c]. *)
Fixpoint contains_char (c : ascii) (s : string) : bool :=
  match s with
  | EmptyString => false
  | String c' t => Ascii.eqb c c' || contains_char c t
  end.

Definition dq : ascii := ascii_of_nat 34.
Definition sq : ascii := ascii_of_nat 39.
Definition backslash : ascii := ascii_of_nat 92.

Definition str_of_Z (n : Z) : string := NilZero.string_of_int (Z.to_int n).

Definition hex_digit (n : nat) : ascii :=
  match n with
  | 0%nat => "0" | 1%nat => "1" | 2%nat => "2" | 3%nat => "3"
  | 4%nat => "4" | 5%nat => "5" | 6%nat => "6" | 7%nat => "7"
  | 8%nat => "8" | 9%nat => "9" | 10%nat => "a" | 11%nat => "b"
  | 12%nat => "c" | 13%nat => "d" | 14%nat => "e" | _ => "f"
  end%char.

Definition hex2 (c : ascii) : string :=
  let n := nat_of_ascii c in
  String (hex_digit (Nat.div n 16)) (String (hex_digit (Nat.modulo n 16)) "").

(** Code points [str.isprintable] accepts, below 256. *)
Definition printable (c : ascii) : bool :=
  let n := nat_of_ascii c in
  (Nat.leb 32 n && Nat.leb n 126)
  || (Nat.leb 161 n && negb (Nat.eqb n 173)).

Definition repr_char (quote : ascii) (c : ascii) : string :=
  let n := nat_of_ascii c in
  if Ascii.eqb c quote || Ascii.eqb c backslash then
    String backslash (String c "")
  else if Nat.eqb n 9 then String backslash "t"
  else if Nat.eqb n 10 then String backslash "n"
  else if Nat.eqb n 13 then String backslash "r"
  else if printable c then String c ""
  else String backslash (String "x"%char (hex2 c)).

Definition repr_str (s : string) : string :=
  let quote :=
    if contains_char sq s && negb (contains_char dq s) then dq else sq in
  String quote
    (String.concat "" (List.map (repr_char quote) (list_ascii_of_string s))
     ++ String quote "").

Fixpoint repr (v : pyval) : string :=
  match v with
  | PNone => "None"
  | PBool true => "True"
  | PBool false => "False"
  | PInt n => str_of_Z n
  | PStr s => repr_str s
  | PList l => "[" ++ String.concat ", " (List.map repr l) ++ "]"
  | PTuple [x] => "(" ++ repr x ++ ",)"
  | PTuple l => "(" ++ String.concat ", " (List.map repr l) ++ ")"
  | PDict d =>
      "{" ++ String.concat ", "
               (List.map (fun kv => repr_str (fst kv) ++ ": " ++ repr (snd kv)) d)
          ++ "}"
  | PObj _ _ rep _ => rep
  end.

(** [str(v)] *)
Definition py_str (v : pyval) : string :=
  match v with
  | PStr s => s
  | PObj _ text _ _ => text
  | _ => repr v
  end.

(** Exceptions the interpreter and the libraries raise: [cls(msg)], whose
    [str] is the message. *)
Definition py_exception (cls msg : string) : pyval :=
  PObj cls msg (cls ++ "(" ++ repr_str msg ++ ")") [].

(** [KeyError(0)], raised by [d[0]] on a dictionary without the key [0]. *)
Definition key_error_0 : pyval := PObj "KeyError" "0" "KeyError(0)" [].

(** *** Operations that may raise *)

(** [v.get(key, dflt)]: the dictionary method; any other value of the model
    has no attribute [get]. *)
Definition call_get (v : pyval) (key : string) (dflt : pyval) : outcome pyval :=
  match v with
  | PDict d =>
      Ok (match assoc key d with Some x => x | None => dflt end)
  | _ =>
      Raise (py_exception "AttributeError"
               ("'" ++ type_name v ++ "' object has no attribute 'get'"))
  end.

(** Elements [for x in v] visits. *)
Definition py_iter (v : pyval) : outcome (list pyval) :=
  match v with
  | PList l | PTuple l => Ok l
  | PStr s => Ok (List.map (fun c => PStr (String c "")) (list_ascii_of_string s))
  | PDict d => Ok (List.map (fun kv => PStr (fst kv)) d)
  | _ =>
      Raise (py_exception "TypeError"
               ("'" ++ type_name v ++ "' object is not iterable"))
  end.

(** [len(v)] *)
Definition py_len (v : pyval) : outcome Z :=
  match v with
  | PStr s => Ok (Z.of_nat (String.length s))
  | PList l | PTuple l => Ok (Z.of_nat (List.length l))
  | PDict d => Ok (Z.of_nat (List.length d))
  | _ =>
      Raise (py_exception "TypeError"
               ("object of type '" ++ type_name v ++ "' has no len()"))
  end.

(** [v[0]] *)
Definition py_first (v : pyval) : outcome pyval :=
  match v with
  | PList (x :: _) | PTuple (x :: _) => Ok x
  | PList [] => Raise (py_exception "IndexError" "list index out of range")
  | PTuple [] => Raise (py_exception "IndexError" "tuple index out of range")
  | PStr (String c _) => Ok (PStr (String c ""))
  | PStr EmptyString =>
      Raise (py_exception "IndexError" "string index out of range")
  | PDict _ => Raise key_error_0
  | _ =>
      Raise (py_exception "TypeError"
               ("'" ++ type_name v ++ "' object is not subscriptable"))
  end.

(** ** The [json] module

    A JSON document; [json_text] is the text [json.dumps] renders for it
    (default separators, [ensure_ascii=True]). *)
Inductive json : Type :=
| JNull
| JBool (b : bool)
| JInt (n : Z)
| JStr (s : string)
| JArr (items : list json)
| JObj (members : list (string * json)).

(** A fallible function over a list, left to right, stopping at the first
    exception. *)
Section Traverse.
Context {A B : Type} (f : A -> outcome B).

Fixpoint traverse (l : list A) : outcome (list B) :=
  match l with
  | [] => Ok []
  | x :: t => y <- f x ;; ys <- traverse t ;; Ok (y :: ys)
  end.
End Traverse.

(** The document [json.dumps] builds for a value, or the [TypeError] it
    raises at the first value it cannot serialize.  Tuples become arrays. *)
Fixpoint to_json (v : pyval) : outcome json :=
  match v with
  | PNone => Ok JNull
  | PBool b => Ok (JBool b)
  | PInt n => Ok (JInt n)
  | PStr s => Ok (JStr s)
  | PList l | PTuple l => js <- traverse to_json l ;; Ok (JArr js)
  | PDict d =>
      ms <- traverse (fun kv => j <- to_json (snd kv) ;; Ok (fst kv, j)) d ;;
      Ok (JObj ms)
  | PObj cls _ _ _ =>
      Raise (py_exception "TypeError"
               ("Object of type " ++ cls ++ " is not JSON serializable"))
  end.

Definition json_escape_char (c : ascii) : string :=
  let n := nat_of_ascii c in
  if Ascii.eqb c dq || Ascii.eqb c backslash then String backslash (String c "")
  else if Nat.eqb n 10 then String backslash "n"
  else if Nat.eqb n 13 then String backslash "r"
  else if Nat.eqb n 9 then String backslash "t"
  else if Nat.eqb n 8 then String backslash "b"
  else if Nat.eqb n 12 then String backslash "f"
  else if Nat.leb 32 n && Nat.leb n 126 then String c ""
  else String backslash ("u00" ++ hex2 c).

Definition json_quote (s : string) : string :=
  String dq
    (String.concat "" (List.map json_escape_char (list_ascii_of_string s))
     ++ String dq "").

Fixpoint json_text (j : json) : string :=
  match j with
  | JNull => "null"
  | JBool true => "true"
  | JBool false => "false"
  | JInt n => str_of_Z n
  | JStr s => json_quote s
  | JArr l => "[" ++ String.concat ", " (List.map json_text l) ++ "]"
  | JObj ms =>
      "{" ++ String.concat ", "
               (List.map (fun kv => json_quote (fst kv) ++ ": " ++ json_text (snd kv))
                  ms)
          ++ "}"
  end.

(** [json.dumps(v)] *)
Definition json_dumps (v : pyval) : outcome string :=
  j <- to_json v ;; Ok (json_text j).

(** [d[k] = v] on a dictionary: a key already present keeps its place. *)
Fixpoint dict_set (d : list (string * pyval)) (k : string) (v : pyval)
  : list (string * pyval) :=
  match d with
  | [] => [(k, v)]
  | (k', v') :: t =>
      if String.eqb k k' then (k', v) :: t else (k', v') :: dict_set t k v
  end.

(** The value [json.loads] builds from a document: arrays become lists,
    objects become dictionaries (a repeated member name keeps its last
    value). *)
Fixpoint of_json (j : json) : pyval :=
  match j with
  | JNull => PNone
  | JBool b => PBool b
  | JInt n => PInt n
  | JStr s => PStr s
  | JArr l => PList (List.map of_json l)
  | JObj ms =>
      PDict (List.fold_left (fun d kv => dict_set d (fst kv) (of_json (snd kv)))
               ms [])
  end.

(** ** The record store

    One row of the table [audit_logs], column by column.  The two JSON
    columns hold the document whose text [json.dumps] wrote: [log_operation]
    is the only writer of the table, and [json.loads] reads back the document
    the text renders. *)
Record audit_row (J : Type) : Type := mk_row {
  id : Z;
  timestamp : string;
  user_id : string;
  customer_id : string;
  operation_type : string;
  resource_type : string;
  resource_id : option string;
  function_name : string;
  parameters : J;
  result_status : string;
  result_data : J;
  error_message : option string;
  error_type : option string;
  error_code : option string;
  stack_trace : option string;
  execution_time_ms : option Z;
  session_id : option string
}.
Arguments mk_row {J}.
Arguments id {J}.
Arguments timestamp {J}.
Arguments user_id {J}.
Arguments customer_id {J}.
Arguments operation_type {J}.
Arguments resource_type {J}.
Arguments resource_id {J}.
Arguments function_name {J}.
Arguments parameters {J}.
Arguments result_status {J}.
Arguments result_data {J}.
Arguments error_message {J}.
Arguments error_type {J}.
Arguments error_code {J}.
Arguments stack_trace {J}.
Arguments execution_time_ms {J}.
Arguments session_id {J}.

(** A stored row: a JSON cell is NULL or a document. *)
Definition row : Type := audit_row (option json).

(** A row as [get_audit_logs] returns it: the JSON cells parsed. *)
Definition log_entry : Type := audit_row pyval.

(** What the logger reads from outside at one call: the store's
    [CURRENT_TIMESTAMP] (a text [YYYY-MM-DD HH:MM:SS]), [int(time.time())],
    the environment variable
    [GOOGLE_ADS_USER_ID], and [traceback.format_exc()] for the exception
    being handled ([None] outside a handler). *)
Record world : Type := mk_world {
  current_timestamp : string;
  epoch_seconds : Z;
  env_user_id : option string;
  format_exc : option pyval -> string
}.

(** The state the logger works on: the table, the counter behind
    [AUTOINCREMENT], Streamlit's [st.session_state], and what was printed. *)
Record state : Type := mk_state {
  db : list row;
  sqlite_sequence : Z;
  session : list (string * pyval);
  stdout : list string
}.

Definition set_session (st : state) (k : string) (v : pyval) : state :=
  mk_state (db st) (sqlite_sequence st) (dict_set (session st) k v) (stdout st).

Definition print (st : state) (line : string) : state :=
  mk_state (db st) (sqlite_sequence st) (session st) (stdout st ++ [line]).

(** [AuditLogger.get_user_id] *)
Definition get_user_id (w : world) (st : state) : pyval * state :=
  let generated :=
    match assoc "generated_user_id" (session st) with
    | Some g => (g, st)
    | None =>
        let g := PStr ("user_" ++ str_of_Z (epoch_seconds w)) in
        (g, set_session st "generated_user_id" g)
    end in
  match assoc "user_id" (session st) with
  | Some u => (u, st)
  | None =>
      match env_user_id w with
      | Some u => if negb (String.eqb u "") then (PStr u, st) else generated
      | None => generated
      end
  end.

(** [AuditLogger.get_customer_id] *)
Definition get_customer_id (st : state) : pyval :=
  match assoc "customer_id" (session st) with
  | Some c => c
  | None => PStr "unknown"
  end.

(** [AuditLogger.get_session_id] *)
Definition get_session_id (w : world) (st : state) : pyval * state :=
  match assoc "session_id" (session st) with
  | Some s => (s, st)
  | None =>
      let s := PStr ("session_" ++ str_of_Z (epoch_seconds w)) in
      (s, set_session st "session_id" s)
  end.

(** *** Binding Python values to SQL parameters

    [sqlite3] binds [None] as NULL, integers (booleans among them) as 64-bit
    INTEGER and strings as TEXT, and refuses every other value of the model;
    a column of TEXT affinity stores an integer as its decimal text. *)
Definition int64 (n : Z) : bool := (- 2 ^ 63 <=? n) && (n <? 2 ^ 63).

Definition bind_text (position : Z) (v : pyval) : outcome (option string) :=
  match v with
  | PNone => Ok None
  | PStr s => Ok (Some s)
  | PBool b => Ok (Some (if b then "1" else "0"))
  | PInt n =>
      if int64 n then Ok (Some (str_of_Z n))
      else Raise (py_exception "OverflowError"
                    "Python int too large to convert to SQLite INTEGER")
  | _ =>
      Raise (py_exception "ProgrammingError"
               ("Error binding parameter " ++ str_of_Z position ++ ": type '"
                ++ type_name v ++ "' is not supported"))
  end.

Definition bind_integer (n : option Z) : outcome (option Z) :=
  match n with
  | None => Ok None
  | Some n =>
      if int64 n then Ok (Some n)
      else Raise (py_exception "OverflowError"
                    "Python int too large to convert to SQLite INTEGER")
  end.

(** A [NOT NULL] column. *)
Definition not_null (column : string) (c : option string) : outcome string :=
  match c with
  | Some s => Ok s
  | None =>
      Raise (py_exception "IntegrityError"
               ("NOT NULL constraint failed: audit_logs." ++ column))
  end.

(** [json.dumps(v) if v else None], the value bound to a JSON column. *)
Definition dumps_if_truthy (v : pyval) : outcome (option json) :=
  if truthy v then j <- to_json v ;; Ok (Some j) else Ok None.

(** The arguments of [log_operation].  Strings where every caller in the
    repository passes a string; Python values where callers pass what they
    were given ([resource_id] and [error_code] come out of results and
    vendor errors). *)
Record log_args : Type := mk_log_args {
  a_operation_type : string;
  a_resource_type : string;
  a_function_name : string;
  a_parameters : pyval;
  a_resource_id : pyval;
  a_result_status : string;
  a_result_data : pyval;
  a_error_message : option string;
  a_error_type : option string;
  a_error_code : pyval;
  a_stack_trace : option string;
  a_execution_time_ms : option Z
}.

(** The body of the [try] in [log_operation]: the parameter tuple is
    evaluated left to right, then the statement binds its parameters, checks
    the [NOT NULL] columns and inserts the row under the next id. *)
Definition log_operation_try (w : world) (a : log_args) (st : state)
  : outcome state * state :=
  let '(uid, st1) := get_user_id w st in
  let cid := get_customer_id st1 in
  match dumps_if_truthy (a_parameters a) with
  | Raise e => (Raise e, st1)
  | Ok params =>
      match dumps_if_truthy (a_result_data a) with
      | Raise e => (Raise e, st1)
      | Ok rdata =>
          let '(sid, st2) := get_session_id w st1 in
          (r <- (uid' <- bind_text 1 uid ;;
                 cid' <- bind_text 2 cid ;;
                 rid <- bind_text 5 (a_resource_id a) ;;
                 code <- bind_text 12 (a_error_code a) ;;
                 ms <- bind_integer (a_execution_time_ms a) ;;
                 sid' <- bind_text 15 sid ;;
                 uid'' <- not_null "user_id" uid' ;;
                 cid'' <- not_null "customer_id" cid' ;;
                 Ok (mk_row (sqlite_sequence st2 + 1) (current_timestamp w) uid'' cid''
                       (a_operation_type a) (a_resource_type a) rid
                       (a_function_name a) params (a_result_status a) rdata
                       (a_error_message a) (a_error_type a) code
                       (a_stack_trace a) ms sid')) ;;
           Ok (mk_state (db st2 ++ [r]) (id r) (session st2) (stdout st2)),
           st2)
      end
  end.

(** [AuditLogger.log_operation]: the [try] above; whatever it raises is
    printed and dropped. *)
Definition log_operation (w : world) (a : log_args) (st : state)
  : outcome unit * state :=
  match log_operation_try w a st with
  | (Ok st', _) => (Ok tt, st')
  | (Raise e, st') =>
      (Ok tt, print st' ("Error logging audit entry: " ++ py_str e))
  end.

(** *** Queries *)

(** The filters of [get_audit_logs]; each is a string or [None]. *)
Record filters : Type := mk_filters {
  f_user_id : option string;
  f_customer_id : option string;
  f_operation_type : option string;
  f_resource_type : option string;
  f_start_date : option string;
  f_end_date : option string
}.

Definition no_filter : filters := mk_filters None None None None None None.

(** [if x:] on a filter: [None] and the empty string add no condition. *)
Definition given (x : option string) : option string :=
  match x with
  | Some s => if String.eqb s "" then None else Some s
  | None => None
  end.

Definition column_equals (x : option string) (c : string) : bool :=
  match given x with
  | Some s => String.eqb c s
  | None => true
  end.

(** **** Comparison with a date bound

    The column [timestamp] is declared [DATETIME], which gives it NUMERIC
    affinity.  What [CURRENT_TIMESTAMP] stores there is a text of the form
    [YYYY-MM-DD HH:MM:SS]; it does not read as a number and stays a text.
    In [timestamp >= ?] the bound takes the affinity of the column: a text
    that reads as a number (a decimal integer or real literal, blanks around
    it allowed) is compared as that number, and every number sorts before
    every text; any other text is compared with the stored text byte by
    byte. *)
Definition is_space (c : ascii) : bool :=
  let n := nat_of_ascii c in
  Nat.eqb n 32 || (Nat.leb 9 n && Nat.leb n 13).

Definition is_digit (c : ascii) : bool :=
  let n := nat_of_ascii c in Nat.leb 48 n && Nat.leb n 57.

Definition is_sign (c : ascii) : bool :=
  Ascii.eqb c "+"%char || Ascii.eqb c "-"%char.

Fixpoint skip (p : ascii -> bool) (s : string) : string :=
  match s with
  | String c t => if p c then skip p t else s
  | EmptyString => s
  end.

Definition skip_sign (s : string) : string :=
  match s with
  | String c t => if is_sign c then t else s
  | EmptyString => s
  end.

(** The texts SQLite reads as a number: blanks, a sign, digits with or
    without a decimal point (one digit at least), an exponent with its
    digits, blanks; each part but the digits optional. *)
Definition numeric_text (s : string) : bool :=
  let s1 := skip_sign (skip is_space s) in
  let s2 := skip is_digit s1 in
  let int_digits := (String.length s1 - String.length s2)%nat in
  let fraction :=
    match s2 with
    | String c t => if Ascii.eqb c "."%char then Some t else None
    | EmptyString => None
    end in
  let s3 :=
    match fraction with Some t => skip is_digit t | None => s2 end in
  let frac_digits :=
    match fraction with
    | Some t => (String.length t - String.length s3)%nat
    | None => 0%nat
    end in
  if Nat.eqb (int_digits + frac_digits) 0 then false
  else
    match s3 with
    | String c t =>
        if Ascii.eqb c "e"%char || Ascii.eqb c "E"%char then
          let t1 := skip_sign t in
          let t2 := skip is_digit t1 in
          if Nat.eqb (String.length t1) (String.length t2) then false
          else String.eqb (skip is_space t2) ""
        else String.eqb (skip is_space s3) ""
    | EmptyString => true
    end.

(** [timestamp >= ?] and [timestamp <= ?] on a stored text [ts]. *)
Definition at_or_after (bound ts : string) : bool :=
  if numeric_text bound then true else String.leb bound ts.

Definition at_or_before (bound ts : string) : bool :=
  if numeric_text bound then false else String.leb ts bound.

(** The [WHERE] clause [get_audit_logs] assembles (the four identifying
    columns have TEXT affinity: their bounds are compared as text). *)
Definition where_clause (f : filters) (r : row) : bool :=
  column_equals (f_user_id f) (user_id r)
  && column_equals (f_customer_id f) (customer_id r)
  && column_equals (f_operation_type f) (operation_type r)
  && column_equals (f_resource_type f) (resource_type r)
  && match given (f_start_date f) with
     | Some d => at_or_after d (timestamp r)
     | None => true
     end
  && match given (f_end_date f) with
     | Some d => at_or_before d (timestamp r)
     | None => true
     end.

(** [LIMIT n]: a negative [n] is no limit. *)
Definition sql_limit {A : Type} (n : Z) (l : list A) : list A :=
  if n <? 0 then l else firstn (Z.to_nat n) l.

(** [ORDER BY timestamp DESC]: no row is followed by one with a later
    timestamp. *)
Definition newer_first (a b : row) : Prop :=
  String.leb (timestamp b) (timestamp a) = true.

Definition ordered_by_timestamp_desc (l : list row) : Prop :=
  StronglySorted newer_first l.

(** What [SELECT * FROM audit_logs WHERE ... ORDER BY timestamp DESC LIMIT n]
    may return: the first [n] rows of some arrangement of the selected rows
    in which timestamps do not increase.  The statement names no second sort
    key, so the order of rows with equal timestamps is the engine's choice. *)
Definition sql_select (table : list row) (f : filters) (limit : Z)
  (rows : list row) : Prop :=
  exists sorted,
    Permutation sorted (List.filter (where_clause f) table)
    /\ ordered_by_timestamp_desc sorted
    /\ rows = sql_limit limit sorted.

(** Parsing of a JSON cell: [if cell:] on the text, then [json.loads]. *)
Definition parse_cell (c : option json) : pyval :=
  match c with
  | None => PNone
  | Some j => if truthy (PStr (json_text j)) then of_json j else PStr (json_text j)
  end.

Definition parse_row (r : row) : log_entry :=
  mk_row (id r) (timestamp r) (user_id r) (customer_id r) (operation_type r)
    (resource_type r) (resource_id r) (function_name r)
    (parse_cell (parameters r)) (result_status r) (parse_cell (result_data r))
    (error_message r) (error_type r) (error_code r) (stack_trace r)
    (execution_time_ms r) (session_id r).

Definition overflow_error : pyval :=
  py_exception "OverflowError"
    "Python int too large to convert to SQLite INTEGER".

(** [AuditLogger.get_audit_logs]: what a call may do.  The limit is bound as
    a 64-bit INTEGER, which [sqlite3] refuses with [OverflowError] when it is
    out of range; otherwise the rows the statement returns are parsed. *)
Definition get_audit_logs_call (st : state) (limit : Z) (f : filters)
  (res : outcome (list log_entry)) : Prop :=
  if int64 limit
  then exists rows,
         sql_select (db st) f limit rows /\ res = Ok (List.map parse_row rows)
  else res = Raise overflow_error.

(** The call returns [entries]. *)
Definition get_audit_logs (st : state) (limit : Z) (f : filters)
  (entries : list log_entry) : Prop :=
  get_audit_logs_call st limit f (Ok entries).

(** Two executable ways to run the statement.  Both sort by insertion; they
    differ in the order they leave rows of equal timestamp in. *)
Fixpoint insert_sorted (before : row -> row -> bool) (r : row) (l : list row)
  : list row :=
  match l with
  | [] => [r]
  | x :: t => if before r x then r :: l else x :: insert_sorted before r t
  end.

Definition sort_rows (before : row -> row -> bool) (l : list row) : list row :=
  List.fold_right (insert_sorted before) [] l.

(** Reading the index on [timestamp] backwards: newest first, and among equal
    timestamps the larger id first. *)
Definition index_scan_order (a b : row) : bool :=
  if String.eqb (timestamp a) (timestamp b) then id b <=? id a
  else String.leb (timestamp b) (timestamp a).

(** Scanning the table in id order and sorting the rows found with a stable
    sort: newest first, and among equal timestamps the smaller id first. *)
Definition table_scan_order (a b : row) : bool :=
  String.leb (timestamp b) (timestamp a).

Definition run_select (before : row -> row -> bool) (table : list row)
  (f : filters) (limit : Z) : list row :=
  sql_limit limit (sort_rows before (List.filter (where_clause f) table)).

Definition run_get_audit_logs (before : row -> row -> bool) (st : state)
  (limit : Z) (f : filters) : list log_entry :=
  List.map parse_row (run_select before (db st) f limit).

(** The plan SQLite (3.40) chooses for the statement, with the five indexes
    of [init_database] and no statistics (the logger never runs [ANALYZE]).
    With an equality condition it searches the index of a compared column
    and sorts the rows found, which come by ascending id, in a temporary
    b-tree that keeps rows of equal timestamp in the order found.  Without
    one it walks [idx_timestamp] backwards, which yields rows of equal
    timestamp by descending id. *)
Definition has_equality (f : filters) : bool :=
  is_some (given (f_user_id f)) || is_some (given (f_customer_id f))
  || is_some (given (f_operation_type f))
  || is_some (given (f_resource_type f)).

Definition sqlite_order (f : filters) : row -> row -> bool :=
  if has_equality f then table_scan_order else index_scan_order.

(** A call of [get_audit_logs] as SQLite runs it. *)
Definition get_audit_logs_run (st : state) (limit : Z) (f : filters)
  : outcome (list log_entry) :=
  if int64 limit
  then Ok (run_get_audit_logs (sqlite_order f) st limit f)
  else Raise overflow_error.

(** ** The audit recorder *)

(** One pass of the loop over [error.failure.errors]: the [error_info]
    dictionary of a sub-error. *)
Definition error_info (err : pyval) : outcome pyval :=
  code <- call_get (getattr_default err "error_code" (PDict [])) "name"
            (PStr "UNKNOWN") ;;
  Ok (PDict [("error_code", code);
             ("message", getattr_default err "message" (PStr (py_str err)));
             ("location", getattr_default err "location" PNone)]).

Definition error_infos (errs : list pyval) : outcome (list pyval) :=
  traverse error_info errs.

Definition info_code (info : pyval) : pyval :=
  match info with
  | PDict d => match assoc "error_code" d with Some c => c | None => PNone end
  | _ => PNone
  end.

(** [error_code] after the loop: it is assigned while it [is None]. *)
Fixpoint first_code (infos : list pyval) : pyval :=
  match infos with
  | [] => PNone
  | i :: t => match info_code i with PNone => first_code t | c => c end
  end.

(** The error decomposition of [log_error] (lines 221-243), which the
    interceptor repeats word for word (lines 392-414): the pair
    [(error_code, error_message)]. *)
Definition error_details (e : pyval) : outcome (pyval * string) :=
  let failure := getattr_default e "failure" PNone in
  if hasattr e "failure" && hasattr failure "errors" then
    errs <- py_iter (getattr_default failure "errors" PNone) ;;
    infos <- error_infos errs ;;
    text <- json_dumps (PList infos) ;;
    Ok (first_code infos, "Google Ads API Error: " ++ text)
  else if hasattr e "code" then
    Ok (PStr (py_str (getattr_default e "code" PNone)), py_str e)
  else
    Ok (PNone, py_str e).

(** [AuditLogger.log_error].  [handling] is the exception being handled
    where the method is called, which [traceback.format_exc()] prints. *)
Definition log_error (w : world) (handling : option pyval)
  (operation_type resource_type function_name : string) (error : pyval)
  (parameters resource_id : pyval) (execution_time_ms : option Z) (st : state)
  : outcome unit * state :=
  let error_type := type_name error in
  let stack_trace := format_exc w handling in
  match error_details error with
  | Raise e => (Raise e, st)
  | Ok (error_code, error_message) =>
      log_operation w
        (mk_log_args operation_type resource_type function_name parameters
           resource_id "ERROR" PNone (Some error_message) (Some error_type)
           error_code (Some stack_trace) execution_time_ms) st
  end.

(** ** The operation interceptor *)

(** A business operation: called with positional and keyword arguments it
    returns or raises, and may itself change the state (an operation can call
    other audited operations). *)
Definition operation : Type :=
  list pyval -> list (string * pyval) -> state -> outcome pyval * state.

(** The names [audit_log] leaves out of the parameter snapshot. *)
Definition excluded_names : list string :=
  ["client"; "service"; "password"; "token"].

Definition excluded (k : string) : bool :=
  List.existsb (String.eqb k) excluded_names.

(** [d.update(other)] *)
Definition dict_update (d other : list (string * pyval))
  : list (string * pyval) :=
  List.fold_left (fun acc kv => dict_set acc (fst kv) (snd kv)) other d.

(** [log_params] as the wrapper builds it before the call. *)
Definition log_params (args : list pyval) (kwargs : list (string * pyval))
  : list (string * pyval) :=
  let counted :=
    if truthy (PTuple args)
    then dict_set [] "args_count" (PInt (Z.of_nat (List.length args)))
    else [] in
  if truthy (PDict kwargs) then
    dict_update counted
      (List.filter (fun kv => negb (excluded (fst kv))) kwargs)
  else counted.

(** The resource id the wrapper derives from a result. *)
Definition extract_resource_id (result : pyval) : outcome pyval :=
  let results := getattr_default result "results" PNone in
  if hasattr result "results" && truthy results then
    first <- py_first results ;;
    if hasattr first "resource_name"
    then Ok (getattr_default first "resource_name" PNone)
    else Ok PNone
  else
    match result with
    | PStr s => if contains_char "/" s then Ok result else Ok PNone
    | _ => Ok PNone
    end.

(** [len(result.results) if hasattr(result, 'results') else None] *)
Definition resource_count (result : pyval) : outcome pyval :=
  if hasattr result "results" then
    n <- py_len (getattr_default result "results" PNone) ;; Ok (PInt n)
  else Ok PNone.

(** The arguments of the two [log_operation] calls of the wrapper. *)
Definition success_entry (operation_type resource_type function_name : string)
  (params : list (string * pyval)) (resource_id count : pyval)
  (elapsed_ms : Z) : log_args :=
  mk_log_args operation_type resource_type function_name (PDict params)
    resource_id "SUCCESS" (PDict [("resource_count", count)]) None None PNone
    None (Some elapsed_ms).

Definition error_entry (w : world)
  (operation_type resource_type function_name : string)
  (params : list (string * pyval)) (e error_code : pyval)
  (error_message : string) (elapsed_ms : Z) : log_args :=
  mk_log_args operation_type resource_type function_name (PDict params) PNone
    "ERROR" PNone (Some error_message) (Some (type_name e)) error_code
    (Some (format_exc w (Some e))) (Some elapsed_ms).

(** The body of the [except Exception as e] handler of the wrapper: the error
    is decomposed and logged, then [e] is raised again. *)
Definition on_exception (w : world) (elapsed_ms : Z)
  (operation_type resource_type function_name : string)
  (params : list (string * pyval)) (e : pyval) (st : state)
  : outcome pyval * state :=
  match error_details e with
  | Raise e' => (Raise e', st)
  | Ok (error_code, error_message) =>
      let '(_, st') :=
        log_operation w
          (error_entry w operation_type resource_type function_name params e
             error_code error_message elapsed_ms) st in
      (Raise e, st')
  end.

(** The built-in classes that derive from [BaseException] and not from
    [Exception]; the repository defines no further one (its own exceptions
    derive from [Exception]). *)
Definition base_exception_only : list string :=
  ["BaseException"; "BaseExceptionGroup"; "GeneratorExit";
   "KeyboardInterrupt"; "SystemExit"].

(** [isinstance(e, Exception)] for a raised [e]. *)
Definition is_exception (e : pyval) : bool :=
  negb (List.existsb (String.eqb (type_name e)) base_exception_only).

(** [except Exception as e:] around the [try] block of the wrapper: what
    derives from [Exception] goes to the handler, anything else raised
    passes through the wrapper untouched. *)
Definition except_exception (w : world) (elapsed_ms : Z)
  (operation_type resource_type function_name : string)
  (params : list (string * pyval)) (e : pyval) (st : state)
  : outcome pyval * state :=
  if is_exception e
  then on_exception w elapsed_ms operation_type resource_type function_name
         params e st
  else (Raise e, st).

(** The wrapper that [audit_log(operation_type, resource_type)] puts around
    [func], applied to a call with [args] and [kwargs].  [function_name] is
    [func.__name__] and [elapsed_ms] the time the wrapper measures. *)
Definition audit_log (operation_type resource_type : string)
  (function_name : string) (func : operation)
  (w : world) (elapsed_ms : Z)
  (args : list pyval) (kwargs : list (string * pyval)) (st : state)
  : outcome pyval * state :=
  let params := log_params args kwargs in
  match func args kwargs st with
  | (Ok result, st1) =>
      match (resource_id <- extract_resource_id result ;;
             count <- resource_count result ;;
             Ok (resource_id, count)) with
      | Ok (resource_id, count) =>
          let '(_, st2) :=
            log_operation w
              (success_entry operation_type resource_type function_name params
                 resource_id count elapsed_ms) st1 in
          (Ok result, st2)
      | Raise e =>
          except_exception w elapsed_ms operation_type resource_type
            function_name params e st1
      end
  | (Raise e, st1) =>
      except_exception w elapsed_ms operation_type resource_type function_name
        params e st1
  end.

(** * Vocabulary of the properties *)

(** The row [log_operation] writes for [a], as far as [a] determines it. *)
Definition row_of_args (a : log_args) (r : row) : Prop :=
  operation_type r = a_operation_type a
  /\ resource_type r = a_resource_type a
  /\ function_name r = a_function_name a
  /\ result_status r = a_result_status a
  /\ error_message r = a_error_message a
  /\ error_type r = a_error_type a
  /\ stack_trace r = a_stack_trace a
  /\ dumps_if_truthy (a_parameters a) = Ok (parameters r)
  /\ dumps_if_truthy (a_result_data a) = Ok (result_data r)
  /\ bind_text 5 (a_resource_id a) = Ok (resource_id r)
  /\ bind_text 12 (a_error_code a) = Ok (error_code r)
  /\ bind_integer (a_execution_time_ms a) = Ok (execution_time_ms r).

(** Values [sqlite3] can bind. *)
Definition bindable (v : pyval) : bool :=
  match v with
  | PNone | PStr _ | PBool _ => true
  | PInt n => int64 n
  | _ => false
  end.

(** Values [json.dumps(v) if v else None] does not raise on. *)
Definition column_ok (v : pyval) : bool :=
  match dumps_if_truthy v with
  | Ok _ => true
  | Raise _ => false
  end.

(** The identity values the session holds are strings. *)
Definition identity_keys : list string :=
  ["user_id"; "generated_user_id"; "customer_id"; "session_id"].

Definition text_or_absent (o : option pyval) : bool :=
  match o with
  | None | Some (PStr _) => true
  | Some _ => false
  end.

Definition session_texts (st : state) : bool :=
  List.forallb (fun k => text_or_absent (assoc k (session st))) identity_keys.

(** Conditions under which [log_operation] is sure to store a row: the
    session identifies the user with strings, both JSON columns serialize,
    and the remaining parameters bind. *)
Definition storable (a : log_args) (st : state) : bool :=
  session_texts st
  && column_ok (a_parameters a)
  && column_ok (a_result_data a)
  && bindable (a_resource_id a)
  && bindable (a_error_code a)
  && match a_execution_time_ms a with Some n => int64 n | None => true end.




(** The items of a list or a tuple. *)
Definition sequence_items (v : pyval) : option (list pyval) :=
  match v with
  | PList l | PTuple l => Some l
  | _ => None
  end.

(** The order the specification describes for query results: newest first,
    and among equal timestamps the larger id first. *)
Definition newest_then_latest_id {J : Type} (a b : audit_row J) : Prop :=
  (String.ltb (timestamp b) (timestamp a) = true)
  \/ (timestamp a = timestamp b /\ id b < id a).

(** A comparison that never puts a row before one with a later timestamp;
    sorting with it gives an order the statement allows. *)
Definition respects_timestamps (before : row -> row -> bool) : Prop :=
  (forall a b, before a b = true -> newer_first a b)
  /\ (forall a b, before a b = false -> newer_first b a).

(** Timestamps do not increase along a list of entries. *)
Definition entries_newer_first (a b : log_entry) : Prop :=
  String.leb (timestamp b) (timestamp a) = true.

(** ** Sample data for the closed examples *)

Definition sample_world : world :=
  mk_world "2024-05-01 10:00:00" 1714557600 None (fun _ => "Traceback").

(** A fresh store and an empty session. *)
Definition empty_state : state := mk_state [] 0 [] [].

(** An object [json] cannot serialize. *)
Definition handle : pyval :=
  PObj "CampaignOperation" "<CampaignOperation>" "<CampaignOperation>" [].

Definition boom : pyval := PObj "ValueError" "boom" "ValueError('boom')" [].

(** What Ctrl-C raises inside an operation. *)
Definition interrupt : pyval :=
  PObj "KeyboardInterrupt" "" "KeyboardInterrupt()" [].

(** Operations that ignore their arguments and the state. *)
Definition raising (e : pyval) : operation := fun _ _ st => (Raise e, st).
Definition returning (v : pyval) : operation := fun _ _ st => (Ok v, st).

(** Two successful creations logged within the same second. *)
Definition created (name resource : string) : log_args :=
  mk_log_args "CREATE" "CAMPAIGN" "create_campaign"
    (PDict [("args_count", PInt 1); ("campaign_name", PStr name)])
    (PStr resource) "SUCCESS" (PDict [("resource_count", PNone)])
    None None PNone None (Some 12).

Definition two_inserts : state :=
  snd (log_operation sample_world (created "Summer" "customers/1/campaigns/8")
         (snd (log_operation sample_world
                 (created "Spring" "customers/1/campaigns/7") empty_state))).

(** A result as the vendor's mutate calls return it: a list of sub-results
    with resource names. *)
Definition mutate_response : pyval :=
  PObj "MutateCampaignsResponse" "<response>" "<response>"
    [("results",
      PList [PObj "MutateCampaignResult" "<result>" "<result>"
               [("resource_name", PStr "customers/1/campaigns/7")];
             PObj "MutateCampaignResult" "<result>" "<result>"
               [("resource_name", PStr "customers/1/campaigns/8")]])].






(** The parts of a sub-error the recorder reads: the name of its error
    code, its message and its location. *)
Definition code_is_mapping (err : pyval) : bool :=
  match getattr err "error_code" with
  | None | Some (PDict _) => true
  | Some _ => false
  end.

Definition sub_error_code (err : pyval) : pyval :=
  match getattr err "error_code" with
  | Some (PDict d) =>
      match assoc "name" d with Some n => n | None => PStr "UNKNOWN" end
  | _ => PStr "UNKNOWN"
  end.

Definition sub_error_info (err : pyval) : pyval :=
  PDict [("error_code", sub_error_code err);
         ("message", getattr_default err "message" (PStr (py_str err)));
         ("location", getattr_default err "location" PNone)].

(** An exception as the vendor library raises it: the failure holds one
    sub-error, whose error code and location are messages of the library. *)
Definition vendor_exception : pyval :=
  PObj "GoogleAdsException" "<GoogleAdsException>" "<GoogleAdsException>"
    [("failure",
      PObj "GoogleAdsFailure" "<GoogleAdsFailure>" "<GoogleAdsFailure>"
        [("errors",
          PList
            [PObj "GoogleAdsError" "<GoogleAdsError>" "<GoogleAdsError>"
               [("error_code",
                 PObj "ErrorCode" "<ErrorCode>" "<ErrorCode>"
                   [("request_error", PInt 11)]);
                ("message", PStr "Invalid customer ID.");
                ("location",
                 PObj "ErrorLocation" "<ErrorLocation>" "<ErrorLocation>" [])]])])].

(** The same failure with the error code as a mapping with a [name]. *)
Definition mapping_exception : pyval :=
  PObj "GoogleAdsException" "<GoogleAdsException>" "<GoogleAdsException>"
    [("failure",
      PObj "GoogleAdsFailure" "<GoogleAdsFailure>" "<GoogleAdsFailure>"
        [("errors",
          PList
            [PObj "GoogleAdsError" "<GoogleAdsError>" "<GoogleAdsError>"
               [("error_code", PDict [("name", PStr "INVALID_CUSTOMER_ID")]);
                ("message", PStr "Invalid customer ID.")];
             PObj "GoogleAdsError" "<GoogleAdsError>" "<GoogleAdsError>" []])])].

(** * The rest of the logger and its callers *)

(** ** Schema initialisation: [AuditLogger.init_database]

    The schema side of the database file: the columns of [audit_logs] when
    the table exists, and the indexes by name with the column each is on.
    SQLite compares names without regard to ASCII case. *)
Record schema : Type := mk_schema {
  table_columns : option (list string);
  indexes : list (string * string)
}.

Definition lower_char (c : ascii) : ascii :=
  let n := nat_of_ascii c in
  if Nat.leb 65 n && Nat.leb n 90 then ascii_of_nat (n + 32) else c.

Fixpoint lower (s : string) : string :=
  match s with
  | EmptyString => EmptyString
  | String c t => String (lower_char c) (lower t)
  end.

Definition same_name (a b : string) : bool := String.eqb (lower a) (lower b).

Definition has_name (a : string) (names : list string) : bool :=
  List.existsb (same_name a) names.

(** The columns of the [CREATE TABLE] statement, in its order. *)
Definition created_columns : list string :=
  ["id"; "timestamp"; "user_id"; "customer_id"; "operation_type";
   "resource_type"; "resource_id"; "function_name"; "parameters";
   "result_status"; "result_data"; "error_message"; "error_type";
   "error_code"; "stack_trace"; "execution_time_ms"; "session_id"].

(** [CREATE TABLE IF NOT EXISTS audit_logs (...)]: nothing happens to a table
    that exists, whatever its columns. *)
Definition create_table_if_not_exists (s : schema) : schema :=
  match table_columns s with
  | Some _ => s
  | None => mk_schema (Some created_columns) (indexes s)
  end.

Definition operational_error (msg : string) : pyval :=
  py_exception "OperationalError" msg.

(** [ALTER TABLE audit_logs ADD COLUMN c TEXT] *)
Definition add_column (c : string) (s : schema) : outcome schema :=
  match table_columns s with
  | None => Raise (operational_error "no such table: audit_logs")
  | Some cols =>
      if has_name c cols
      then Raise (operational_error ("duplicate column name: " ++ c))
      else Ok (mk_schema (Some (cols ++ [c])%list) (indexes s))
  end.

(** [try: ALTER TABLE ... except sqlite3.OperationalError: pass] *)
Definition try_add_column (c : string) (s : schema) : schema :=
  match add_column c s with
  | Ok s' => s'
  | Raise _ => s
  end.

(** [CREATE INDEX IF NOT EXISTS name ON audit_logs(column)].  The text of
    the message for a missing column varies with the version of SQLite; the
    class of the exception does not. *)
Definition create_index_if_not_exists (name column : string) (s : schema)
  : outcome schema :=
  match table_columns s with
  | None => Raise (operational_error "no such table: main.audit_logs")
  | Some cols =>
      if has_name name (List.map fst (indexes s)) then Ok s
      else if has_name column cols
      then Ok (mk_schema (table_columns s)
                 (indexes s ++ [(name, column)])%list)
      else Raise (operational_error
                    ("table audit_logs has no column named " ++ column))
  end.

(** The five indexes [init_database] creates. *)
Definition created_indexes : list (string * string) :=
  [("idx_timestamp", "timestamp"); ("idx_user_id", "user_id");
   ("idx_customer_id", "customer_id"); ("idx_operation_type", "operation_type");
   ("idx_resource_type", "resource_type")].

(** The statements run one after the other, each on what the one before
    left; the first that raises ends the run with what was done so far. *)
Fixpoint create_indexes (l : list (string * string)) (s : schema)
  : outcome unit * schema :=
  match l with
  | [] => (Ok tt, s)
  | (name, column) :: t =>
      match create_index_if_not_exists name column s with
      | Ok s' => create_indexes t s'
      | Raise e => (Raise e, s)
      end
  end.

(** [AuditLogger.init_database] *)
Definition init_database (s : schema) : outcome unit * schema :=
  let s1 := create_table_if_not_exists s in
  let s2 := try_add_column "error_type" s1 in
  let s3 := try_add_column "error_code" s2 in
  let s4 := try_add_column "stack_trace" s3 in
  create_indexes created_indexes s4.

(** A database file with nothing in it. *)
Definition empty_schema : schema := mk_schema None [].

(** The table as the logger created it before the three error columns were
    introduced. *)
Definition legacy_columns : list string :=
  ["id"; "timestamp"; "user_id"; "customer_id"; "operation_type";
   "resource_type"; "resource_id"; "function_name"; "parameters";
   "result_status"; "result_data"; "error_message"; "execution_time_ms";
   "session_id"].

(** ** Statistics: [AuditLogger.get_operation_stats] *)

(** The dictionaries of the statistics: [dict(cursor.fetchall())] over rows
    [(value, count)], one per group. *)
Record operation_stats : Type := mk_stats {
  total_operations : Z;
  operations_by_type : list (string * Z);
  operations_by_resource : list (string * Z);
  status_breakdown : list (string * Z);
  operations_last_24h : Z;
  most_active_users : list (string * Z);
  errors_by_type : list (string * Z);
  top_error_codes : list (string * Z);
  errors_last_24h : Z
}.

(** [COUNT] over the rows a condition selects. *)
Definition count_rows (p : row -> bool) (table : list row) : Z :=
  Z.of_nat (List.length (List.filter p table)).

(** One more row in the group of [k]. *)
Fixpoint bump (k : string) (groups : list (string * Z)) : list (string * Z) :=
  match groups with
  | [] => [(k, 1)]
  | (k', n) :: t =>
      if String.eqb k k' then (k', n + 1) :: t else (k', n) :: bump k t
  end.

(** [SELECT value, COUNT] ... [GROUP BY value]: one pair per distinct value,
    with the number of rows that have it. *)
Definition tally (values : list string) : list (string * Z) :=
  List.fold_left (fun groups k => bump k groups) values [].

Definition by_count_desc (a b : string * Z) : Prop := snd b <= snd a.

Definition limit_groups (limit : option nat) (l : list (string * Z))
  : list (string * Z) :=
  match limit with
  | Some n => firstn n l
  | None => l
  end.

(** What a [GROUP BY] statement may return: the groups in some arrangement,
    by descending count when the statement says [ORDER BY count DESC] (the
    order of groups of equal count is the engine's choice, as is the whole
    order without [ORDER BY]), cut by the [LIMIT]. *)
Definition sql_group_count (values : list string) (ordered : bool)
  (limit : option nat) (result : list (string * Z)) : Prop :=
  exists arranged,
    Permutation arranged (tally values)
    /\ (ordered = true -> StronglySorted by_count_desc arranged)
    /\ result = limit_groups limit arranged.

Definition is_error (r : row) : bool := String.eqb (result_status r) "ERROR".

(** The values of a nullable column over the rows where it [IS NOT NULL]. *)
Definition present (column : row -> option string) (table : list row)
  : list string :=
  List.flat_map (fun r => match column r with Some v => [v] | None => [] end)
    table.

(** [datetime('now', '-1 day')] is read from outside as the text [day_ago]
    (of the form [YYYY-MM-DD HH:MM:SS]); [timestamp >= ...] compares the
    stored text with it as it does with a date bound. *)
Definition since (day_ago : string) (r : row) : bool :=
  at_or_after day_ago (timestamp r).

(** [AuditLogger.get_operation_stats]: the statistics the nine statements
    may return on the table. *)
Definition get_operation_stats (st : state) (day_ago : string)
  (s : operation_stats) : Prop :=
  total_operations s = count_rows (fun _ => true) (db st)
  /\ sql_group_count (List.map operation_type (db st)) true None
       (operations_by_type s)
  /\ sql_group_count (List.map resource_type (db st)) true None
       (operations_by_resource s)
  /\ sql_group_count (List.map result_status (db st)) false None
       (status_breakdown s)
  /\ operations_last_24h s = count_rows (since day_ago) (db st)
  /\ sql_group_count (List.map user_id (db st)) true (Some 10%nat)
       (most_active_users s)
  /\ sql_group_count (present error_type (List.filter is_error (db st))) true
       None (errors_by_type s)
  /\ sql_group_count (present error_code (List.filter is_error (db st))) true
       (Some 10%nat) (top_error_codes s)
  /\ errors_last_24h s
     = count_rows (fun r => is_error r && since day_ago r) (db st).

(** An executable run of the statements: groups sorted by descending count,
    groups of equal count left in the order [tally] found them. *)
Fixpoint insert_group (g : string * Z) (l : list (string * Z))
  : list (string * Z) :=
  match l with
  | [] => [g]
  | x :: t => if snd x <? snd g then g :: l else x :: insert_group g t
  end.

Definition sort_groups (l : list (string * Z)) : list (string * Z) :=
  List.fold_right insert_group [] l.

Definition run_group_count (values : list string) (limit : option nat)
  : list (string * Z) :=
  limit_groups limit (sort_groups (tally values)).

Definition run_get_operation_stats (st : state) (day_ago : string)
  : operation_stats :=
  mk_stats
    (count_rows (fun _ => true) (db st))
    (run_group_count (List.map operation_type (db st)) None)
    (run_group_count (List.map resource_type (db st)) None)
    (run_group_count (List.map result_status (db st)) None)
    (count_rows (since day_ago) (db st))
    (run_group_count (List.map user_id (db st)) (Some 10%nat))
    (run_group_count (present error_type (List.filter is_error (db st))) None)
    (run_group_count (present error_code (List.filter is_error (db st)))
       (Some 10%nat))
    (count_rows (fun r => is_error r && since day_ago r) (db st)).

(** [d.get(k, 0)] on a dictionary of counts, as the dashboard reads
    [status_breakdown]. *)
Definition get_count (k : string) (d : list (string * Z)) : Z :=
  match assoc k d with
  | Some n => n
  | None => 0
  end.

(** ** The dashboard ([main.py]) *)

(** The [Disconnect] button: [st.session_state.customer_id = None] (the
    other two keys it sets are not read by the logger). *)
Definition disconnect (st : state) : state :=
  set_session
    (set_session (set_session st "authenticated" (PBool false)) "ads_sdk" PNone)
    "customer_id" PNone.

(** The [Update User ID] button, pressed with a new id in the text field. *)
Definition update_user_id (new_user_id : string) (st : state) : state :=
  set_session st "user_id" (PStr new_user_id).

(** One press of [Clear All Audit Logs]: the first press arms the
    confirmation, a press on an armed session runs [DELETE FROM audit_logs]
    and disarms.  [AUTOINCREMENT] keeps its counter through the deletion. *)
Definition clear_logs_click (st : state) : state :=
  if truthy (match assoc "confirm_clear_logs" (session st) with
             | Some v => v
             | None => PNone
             end)
  then mk_state [] (sqlite_sequence st)
         (dict_set (session st) "confirm_clear_logs" (PBool false)) (stdout st)
  else set_session st "confirm_clear_logs" (PBool true).

(** ** The SDK's exceptions ([core/exceptions.py]) *)

(** [APIError(message, error_code, api_errors)] *)
Definition APIError (message : string) (error_code api_errors : pyval) : pyval :=
  PObj "APIError" message ("APIError(" ++ repr_str message ++ ")")
    [("error_code", error_code);
     ("api_errors", if truthy api_errors then api_errors else PList [])].

(** [ValidationError(message, field)] *)
Definition ValidationError (message : string) (field : pyval) : pyval :=
  PObj "ValidationError" message ("ValidationError(" ++ repr_str message ++ ")")
    [("field", field)].

(** ** Vocabulary of the further properties *)

(** A run of [log_operation] calls, each at its own moment. *)
Definition log_all (calls : list (world * log_args)) (st : state) : state :=
  List.fold_left (fun s c => snd (log_operation (fst c) (snd c) s)) calls st.

(** The ids of the table increase with insertion and none exceeds the
    counter of [AUTOINCREMENT]. *)
Definition well_numbered (st : state) : Prop :=
  StronglySorted (fun a b : row => id a < id b) (db st)
  /\ Forall (fun r : row => id r <= sqlite_sequence st) (db st).

(** [GOOGLE_ADS_USER_ID] is unset or empty. *)
Definition env_unset (w : world) : Prop :=
  env_user_id w = None \/ env_user_id w = Some ""%string.

(** The ids are 1, 2, ... in insertion order and the counter is their
    number. *)
Definition consecutively_numbered (st : state) : Prop :=
  List.map id (db st)
  = List.map Z.of_nat (List.seq 1 (List.length (db st)))
  /\ sqlite_sequence st = Z.of_nat (List.length (db st)).

(** The confirmation of [Clear All Audit Logs] is pending. *)
Definition armed (st : state) : bool :=
  truthy (match assoc "confirm_clear_logs" (session st) with
          | Some v => v
          | None => PNone
          end).

(** Two creations logged a second apart. *)
Definition a_second_apart : state :=
  snd (log_operation
         (mk_world "2024-05-01 10:00:01" 1714557601 None (fun _ => "Traceback"))
         (created "Summer" "customers/1/campaigns/8")
         (snd (log_operation sample_world
                 (created "Spring" "customers/1/campaigns/7") empty_state))).

(** The number of times [k] occurs among the values. *)
Definition occurrences (k : string) (values : list string) : Z :=
  Z.of_nat (List.length (List.filter (String.eqb k) values)).

(** A failed update, as the wrapper logs it. *)
Definition failed_update : log_args :=
  mk_log_args "UPDATE" "CAMPAIGN" "update_campaign"
    (PDict [("args_count", PInt 2)]) PNone "ERROR" PNone
    (Some "boom") (Some "ValueError") PNone (Some "Traceback") (Some 3).

(** Two creations and a failed update. *)
Definition mixed_log : state :=
  snd (log_operation sample_world failed_update two_inserts).

(** Every row is a success or an error. *)
Definition success_or_error (st : state) : Prop :=
  Forall (fun r : row => result_status r = "SUCCESS" \/ result_status r = "ERROR")
    (db st).

(** The number of rows with [v] in a column. *)
Definition rows_with (column : row -> string) (v : string) (st : state) : Z :=
  count_rows (fun r => String.eqb v (column r)) (db st).

(** The query of the dashboard when only a user is chosen. *)
Definition only_user (u : string) : filters :=
  mk_filters (Some u) None None None None None.

(** The statistics of an empty table. *)
Definition no_statistics : operation_stats := mk_stats 0 [] [] [] 0 [] [] [] 0.

(** The database file of a logger from before the error columns. *)
Definition legacy_schema : schema := mk_schema (Some legacy_columns) [].

(** A file in which another program made a table [audit_logs]. *)
Definition foreign_schema : schema :=
  mk_schema (Some ["id"; "timestamp"; "message"]) [].

(** The columns [init_database] adds to tables that lack them. *)
Definition error_columns : list string :=
  ["error_type"; "error_code"; "stack_trace"].

(** What [init_database] leaves on success: the table with the three error
    columns, and an index under each of the five names. *)
Definition initialised (s : schema) : Prop :=
  exists cols,
    table_columns s = Some cols
    /\ (forall c, In c error_columns -> has_name c cols = true)
    /\ (forall nc, In nc created_indexes ->
          has_name (fst nc) (List.map fst (indexes s)) = true).

(** [e] is one of the SDK's own exceptions, made with [message]. *)
Definition sdk_error (e : pyval) (message : string) : Prop :=
  (exists error_code api_errors, e = APIError message error_code api_errors)
  \/ (exists field, e = ValidationError message field).

(** Values that have neither a length nor items. *)
Definition unsized (v : pyval) : bool :=
  match v with
  | PNone | PBool _ | PInt _ => true
  | _ => false
  end.

(** The failure [handle_exception] hands to the caller. *)
Definition invalid_argument : pyval :=
  APIError "Google Ads API error: INVALID_ARGUMENT" (PStr "INVALID_ARGUMENT")
    (PList [PDict [("message", PStr "Invalid argument.")]]).

(** A response whose [results] attribute is [None]. *)
Definition empty_response : pyval :=
  PObj "Response" "<response>" "<response>" [("results", PNone)].

(** Newest first, and among equal timestamps the smaller id first. *)
Definition newest_then_earliest_id {J : Type} (a b : audit_row J) : Prop :=
  (String.ltb (timestamp b) (timestamp a) = true)
  \/ (timestamp a = timestamp b /\ id a < id b).

(** How a comparison [before] must treat a row and a row inserted after it
    for sorting with it to give the order [R]. *)
Definition decides (R : row -> row -> Prop) (before : row -> row -> bool)
  (r x : row) : Prop :=
  (before r x = true -> R r x) /\ (before r x = false -> R x r).

(** The stored timestamps are texts that do not read as numbers, as
    [CURRENT_TIMESTAMP] writes them. *)
Definition text_timestamps (st : state) : Prop :=
  Forall (fun r : row => numeric_text (timestamp r) = false) (db st).

(** Timestamps strictly increase with insertion. *)
Definition strictly_later (a b : row) : Prop :=
  String.ltb (timestamp a) (timestamp b) = true.

(** The sum of the counts of a dictionary. *)
Definition total_count (d : list (string * Z)) : Z :=
  List.fold_right (fun kv acc => snd kv + acc) 0 d.

(** * Properties *)

(** ** Helpers: the error monad *)

Lemma bind_ok {A B : Type} (m : outcome A) (k : A -> outcome B) (b : B) :
  bind m k = Ok b -> exists a, m = Ok a /\ k a = Ok b.
Proof.
  destruct m as [a | e]; simpl; intros H; [eauto | discriminate].
Qed.

(** Splits a hypothesis [x <- m ;; k = Ok b] into its steps. *)
Ltac bind_inv H :=
  let a := fresh "a" in
  let Ha := fresh "Hstep" in
  apply bind_ok in H; destruct H as [a [Ha H]].

(** ** Helpers: the session *)

Lemma get_user_id_store (w : world) (st : state) :
  db (snd (get_user_id w st)) = db st
  /\ sqlite_sequence (snd (get_user_id w st)) = sqlite_sequence st
  /\ stdout (snd (get_user_id w st)) = stdout st.
Proof.
  unfold get_user_id.
  destruct (assoc "user_id" (session st)); [auto |].
  destruct (assoc "generated_user_id" (session st));
    destruct (env_user_id w) as [u |]; try destruct (negb (u =? "")%string);
    simpl; auto.
Qed.

Lemma get_session_id_store (w : world) (st : state) :
  db (snd (get_session_id w st)) = db st
  /\ sqlite_sequence (snd (get_session_id w st)) = sqlite_sequence st
  /\ stdout (snd (get_session_id w st)) = stdout st.
Proof.
  unfold get_session_id.
  destruct (assoc "session_id" (session st)); simpl; auto.
Qed.

(** ** Helpers: what [log_operation] does to the table *)

Lemma log_operation_try_ok (w : world) (a : log_args) (st st' stx : state) :
  log_operation_try w a st = (Ok st', stx) ->
  exists r,
    db st' = (db st ++ [r])%list
    /\ sqlite_sequence st' = id r
    /\ id r = sqlite_sequence st + 1
    /\ timestamp r = current_timestamp w
    /\ stdout st' = stdout st
    /\ bind_text 1 (fst (get_user_id w st)) = Ok (Some (user_id r))
    /\ bind_text 2 (get_customer_id (snd (get_user_id w st)))
       = Ok (Some (customer_id r))
    /\ row_of_args a r.
Proof.
  unfold log_operation_try.
  destruct (get_user_id_store w st) as [Hdb1 [Hseq1 Hout1]].
  destruct (get_user_id w st) as [uid st1]; simpl in *.
  destruct (dumps_if_truthy (a_parameters a)) as [params | e] eqn:Hparams;
    [| discriminate].
  destruct (dumps_if_truthy (a_result_data a)) as [rdata | e] eqn:Hrdata;
    [| discriminate].
  destruct (get_session_id_store w st1) as [Hdb2 [Hseq2 Hout2]].
  destruct (get_session_id w st1) as [sid st2]; simpl in *.
  intros H. injection H as H _.
  bind_inv H. injection H as <-.
  repeat (bind_inv Hstep).
  injection Hstep as <-.
  repeat match goal with
         | Hn : not_null _ ?x = Ok _ |- _ =>
             destruct x; simpl in Hn; [injection Hn as <- | discriminate]
         end.
  eexists; simpl.
  rewrite Hdb2, Hdb1, Hseq2, Hseq1, Hout2, Hout1.
  split; [reflexivity |].
  unfold row_of_args; simpl.
  repeat split; try reflexivity; assumption.
Qed.

Lemma log_operation_try_raise (w : world) (a : log_args) (st stx : state)
  (e : pyval) :
  log_operation_try w a st = (Raise e, stx) ->
  db stx = db st /\ sqlite_sequence stx = sqlite_sequence st
  /\ stdout stx = stdout st.
Proof.
  unfold log_operation_try.
  destruct (get_user_id_store w st) as [Hdb1 [Hseq1 Hout1]].
  destruct (get_user_id w st) as [uid st1]; simpl in *.
  destruct (dumps_if_truthy (a_parameters a)) as [params | e1].
  - destruct (dumps_if_truthy (a_result_data a)) as [rdata | e2].
    + destruct (get_session_id_store w st1) as [Hdb2 [Hseq2 Hout2]].
      destruct (get_session_id w st1) as [sid st2]; simpl in *.
      intros H. injection H as _ <-. repeat split; congruence.
    + intros H. injection H as _ <-. auto.
  - intros H. injection H as _ <-. auto.
Qed.

Lemma log_operation_returns (w : world) (a : log_args) (st : state) :
  fst (log_operation w a st) = Ok tt.
Proof.
  unfold log_operation.
  destruct (log_operation_try w a st) as [[st' | e] stx]; reflexivity.
Qed.

(** A call of [log_operation] leaves the table as it was or adds one row. *)
Lemma log_operation_cases (w : world) (a : log_args) (st : state) :
  (db (snd (log_operation w a st)) = db st
   /\ sqlite_sequence (snd (log_operation w a st)) = sqlite_sequence st)
  \/ exists r,
       db (snd (log_operation w a st)) = (db st ++ [r])%list
       /\ sqlite_sequence (snd (log_operation w a st)) = id r
       /\ id r = sqlite_sequence st + 1
       /\ timestamp r = current_timestamp w
       /\ stdout (snd (log_operation w a st)) = stdout st
       /\ row_of_args a r.
Proof.
  unfold log_operation.
  destruct (log_operation_try w a st) as [[st' | e] stx] eqn:Htry; simpl.
  - right. apply log_operation_try_ok in Htry.
    destruct Htry as [r [H1 [H2 [H3 [H4 [H5 [_ [_ H8]]]]]]]].
    exists r. auto 10.
  - left. apply log_operation_try_raise in Htry.
    destruct Htry as [H1 [H2 _]]. auto.
Qed.

(** ** Helpers: dictionaries *)

Lemma assoc_dict_set_same (d : list (string * pyval)) (k : string) (v : pyval) :
  assoc k (dict_set d k v) = Some v.
Proof.
  induction d as [| [k' v'] t IH]; simpl.
  - rewrite String.eqb_refl. reflexivity.
  - destruct (String.eqb k k') eqn:E; simpl; rewrite E; auto.
Qed.

Lemma assoc_dict_set_other (d : list (string * pyval)) (k k' : string)
  (v : pyval) :
  k <> k' -> assoc k (dict_set d k' v) = assoc k d.
Proof.
  intros Hne.
  induction d as [| [k0 v0] t IH]; simpl.
  - destruct (String.eqb_spec k k'); [contradiction | reflexivity].
  - destruct (String.eqb_spec k' k0) as [-> | Hk]; simpl.
    + destruct (String.eqb_spec k k0); [contradiction | reflexivity].
    + destruct (String.eqb k k0); auto.
Qed.

(** ** Helpers: the identity resolver on a session of strings *)

Lemma text_or_absent_text (o : option pyval) (v : pyval) :
  text_or_absent o = true -> o = Some v -> exists s, v = PStr s.
Proof.
  intros H ->. destruct v; simpl in H; try discriminate. eauto.
Qed.

Lemma session_texts_iff (st : state) :
  session_texts st = true <->
  text_or_absent (assoc "user_id" (session st)) = true
  /\ text_or_absent (assoc "generated_user_id" (session st)) = true
  /\ text_or_absent (assoc "customer_id" (session st)) = true
  /\ text_or_absent (assoc "session_id" (session st)) = true.
Proof.
  unfold session_texts, identity_keys; simpl.
  rewrite !andb_true_iff. tauto.
Qed.

Lemma session_texts_set (st : state) (k s : string) :
  session_texts st = true -> session_texts (set_session st k (PStr s)) = true.
Proof.
  rewrite !session_texts_iff. unfold set_session; simpl.
  intros [H1 [H2 [H3 H4]]].
  repeat split;
    match goal with
    | |- text_or_absent (assoc ?k' _) = true =>
        destruct (String.eqb_spec k' k) as [<- | Hne];
        [rewrite assoc_dict_set_same; reflexivity
        | rewrite assoc_dict_set_other by exact Hne; assumption]
    end.
Qed.

Lemma get_user_id_text (w : world) (st : state) :
  session_texts st = true ->
  (exists s, fst (get_user_id w st) = PStr s)
  /\ session_texts (snd (get_user_id w st)) = true
  /\ assoc "customer_id" (session (snd (get_user_id w st)))
     = assoc "customer_id" (session st)
  /\ assoc "session_id" (session (snd (get_user_id w st)))
     = assoc "session_id" (session st).
Proof.
  intros Hs. pose proof Hs as Hs'.
  apply session_texts_iff in Hs'. destruct Hs' as [H1 [H2 _]].
  unfold get_user_id.
  destruct (assoc "user_id" (session st)) as [u |] eqn:Eu.
  - destruct (text_or_absent_text _ u H1 eq_refl) as [s ->]. simpl. eauto.
  - assert (Hgen :
      let g := match assoc "generated_user_id" (session st) with
               | Some g => (g, st)
               | None =>
                   (PStr ("user_" ++ str_of_Z (epoch_seconds w)),
                    set_session st "generated_user_id"
                      (PStr ("user_" ++ str_of_Z (epoch_seconds w))))
               end in
      (exists s, fst g = PStr s)
      /\ session_texts (snd g) = true
      /\ assoc "customer_id" (session (snd g)) = assoc "customer_id" (session st)
      /\ assoc "session_id" (session (snd g)) = assoc "session_id" (session st)).
    { destruct (assoc "generated_user_id" (session st)) as [g |] eqn:Eg; simpl.
      - destruct (text_or_absent_text _ g H2 eq_refl) as [s ->]. eauto.
      - split; [eauto |]. split; [apply session_texts_set; exact Hs |].
        split; apply assoc_dict_set_other; discriminate. }
    destruct (env_user_id w) as [u |]; [| exact Hgen].
    destruct (negb (u =? "")%string); [simpl; eauto | exact Hgen].
Qed.

Lemma get_customer_id_text (st : state) :
  session_texts st = true -> exists s, get_customer_id st = PStr s.
Proof.
  intros Hs. apply session_texts_iff in Hs. destruct Hs as [_ [_ [H3 _]]].
  unfold get_customer_id.
  destruct (assoc "customer_id" (session st)) as [c |] eqn:Ec; [| eauto].
  exact (text_or_absent_text _ c H3 eq_refl).
Qed.

Lemma get_session_id_text (w : world) (st : state) :
  session_texts st = true ->
  (exists s, fst (get_session_id w st) = PStr s)
  /\ session_texts (snd (get_session_id w st)) = true.
Proof.
  intros Hs. pose proof Hs as Hs'.
  apply session_texts_iff in Hs'. destruct Hs' as [_ [_ [_ H4]]].
  unfold get_session_id.
  destruct (assoc "session_id" (session st)) as [s |] eqn:Es; simpl.
  - destruct (text_or_absent_text _ s H4 eq_refl) as [s' ->]. eauto.
  - split; [eauto | apply session_texts_set; exact Hs].
Qed.

Lemma bindable_binds (position : Z) (v : pyval) :
  bindable v = true -> exists c, bind_text position v = Ok c.
Proof.
  destruct v; intros H; try discriminate H; try (eexists; reflexivity).
  unfold bindable in H. unfold bind_text. rewrite H. eauto.
Qed.

Lemma column_ok_dumps (v : pyval) :
  column_ok v = true -> exists c, dumps_if_truthy v = Ok c.
Proof.
  unfold column_ok. destruct (dumps_if_truthy v); [eauto | discriminate].
Qed.

Lemma log_operation_try_storable (w : world) (a : log_args) (st : state) :
  storable a st = true ->
  exists st' stx,
    log_operation_try w a st = (Ok st', stx) /\ session_texts st' = true.
Proof.
  unfold storable. rewrite !andb_true_iff.
  intros [[[[[Hs Hp] Hd] Hrid] Hcode] Hms].
  destruct (column_ok_dumps _ Hp) as [params Hparams].
  destruct (column_ok_dumps _ Hd) as [rdata Hrdata].
  destruct (bindable_binds 5 _ Hrid) as [rid Hrid'].
  destruct (bindable_binds 12 _ Hcode) as [code Hcode'].
  assert (Hms' : exists m, bind_integer (a_execution_time_ms a) = Ok m).
  { unfold bind_integer. destruct (a_execution_time_ms a) as [n |]; [| eauto].
    rewrite Hms. eauto. }
  destruct Hms' as [ms Hms'].
  destruct (get_user_id_text w st Hs) as [[u Hu] [Hs1 [Hc1 _]]].
  destruct (get_customer_id_text _ Hs1) as [c Hc].
  destruct (get_session_id_text w _ Hs1) as [[sid Hsid] Hs2].
  unfold log_operation_try.
  destruct (get_user_id w st) as [uid st1]; simpl in *. subst uid.
  rewrite Hparams, Hrdata.
  destruct (get_session_id w st1) as [sid' st2]; simpl in *. subst sid'.
  rewrite Hc, Hrid', Hcode', Hms'. simpl.
  eexists; eexists. split; [reflexivity |].
  rewrite session_texts_iff in *. simpl. exact Hs2.
Qed.

(** On a storable call [log_operation] adds exactly one row, under the next
    id, and prints nothing. *)
Lemma log_operation_inserts (w : world) (a : log_args) (st : state) :
  storable a st = true ->
  exists r,
    db (snd (log_operation w a st)) = (db st ++ [r])%list
    /\ sqlite_sequence (snd (log_operation w a st)) = id r
    /\ id r = sqlite_sequence st + 1
    /\ timestamp r = current_timestamp w
    /\ stdout (snd (log_operation w a st)) = stdout st
    /\ PStr (user_id r) = fst (get_user_id w st)
    /\ PStr (customer_id r) = get_customer_id st
    /\ session_texts (snd (log_operation w a st)) = true
    /\ row_of_args a r.
Proof.
  intros Hst.
  destruct (log_operation_try_storable w a st Hst) as [st' [stx [Htry Hs']]].
  pose proof (log_operation_try_ok _ _ _ _ _ Htry)
    as [r [H1 [H2 [H3 [H4 [H5 [H6 [H7 H8]]]]]]]].
  unfold storable in Hst. rewrite !andb_true_iff in Hst.
  destruct Hst as [[[[[Hs _] _] _] _] _].
  destruct (get_user_id_text w st Hs) as [[u Hu] [_ [Hc1 _]]].
  assert (Hcust : get_customer_id (snd (get_user_id w st)) = get_customer_id st).
  { unfold get_customer_id. rewrite Hc1. reflexivity. }
  destruct (get_customer_id_text _ Hs) as [c Hc].
  rewrite Hu in H6. rewrite Hcust, Hc in H7. simpl in H6, H7.
  injection H6 as E6. injection H7 as E7.
  unfold log_operation. rewrite Htry. simpl.
  exists r. rewrite Hu, Hc, E6, E7. auto 12.
Qed.

(** ** The store's insert: [log_operation] *)

Lemma log_operation_drops (w : world) (a : log_args) (st : state) :
  column_ok (a_parameters a) = false \/ column_ok (a_result_data a) = false ->
  db (snd (log_operation w a st)) = db st
  /\ sqlite_sequence (snd (log_operation w a st)) = sqlite_sequence st
  /\ exists e,
       stdout (snd (log_operation w a st))
       = (stdout st ++ [("Error logging audit entry: " ++ py_str e)%string])%list.
Proof.
  intros Hbad.
  assert (Hraise : exists e stx, log_operation_try w a st = (Raise e, stx)).
  { unfold log_operation_try, column_ok in *.
    destruct (get_user_id w st) as [uid st1].
    destruct (dumps_if_truthy (a_parameters a)) as [p | e]; [| eauto].
    destruct (dumps_if_truthy (a_result_data a)) as [d | e]; [| eauto].
    destruct Hbad; discriminate. }
  destruct Hraise as [e [stx Htry]].
  destruct (log_operation_try_raise _ _ _ _ _ Htry) as [H1 [H2 H3]].
  unfold log_operation. rewrite Htry. simpl.
  rewrite H1, H2, H3. eauto.
Qed.

(** C2, as the code has it: [log_operation] never raises to its caller, for
    any arguments and any state; and when [parameters] or [result_data]
    cannot be serialized the table is left as it was (no row is written for
    the call) and the failure is only printed. *)
Theorem log_operation_swallows_serialization_failure :
  forall (w : world) (a : log_args) (st : state),
    fst (log_operation w a st) = Ok tt
    /\ (column_ok (a_parameters a) = false \/ column_ok (a_result_data a) = false ->
        db (snd (log_operation w a st)) = db st
        /\ exists e,
             stdout (snd (log_operation w a st))
             = (stdout st ++ [("Error logging audit entry: " ++ py_str e)%string])%list).
Proof.
  intros w a st. split; [apply log_operation_returns |].
  intros Hbad. destruct (log_operation_drops w a st Hbad) as [H1 [_ H3]]. auto.
Qed.

Lemma log_operation_swallows_serialization_failure_witness :
  fst (log_operation sample_world
         (mk_log_args "CREATE" "CAMPAIGN" "create_campaign"
            (PDict [("operation", handle)]) PNone "SUCCESS" PNone None None
            PNone None (Some 12)) empty_state)
  = Ok tt
  /\ db (snd (log_operation sample_world
                (mk_log_args "CREATE" "CAMPAIGN" "create_campaign"
                   (PDict [("operation", handle)]) PNone "SUCCESS" PNone None
                   None PNone None (Some 12)) empty_state))
     = [].
Proof.
  destruct (log_operation_swallows_serialization_failure sample_world
              (mk_log_args "CREATE" "CAMPAIGN" "create_campaign"
                 (PDict [("operation", handle)]) PNone "SUCCESS" PNone None
                 None PNone None (Some 12)) empty_state)
    as [Hreturns Hdrops].
  split; [exact Hreturns |].
  destruct (Hdrops (or_introl eq_refl)) as [Hdb _]. exact Hdb.
Defined.

(** C2 as stated fails: a call whose [parameters] hold a value [json] cannot
    serialize returns normally, but no row is written, with or without a
    best-effort text of the value. *)
Lemma log_operation_drops_unserializable_entry :
  let a :=
    mk_log_args "CREATE" "CAMPAIGN" "create_campaign"
      (PDict [("name", PStr "Spring"); ("operation", handle)]) PNone "SUCCESS"
      PNone None None PNone None (Some 12) in
  fst (log_operation sample_world a empty_state) = Ok tt
  /\ db (snd (log_operation sample_world a empty_state)) = []
  /\ stdout (snd (log_operation sample_world a empty_state))
     = ["Error logging audit entry: "
        ++ "Object of type CampaignOperation is not JSON serializable"].
Proof.
  vm_compute. repeat split.
Qed.

(** ** Queries: [get_audit_logs] *)

Lemma string_compare_refl (a : string) : String.compare a a = Eq.
Proof.
  apply (proj2 (String_as_OT.cmp_eq a a)). reflexivity.
Qed.

Lemma string_leb_trans (a b c : string) :
  String.leb a b = true -> String.leb b c = true -> String.leb a c = true.
Proof.
  unfold String.leb.
  destruct (String.compare a b) eqn:Eab; try discriminate; intros _;
    destruct (String.compare b c) eqn:Ebc; try discriminate; intros _.
  - apply String.compare_eq_iff in Eab, Ebc. subst.
    rewrite string_compare_refl. reflexivity.
  - apply String.compare_eq_iff in Eab. subst. rewrite Ebc. reflexivity.
  - apply String.compare_eq_iff in Ebc. subst. rewrite Eab. reflexivity.
  - apply String_as_OT.cmp_lt in Eab, Ebc.
    pose proof (String_as_OT.lt_trans _ _ _ Eab Ebc) as Hac.
    apply String_as_OT.cmp_lt in Hac. unfold String_as_OT.cmp in Hac.
    rewrite Hac. reflexivity.
Qed.

Lemma string_leb_refl (a : string) : String.leb a a = true.
Proof.
  unfold String.leb. rewrite string_compare_refl. reflexivity.
Qed.

Lemma newer_first_trans (a b c : row) :
  newer_first a b -> newer_first b c -> newer_first a c.
Proof.
  unfold newer_first. intros Hab Hbc. eapply string_leb_trans; eassumption.
Qed.

Lemma table_scan_respects : respects_timestamps table_scan_order.
Proof.
  unfold respects_timestamps, table_scan_order, newer_first.
  split; intros a b H; [exact H |].
  destruct (String.leb_total (timestamp a) (timestamp b)) as [Hab | Hba];
    [exact Hab | congruence].
Qed.

Lemma index_scan_respects : respects_timestamps index_scan_order.
Proof.
  unfold respects_timestamps, index_scan_order, newer_first.
  split; intros a b H.
  - destruct (String.eqb_spec (timestamp a) (timestamp b)) as [E | _];
      [rewrite E; apply string_leb_refl | exact H].
  - destruct (String.eqb_spec (timestamp a) (timestamp b)) as [E | _];
      [rewrite E; apply string_leb_refl |].
    destruct (String.leb_total (timestamp a) (timestamp b)) as [Hab | Hba];
      [exact Hab | congruence].
Qed.

Section Sorting.
Variable before : row -> row -> bool.
Hypothesis Hbefore : respects_timestamps before.

Lemma insert_sorted_perm (r : row) (l : list row) :
  Permutation (insert_sorted before r l) (r :: l).
Proof.
  induction l as [| x t IH]; simpl; [apply Permutation_refl |].
  destruct (before r x); [apply Permutation_refl |].
  eapply perm_trans; [apply perm_skip; exact IH | apply perm_swap].
Qed.

Lemma sort_rows_perm (l : list row) : Permutation (sort_rows before l) l.
Proof.
  induction l as [| x t IH]; simpl; [constructor |].
  eapply perm_trans; [apply insert_sorted_perm | apply perm_skip; exact IH].
Qed.

Lemma insert_sorted_ordered (r : row) (l : list row) :
  ordered_by_timestamp_desc l ->
  ordered_by_timestamp_desc (insert_sorted before r l).
Proof.
  unfold ordered_by_timestamp_desc.
  destruct Hbefore as [Htrue Hfalse].
  induction l as [| x t IH]; simpl; intros Hs.
  - constructor; constructor.
  - inversion Hs as [| ? ? Ht Hx]; subst.
    destruct (before r x) eqn:E.
    + constructor; [exact Hs |].
      constructor; [apply Htrue; exact E |].
      eapply Forall_impl; [| exact Hx].
      intros y Hy. eapply newer_first_trans; [apply Htrue; exact E | exact Hy].
    + constructor; [apply IH; exact Ht |].
      eapply Permutation_Forall;
        [apply Permutation_sym; apply insert_sorted_perm |].
      constructor; [apply Hfalse; exact E | exact Hx].
Qed.

Lemma sort_rows_ordered (l : list row) :
  ordered_by_timestamp_desc (sort_rows before l).
Proof.
  induction l as [| x t IH]; simpl;
    [constructor | apply insert_sorted_ordered; exact IH].
Qed.

Lemma get_audit_logs_inv (st : state) (limit : Z) (f : filters)
  (entries : list log_entry) :
  get_audit_logs st limit f entries ->
  int64 limit = true
  /\ exists rows,
       sql_select (db st) f limit rows /\ entries = List.map parse_row rows.
Proof.
  unfold get_audit_logs, get_audit_logs_call.
  destruct (int64 limit); [| discriminate].
  intros [rows [Hsel Hrows]]. injection Hrows as ->. eauto.
Qed.

Lemma get_audit_logs_intro (st : state) (limit : Z) (f : filters)
  (rows : list row) :
  int64 limit = true ->
  sql_select (db st) f limit rows ->
  get_audit_logs st limit f (List.map parse_row rows).
Proof.
  unfold get_audit_logs, get_audit_logs_call. intros -> Hsel. eauto.
Qed.

(** The executable query returns one of the results the statement
    allows. *)
Lemma run_select_allowed (table : list row) (f : filters) (limit : Z) :
  sql_select table f limit (run_select before table f limit).
Proof.
  exists (sort_rows before (List.filter (where_clause f) table)).
  split; [apply sort_rows_perm |].
  split; [apply sort_rows_ordered | reflexivity].
Qed.

Lemma run_get_audit_logs_allowed (st : state) (limit : Z) (f : filters) :
  int64 limit = true ->
  get_audit_logs st limit f (run_get_audit_logs before st limit f).
Proof.
  intros Hlimit. apply get_audit_logs_intro; [exact Hlimit |].
  apply run_select_allowed.
Qed.
End Sorting.

Lemma filter_all {A : Type} (p : A -> bool) (l : list A) :
  (forall x, p x = true) -> List.filter p l = l.
Proof.
  intros Hp. induction l as [| x t IH]; simpl; [reflexivity |].
  rewrite Hp, IH. reflexivity.
Qed.

Lemma sql_limit_all {A : Type} (n : Z) (l : list A) :
  n < 0 \/ Z.of_nat (List.length l) <= n -> sql_limit n l = l.
Proof.
  unfold sql_limit. intros [Hneg | Hle].
  - apply Z.ltb_lt in Hneg. rewrite Hneg. reflexivity.
  - destruct (n <? 0); [reflexivity |]. apply firstn_all2. lia.
Qed.

Lemma parsed_rows_ordered (l : list row) :
  ordered_by_timestamp_desc l ->
  StronglySorted entries_newer_first (List.map parse_row l).
Proof.
  unfold ordered_by_timestamp_desc.
  induction 1 as [| x t Ht IH Hx]; simpl; constructor; [exact IH |].
  apply Forall_map. eapply Forall_impl; [| exact Hx].
  intros y Hy. exact Hy.
Qed.

Lemma strongly_sorted_filter {A : Type} (R : A -> A -> Prop) (p : A -> bool)
  (l : list A) :
  StronglySorted R l -> StronglySorted R (List.filter p l).
Proof.
  induction 1 as [| x t Ht IH Hx]; simpl; [constructor |].
  destruct (p x); [| exact IH].
  constructor; [exact IH |].
  rewrite Forall_forall in *. intros y Hy.
  apply List.filter_In in Hy. apply Hx. tauto.
Qed.

Lemma strongly_sorted_impl {A : Type} (R S : A -> A -> Prop) (l : list A) :
  (forall a b, R a b -> S a b) -> StronglySorted R l -> StronglySorted S l.
Proof.
  intros HRS. induction 1 as [| x t Ht IH Hx]; constructor; [exact IH |].
  eapply Forall_impl; [| exact Hx]. intros y. apply HRS.
Qed.

Lemma strongly_sorted_map {A B : Type} (g : A -> B) (R : A -> A -> Prop)
  (S : B -> B -> Prop) (l : list A) :
  (forall a b, R a b -> S (g a) (g b)) ->
  StronglySorted R l -> StronglySorted S (List.map g l).
Proof.
  intros HRS. induction 1 as [| x t Ht IH Hx]; simpl; constructor;
    [exact IH |].
  apply Forall_map. eapply Forall_impl; [| exact Hx]. intros y. apply HRS.
Qed.

Lemma string_ltb_of_leb_neq (a b : string) :
  String.leb a b = true -> a <> b -> String.ltb a b = true.
Proof.
  unfold String.leb, String.ltb.
  destruct (String.compare a b) eqn:E; try discriminate; auto.
  intros _ Hne. apply String.compare_eq_iff in E. contradiction.
Qed.

Lemma string_ltb_of_not_leb (a b : string) :
  String.leb a b = false -> String.ltb b a = true.
Proof.
  unfold String.leb, String.ltb. rewrite (String.compare_antisym b a).
  destruct (String.compare a b); simpl; try discriminate; reflexivity.
Qed.

Lemma string_ltb_trans (a b c : string) :
  String.ltb a b = true -> String.ltb b c = true -> String.ltb a c = true.
Proof.
  unfold String.ltb.
  destruct (String.compare a b) eqn:Eab; try discriminate; intros _.
  destruct (String.compare b c) eqn:Ebc; try discriminate; intros _.
  apply String_as_OT.cmp_lt in Eab, Ebc.
  pose proof (String_as_OT.lt_trans _ _ _ Eab Ebc) as Hac.
  apply String_as_OT.cmp_lt in Hac. unfold String_as_OT.cmp in Hac.
  rewrite Hac. reflexivity.
Qed.

Lemma newest_then_latest_id_trans (a b c : row) :
  newest_then_latest_id a b -> newest_then_latest_id b c ->
  newest_then_latest_id a c.
Proof.
  unfold newest_then_latest_id.
  intros [Hab | [Eab Iab]] [Hbc | [Ebc Ibc]].
  - left. eapply string_ltb_trans; eassumption.
  - left. rewrite <- Ebc. exact Hab.
  - left. rewrite Eab. exact Hbc.
  - right. split; [congruence | lia].
Qed.

Lemma newest_then_earliest_id_trans (a b c : row) :
  newest_then_earliest_id a b -> newest_then_earliest_id b c ->
  newest_then_earliest_id a c.
Proof.
  unfold newest_then_earliest_id.
  intros [Hab | [Eab Iab]] [Hbc | [Ebc Ibc]].
  - left. eapply string_ltb_trans; eassumption.
  - left. rewrite <- Ebc. exact Hab.
  - left. rewrite Eab. exact Hbc.
  - right. split; [congruence | lia].
Qed.

(** Insertion sort gives the order [R] when [R] is transitive and the
    comparison decides it for every row and the rows inserted after it. *)
Section SortingBy.
Variable R : row -> row -> Prop.
Variable before : row -> row -> bool.
Hypothesis R_trans : forall a b c, R a b -> R b c -> R a c.

Lemma insert_sorted_by (r : row) (l : list row) :
  Forall (decides R before r) l ->
  StronglySorted R l -> StronglySorted R (insert_sorted before r l).
Proof.
  induction l as [| x t IH]; simpl; intros Hd Hs.
  - constructor; constructor.
  - inversion Hs as [| ? ? Ht Hx]; subst.
    inversion Hd as [| ? ? [Htrue Hfalse] Hdt]; subst.
    destruct (before r x) eqn:E.
    + constructor; [exact Hs |].
      constructor; [apply Htrue; reflexivity |].
      eapply Forall_impl; [| exact Hx].
      intros y Hy. eapply R_trans; [apply Htrue; reflexivity | exact Hy].
    + constructor; [apply IH; assumption |].
      eapply Permutation_Forall;
        [apply Permutation_sym; apply insert_sorted_perm |].
      constructor; [apply Hfalse; reflexivity | exact Hx].
Qed.

Lemma sort_rows_by (l : list row) :
  StronglySorted (decides R before) l ->
  StronglySorted R (sort_rows before l).
Proof.
  induction 1 as [| r t Ht IH Hr]; simpl; [constructor |].
  apply insert_sorted_by; [| exact IH].
  eapply Permutation_Forall;
    [apply Permutation_sym; apply sort_rows_perm | exact Hr].
Qed.
End SortingBy.

Lemma index_scan_decides (r x : row) :
  id r < id x -> decides newest_then_latest_id index_scan_order r x.
Proof.
  intros Hid. unfold decides, index_scan_order, newest_then_latest_id.
  destruct (String.eqb_spec (timestamp r) (timestamp x)) as [E | Hne]; split.
  - intros H. apply Z.leb_le in H. lia.
  - intros _. right. split; [symmetry; exact E | exact Hid].
  - intros H. left. apply string_ltb_of_leb_neq; [exact H | congruence].
  - intros H. left. apply string_ltb_of_not_leb. exact H.
Qed.

Lemma table_scan_decides (r x : row) :
  id r < id x -> decides newest_then_earliest_id table_scan_order r x.
Proof.
  intros Hid. unfold decides, table_scan_order, newest_then_earliest_id.
  split; intros H.
  - destruct (String.string_dec (timestamp r) (timestamp x)) as [E | Hne];
      [right; auto |].
    left. apply string_ltb_of_leb_neq; [exact H | congruence].
  - left. apply string_ltb_of_not_leb. exact H.
Qed.

Lemma sqlite_order_respects (f : filters) :
  respects_timestamps (sqlite_order f).
Proof.
  unfold sqlite_order.
  destruct (has_equality f);
    [apply table_scan_respects | apply index_scan_respects].
Qed.

(** C4, as the code has it, for a table as the logger numbers it, a query
    with no date filter and a limit that binds and is negative or at least
    the number of stored rows.  The call returns; what it returns holds
    exactly the rows the other filters select (all of them when there is no
    filter), and timestamps never increase along it.  The statement sorts by
    timestamp only.  With no filter at all SQLite walks the index on
    [timestamp] backwards and equal timestamps do come by descending id; with
    a filter on the user, the customer, the operation type or the resource
    type it sorts the rows found, and equal timestamps come by ascending
    id.  A limit that does not fit 64 bits raises [OverflowError]. *)
Theorem get_audit_logs_newest_first :
  forall (st : state) (limit : Z) (f : filters),
    well_numbered st ->
    given (f_start_date f) = None ->
    given (f_end_date f) = None ->
    limit < 0 \/ Z.of_nat (List.length (db st)) <= limit ->
    (int64 limit = false ->
     get_audit_logs_run st limit f = Raise overflow_error
     /\ get_audit_logs_call st limit f (Raise overflow_error))
    /\ (int64 limit = true ->
        exists entries,
          get_audit_logs_run st limit f = Ok entries
          /\ get_audit_logs st limit f entries
          /\ Permutation entries
               (List.map parse_row (List.filter (where_clause f) (db st)))
          /\ (f = no_filter ->
              Permutation entries (List.map parse_row (db st)))
          /\ StronglySorted entries_newer_first entries
          /\ (has_equality f = false ->
              StronglySorted newest_then_latest_id entries)
          /\ (has_equality f = true ->
              StronglySorted newest_then_earliest_id entries)).
Proof.
  intros st limit f [Hids _] _ _ Hlimit. split.
  { intros H64. unfold get_audit_logs_run, get_audit_logs_call.
    rewrite H64. split; reflexivity. }
  intros H64.
  exists (run_get_audit_logs (sqlite_order f) st limit f).
  assert (Hall : run_get_audit_logs (sqlite_order f) st limit f
                 = List.map parse_row
                     (sort_rows (sqlite_order f)
                        (List.filter (where_clause f) (db st)))).
  { unfold run_get_audit_logs, run_select. rewrite sql_limit_all; [reflexivity |].
    destruct Hlimit as [Hneg | Hle]; [left; exact Hneg |].
    right. rewrite (Permutation_length (sort_rows_perm _ _)).
    pose proof (List.filter_length_le (where_clause f) (db st)). lia. }
  assert (Hsel : StronglySorted (fun a b : row => id a < id b)
                   (List.filter (where_clause f) (db st)))
    by (apply strongly_sorted_filter; exact Hids).
  split; [unfold get_audit_logs_run; rewrite H64; reflexivity |].
  split; [apply run_get_audit_logs_allowed;
          [apply sqlite_order_respects | exact H64] |].
  rewrite Hall.
  split; [apply Permutation_map; apply sort_rows_perm |].
  split.
  { intros ->. apply Permutation_map.
    rewrite <- (filter_all (where_clause no_filter) (db st)) at 2
      by (intros x; reflexivity).
    apply sort_rows_perm. }
  split.
  { apply parsed_rows_ordered. apply sort_rows_ordered.
    apply sqlite_order_respects. }
  unfold sqlite_order. split; intros ->.
  - apply (strongly_sorted_map parse_row (@newest_then_latest_id (option json)));
      [intros a b H; exact H |].
    apply sort_rows_by; [exact newest_then_latest_id_trans |].
    eapply strongly_sorted_impl; [| exact Hsel].
    intros a b. apply index_scan_decides.
  - apply (strongly_sorted_map parse_row
             (@newest_then_earliest_id (option json)));
      [intros a b H; exact H |].
    apply sort_rows_by; [exact newest_then_earliest_id_trans |].
    eapply strongly_sorted_impl; [| exact Hsel].
    intros a b. apply table_scan_decides.
Qed.

Lemma two_inserts_well_numbered : well_numbered two_inserts.
Proof.
  assert (H : exists a b, db two_inserts = [a; b] /\ id a = 1 /\ id b = 2
                          /\ sqlite_sequence two_inserts = 2).
  { vm_compute. do 2 eexists. repeat split. }
  destruct H as [a [b [Hdb [Ha [Hb Hseq]]]]].
  unfold well_numbered. rewrite Hdb, Hseq.
  split; repeat constructor; lia.
Qed.

Lemma get_audit_logs_newest_first_witness :
  exists entries,
    get_audit_logs_run two_inserts 100 no_filter = Ok entries
    /\ List.map id entries = [2; 1]
    /\ StronglySorted newest_then_latest_id entries.
Proof.
  destruct (get_audit_logs_newest_first two_inserts 100 no_filter
              two_inserts_well_numbered eq_refl eq_refl
              ltac:(right; vm_compute; discriminate))
    as [_ Hreturns].
  destruct (Hreturns eq_refl)
    as [entries [Hrun [_ [_ [_ [_ [Hlatest _]]]]]]].
  exists entries. split; [exact Hrun |].
  split; [| exact (Hlatest eq_refl)].
  vm_compute in Hrun. injection Hrun as <-. reflexivity.
Defined.

(** C4 as stated fails: after two inserts by one user within one second, the
    query for that user's entries (no date filter, limit above the number of
    rows) returns both, the earlier insert first: equal timestamps are not
    followed by descending id. *)
Lemma equal_timestamps_need_not_come_latest_id_first :
  exists entries,
    get_audit_logs_run two_inserts 100 (only_user "user_1714557600")
    = Ok entries
    /\ get_audit_logs two_inserts 100 (only_user "user_1714557600") entries
    /\ List.length entries = List.length (db two_inserts)
    /\ List.map id entries = [1; 2]
    /\ List.map timestamp entries
       = ["2024-05-01 10:00:00"%string; "2024-05-01 10:00:00"%string]
    /\ (StronglySorted newest_then_latest_id entries -> False).
Proof.
  eexists. split; [vm_compute; reflexivity |].
  split.
  { apply (run_get_audit_logs_allowed (sqlite_order (only_user "user_1714557600"))
             (sqlite_order_respects _) two_inserts 100
             (only_user "user_1714557600") eq_refl). }
  split; [vm_compute; reflexivity |].
  split; [vm_compute; reflexivity |].
  split; [vm_compute; reflexivity |].
  intros Hs.
  inversion Hs as [| ? ? _ Hfirst]; subst.
  inversion Hfirst as [| ? ? Hab _]; subst.
  destruct Hab as [Hlt | [_ Hid]]; [| vm_compute in Hid; discriminate].
  vm_compute in Hlt. discriminate.
Qed.

(** ** Serialization: what [json] writes it reads back *)












(** A stored row that the filters select is part of every result whose
    limit does not cut the selection short. *)
Lemma get_audit_logs_returns_row (st : state) (limit : Z) (f : filters)
  (entries : list log_entry) (r : row) :
  get_audit_logs st limit f entries ->
  In r (db st) ->
  where_clause f r = true ->
  limit < 0 \/ Z.of_nat (List.length (db st)) <= limit ->
  In (parse_row r) entries.
Proof.
  intros Hq Hin Hsel Hlimit.
  destruct (get_audit_logs_inv _ _ _ _ Hq)
    as [_ [rows [[sorted [Hperm [_ ->]]] ->]]].
  rewrite sql_limit_all.
  - apply List.in_map. eapply Permutation_in;
      [apply Permutation_sym; exact Hperm |].
    apply List.filter_In. auto.
  - destruct Hlimit as [Hneg | Hle]; [left; exact Hneg |].
    right. rewrite (Permutation_length Hperm).
    pose proof (List.filter_length_le (where_clause f) (db st)). lia.
Qed.




(** ** The interceptor: the paths of the wrapper *)

Lemma hasattr_getattr (v : pyval) (name : string) (x : pyval) :
  getattr v name = Some x ->
  hasattr v name = true /\ getattr_default v name PNone = x.
Proof.
  unfold hasattr, getattr_default. intros ->. auto.
Qed.

Lemma on_exception_logged (w : world) (elapsed_ms : Z)
  (operation_type resource_type function_name : string)
  (params : list (string * pyval)) (e : pyval) (st : state)
  (code : pyval) (msg : string) :
  error_details e = Ok (code, msg) ->
  on_exception w elapsed_ms operation_type resource_type function_name params e
    st
  = (Raise e,
     snd (log_operation w
            (error_entry w operation_type resource_type function_name params e
               code msg elapsed_ms) st)).
Proof.
  intros Hd. unfold on_exception. rewrite Hd.
  destruct (log_operation w _ st) as [o st']. reflexivity.
Qed.

Lemma on_exception_failed (w : world) (elapsed_ms : Z)
  (operation_type resource_type function_name : string)
  (params : list (string * pyval)) (e e' : pyval) (st : state) :
  error_details e = Raise e' ->
  on_exception w elapsed_ms operation_type resource_type function_name params e
    st
  = (Raise e', st).
Proof.
  intros Hd. unfold on_exception. rewrite Hd. reflexivity.
Qed.

(** What inspecting a result raises derives from [Exception]. *)
Lemma py_first_raises (v e : pyval) :
  py_first v = Raise e -> is_exception e = true.
Proof.
  destruct v as [| | | [| c t] | [| x t] | [| x t] | |]; simpl; intros H;
    try discriminate H; injection H as <-; reflexivity.
Qed.

Lemma py_len_raises (v e : pyval) :
  py_len v = Raise e -> is_exception e = true.
Proof.
  destruct v; simpl; intros H; try discriminate H; injection H as <-;
    reflexivity.
Qed.

Lemma extract_resource_id_raises (result e : pyval) :
  extract_resource_id result = Raise e -> is_exception e = true.
Proof.
  unfold extract_resource_id.
  destruct (hasattr result "results"
            && truthy (getattr_default result "results" PNone)).
  - destruct (py_first (getattr_default result "results" PNone)) as [x | e']
      eqn:Hf; simpl.
    + destruct (hasattr x "resource_name"); discriminate.
    + intros H. injection H as <-. exact (py_first_raises _ _ Hf).
  - destruct result; try discriminate.
    destruct (contains_char "/" s); discriminate.
Qed.

Lemma resource_count_raises (result e : pyval) :
  resource_count result = Raise e -> is_exception e = true.
Proof.
  unfold resource_count. destruct (hasattr result "results"); [| discriminate].
  destruct (py_len (getattr_default result "results" PNone)) as [n | e']
    eqn:Hl; simpl; [discriminate |].
  intros H. injection H as <-. exact (py_len_raises _ _ Hl).
Qed.

Section Wrapper.
Variables (operation_type resource_type function_name : string).
Variable func : operation.
Variable w : world.
Variable elapsed_ms : Z.
Variables (args : list pyval) (kwargs : list (string * pyval)).
Variable st : state.

Let wrapped : outcome pyval * state :=
  audit_log operation_type resource_type function_name func w elapsed_ms
    args kwargs st.

Lemma audit_log_raised (e : pyval) (st1 : state) :
  func args kwargs st = (Raise e, st1) ->
  is_exception e = true ->
  wrapped
  = on_exception w elapsed_ms operation_type resource_type function_name
      (log_params args kwargs) e st1.
Proof.
  intros Hf He. unfold wrapped, audit_log, except_exception.
  rewrite Hf, He. reflexivity.
Qed.

Lemma audit_log_passes (e : pyval) (st1 : state) :
  func args kwargs st = (Raise e, st1) ->
  is_exception e = false ->
  wrapped = (Raise e, st1).
Proof.
  intros Hf He. unfold wrapped, audit_log, except_exception.
  rewrite Hf, He. reflexivity.
Qed.

Lemma audit_log_returned (result rid count : pyval) (st1 : state) :
  func args kwargs st = (Ok result, st1) ->
  extract_resource_id result = Ok rid ->
  resource_count result = Ok count ->
  wrapped
  = (Ok result,
     snd (log_operation w
            (success_entry operation_type resource_type function_name
               (log_params args kwargs) rid count elapsed_ms) st1)).
Proof.
  intros Hf Hr Hc. unfold wrapped, audit_log. rewrite Hf, Hr, Hc. simpl.
  destruct (log_operation w _ st1) as [o st2]. reflexivity.
Qed.

Lemma audit_log_bookkeeping_raised (result e : pyval) (st1 : state) :
  func args kwargs st = (Ok result, st1) ->
  extract_resource_id result = Raise e
  \/ (exists rid, extract_resource_id result = Ok rid
                  /\ resource_count result = Raise e) ->
  wrapped
  = on_exception w elapsed_ms operation_type resource_type function_name
      (log_params args kwargs) e st1.
Proof.
  intros Hf H. unfold wrapped, audit_log, except_exception. rewrite Hf.
  destruct H as [Hr | [rid [Hr Hc]]]; rewrite Hr; simpl.
  - rewrite (extract_resource_id_raises _ _ Hr). reflexivity.
  - rewrite Hc. simpl. rewrite (resource_count_raises _ _ Hc). reflexivity.
Qed.

(** Every call takes one of three paths: the success entry is logged and
    the result returned; an exception [e] (the operation's, or one raised
    while the result was inspected) is logged and raised again; or nothing
    is logged and the caller sees a raised [e']: what the decomposition of
    [e] itself raised, or what the operation raised that does not derive
    from [Exception]. *)
Lemma audit_log_paths (res : outcome pyval) (st1 : state) :
  func args kwargs st = (res, st1) ->
  (exists result rid count,
      res = Ok result
      /\ wrapped
         = (Ok result,
            snd (log_operation w
                   (success_entry operation_type resource_type function_name
                      (log_params args kwargs) rid count elapsed_ms) st1)))
  \/ (exists e code msg,
        error_details e = Ok (code, msg)
        /\ wrapped
           = (Raise e,
              snd (log_operation w
                     (error_entry w operation_type resource_type
                        function_name (log_params args kwargs) e code msg
                        elapsed_ms) st1)))
  \/ (exists e', wrapped = (Raise e', st1)).
Proof.
  intros Hf.
  assert (Hexc : forall e,
    wrapped
    = on_exception w elapsed_ms operation_type resource_type function_name
        (log_params args kwargs) e st1 ->
    (exists e0 code msg,
        error_details e0 = Ok (code, msg)
        /\ wrapped
           = (Raise e0,
              snd (log_operation w
                     (error_entry w operation_type resource_type
                        function_name (log_params args kwargs) e0 code msg
                        elapsed_ms) st1)))
    \/ (exists e', wrapped = (Raise e', st1))).
  { intros e He. destruct (error_details e) as [[code msg] | e'] eqn:Hd.
    - left. exists e, code, msg. split; [exact Hd |].
      rewrite He. apply on_exception_logged. exact Hd.
    - right. exists e'. rewrite He. apply on_exception_failed. exact Hd. }
  destruct res as [result | e].
  - destruct (extract_resource_id result) as [rid | e] eqn:Hr.
    + destruct (resource_count result) as [count | e] eqn:Hc.
      * left. exists result, rid, count. split; [reflexivity |].
        apply audit_log_returned; assumption.
      * right. apply (Hexc e).
        eapply audit_log_bookkeeping_raised; [exact Hf |]. eauto.
    + right. apply (Hexc e).
      eapply audit_log_bookkeeping_raised; [exact Hf |]. auto.
  - destruct (is_exception e) eqn:He.
    + right. apply (Hexc e). apply audit_log_raised; assumption.
    + right. right. exists e. apply audit_log_passes; assumption.
Qed.
End Wrapper.

(** ** The interceptor: failures of the operation *)

Lemma row_of_error_entry (w : world) (ot rt fn : string)
  (params : list (string * pyval)) (e code : pyval) (msg : string) (ms : Z)
  (r : row) :
  row_of_args (error_entry w ot rt fn params e code msg ms) r ->
  operation_type r = ot /\ resource_type r = rt /\ function_name r = fn
  /\ result_status r = "ERROR"
  /\ error_message r = Some msg
  /\ error_type r = Some (type_name e)
  /\ stack_trace r = Some (format_exc w (Some e))
  /\ result_data r = None
  /\ resource_id r = None
  /\ bind_text 12 code = Ok (error_code r)
  /\ dumps_if_truthy (PDict params) = Ok (parameters r).
Proof.
  unfold row_of_args, error_entry; simpl.
  intros [H1 [H2 [H3 [H4 [H5 [H6 [H7 [H8 [H9 [H10 [H11 _]]]]]]]]]]].
  unfold dumps_if_truthy in H9. simpl in H9.
  injection H9 as H9. injection H10 as H10.
  repeat split; auto.
Qed.

Lemma storable_error_entry (w : world) (ot rt fn : string)
  (params : list (string * pyval)) (e code : pyval) (msg : string) (ms : Z)
  (st : state) :
  session_texts st = true ->
  column_ok (PDict params) = true ->
  bindable code = true ->
  int64 ms = true ->
  storable (error_entry w ot rt fn params e code msg ms) st = true.
Proof.
  intros Hs Hp Hc Hms. unfold storable, error_entry; simpl.
  rewrite Hs, Hp, Hc, Hms. reflexivity.
Qed.




(** An interrupt is no [Exception]: it leaves the wrapper as it was raised,
    and no entry is written for it. *)
Lemma interrupt_is_not_recorded :
  audit_log "CREATE" "CAMPAIGN" "create_campaign" (raising interrupt)
    sample_world 12 [PNone] [("campaign_name", PStr "Spring")] empty_state
  = (Raise interrupt, empty_state).
Proof.
  reflexivity.
Qed.




(** ** The interceptor: the entries it writes *)

Lemma row_of_success_entry (ot rt fn : string)
  (params : list (string * pyval)) (rid count : pyval) (ms : Z) (r : row) :
  row_of_args (success_entry ot rt fn params rid count ms) r ->
  operation_type r = ot /\ resource_type r = rt /\ function_name r = fn
  /\ result_status r = "SUCCESS"
  /\ error_message r = None /\ error_type r = None /\ stack_trace r = None
  /\ error_code r = None
  /\ (exists j, result_data r = Some j)
  /\ bind_text 5 rid = Ok (resource_id r)
  /\ dumps_if_truthy (PDict params) = Ok (parameters r).
Proof.
  unfold row_of_args, success_entry; simpl.
  intros [H1 [H2 [H3 [H4 [H5 [H6 [H7 [H8 [H9 [H10 [H11 _]]]]]]]]]]].
  injection H11 as H11.
  assert (Hd : exists j, result_data r = Some j).
  { unfold dumps_if_truthy in H9. simpl in H9.
    destruct (to_json count) as [j | e]; simpl in H9; [| discriminate].
    injection H9 as <-. eauto. }
  repeat split; auto.
Qed.

Lemma storable_success_entry (ot rt fn : string)
  (params : list (string * pyval)) (rid count : pyval) (ms : Z) (st : state) :
  session_texts st = true ->
  column_ok (PDict params) = true ->
  bindable rid = true ->
  to_json count = Ok JNull \/ (exists n, to_json count = Ok (JInt n)) ->
  int64 ms = true ->
  storable (success_entry ot rt fn params rid count ms) st = true.
Proof.
  intros Hs Hp Hr Hc Hms. unfold storable, success_entry; simpl.
  rewrite Hs, Hp, Hr, Hms.
  unfold column_ok, dumps_if_truthy; simpl.
  destruct Hc as [-> | [n ->]]; reflexivity.
Qed.

(** A row added to the table by [log_operation] is the row of its
    arguments. *)
Lemma log_operation_added (w : world) (a : log_args) (st : state) (r : row) :
  db (snd (log_operation w a st)) = (db st ++ [r])%list -> row_of_args a r.
Proof.
  intros Hr.
  destruct (log_operation_cases w a st)
    as [[Hsame _] | [r' [Hr' [_ [_ [_ [_ Hrow]]]]]]].
  - rewrite Hsame in Hr. exfalso.
    apply (f_equal (@List.length row)) in Hr.
    rewrite List.length_app in Hr. simpl in Hr. lia.
  - rewrite Hr' in Hr. apply List.app_inv_head in Hr. injection Hr as ->.
    exact Hrow.
Qed.

Lemma not_appended {A : Type} (l : list A) (x : A) : l <> (l ++ [x])%list.
Proof.
  intros H. apply (f_equal (@List.length A)) in H.
  rewrite List.length_app in H. simpl in H. lia.
Qed.

(** C8, as the code has it: every entry the interceptor writes has one
    result status, SUCCESS or ERROR; [error_message], [error_type] and
    [stack_trace] are present exactly on ERROR entries; [error_code] is
    present only on ERROR entries; on the ERROR entry of an exception that
    exposes no vendor failure list, [error_code] is absent when the
    exception has no [code] attribute and is the text of that attribute when
    it has one; [result_data] is present exactly on SUCCESS entries. *)
Theorem interceptor_entry_fields :
  forall (ot rt fn : string) (func : operation) (w : world) (ms : Z)
         (args : list pyval) (kwargs : list (string * pyval))
         (st st1 : state) (res : outcome pyval) (r : row),
    func args kwargs st = (res, st1) ->
    db (snd (audit_log ot rt fn func w ms args kwargs st))
    = (db st1 ++ [r])%list ->
    (result_status r = "SUCCESS" \/ result_status r = "ERROR")
    /\ (error_message r <> None <-> result_status r = "ERROR")
    /\ (error_type r <> None <-> result_status r = "ERROR")
    /\ (stack_trace r <> None <-> result_status r = "ERROR")
    /\ (error_code r <> None -> result_status r = "ERROR")
    /\ (forall e,
          fst (audit_log ot rt fn func w ms args kwargs st) = Raise e ->
          hasattr e "failure"
          && hasattr (getattr_default e "failure" PNone) "errors" = false ->
          result_status r = "ERROR"
          /\ (getattr e "code" = None -> error_code r = None)
          /\ (forall c, getattr e "code" = Some c ->
                        error_code r = Some (py_str c)))
    /\ (result_data r <> None <-> result_status r = "SUCCESS").
Proof.
  intros ot rt fn func w ms args kwargs st st1 res r Hf Hr.
  destruct (audit_log_paths ot rt fn func w ms args kwargs st res st1 Hf)
    as [[result [rid [count [_ Hw]]]] | [[e [code [msg [Hde Hw]]]] | [e' Hw]]];
    rewrite Hw in Hr |- *; simpl in Hr |- *.
  - apply log_operation_added in Hr. apply row_of_success_entry in Hr.
    destruct Hr as [_ [_ [_ [Hs [Hm [Ht [Htr [Hc [[j Hd] _]]]]]]]]].
    split; [left; exact Hs |].
    split; [rewrite Hm, Hs; split;
            [intros H; exfalso; apply H; reflexivity | discriminate] |].
    split; [rewrite Ht, Hs; split;
            [intros H; exfalso; apply H; reflexivity | discriminate] |].
    split; [rewrite Htr, Hs; split;
            [intros H; exfalso; apply H; reflexivity | discriminate] |].
    split; [rewrite Hc; intros H; exfalso; apply H; reflexivity |].
    split; [intros e0 He0; discriminate He0 |].
    rewrite Hd, Hs. split; [reflexivity | discriminate].
  - apply log_operation_added in Hr. apply row_of_error_entry in Hr.
    destruct Hr as [_ [_ [_ [Hs [Hm [Ht [Htr [Hd [_ [Hc _]]]]]]]]]].
    assert (Hcode : forall e0,
              (Raise e : outcome pyval) = Raise e0 ->
              hasattr e0 "failure"
              && hasattr (getattr_default e0 "failure" PNone) "errors" = false ->
              result_status r = "ERROR"
              /\ (getattr e0 "code" = None -> error_code r = None)
              /\ (forall c, getattr e0 "code" = Some c ->
                            error_code r = Some (py_str c))).
    { intros e0 He0 Hno. injection He0 as <-.
      unfold error_details in Hde. rewrite Hno in Hde.
      split; [exact Hs |]. split.
      - intros Hnone. unfold hasattr in Hde. rewrite Hnone in Hde.
        simpl in Hde. injection Hde as <- _. simpl in Hc. congruence.
      - intros c Hsome.
        destruct (hasattr_getattr _ _ _ Hsome) as [Hhas Hget].
        rewrite Hhas, Hget in Hde. injection Hde as <- _.
        simpl in Hc. congruence. }
    split; [right; exact Hs |].
    split; [rewrite Hm, Hs; split; [reflexivity | discriminate] |].
    split; [rewrite Ht, Hs; split; [reflexivity | discriminate] |].
    split; [rewrite Htr, Hs; split; [reflexivity | discriminate] |].
    split; [intros _; exact Hs |].
    split; [exact Hcode |].
    rewrite Hd, Hs.
    split; [intros H; exfalso; apply H; reflexivity | discriminate].
  - exfalso. exact (not_appended _ _ Hr).
Qed.

Lemma interceptor_entry_fields_witness :
  exists r,
    db (snd (audit_log "CREATE" "CAMPAIGN" "create_campaign"
               (returning (PStr "customers/1/campaigns/7")) sample_world 12
               [PNone] [("campaign_name", PStr "Spring")] empty_state))
    = [r]
    /\ result_status r = "SUCCESS"
    /\ (error_message r <> None <-> result_status r = "ERROR")
    /\ (result_data r <> None <-> result_status r = "SUCCESS").
Proof.
  eexists. split; [vm_compute; reflexivity |].
  split; [reflexivity |].
  pose proof (interceptor_entry_fields "CREATE" "CAMPAIGN" "create_campaign"
                (returning (PStr "customers/1/campaigns/7")) sample_world 12
                [PNone] [("campaign_name", PStr "Spring")] empty_state
                empty_state _ _ eq_refl eq_refl)
    as [_ [Hm [_ [_ [_ [_ Hd]]]]]].
  split; [exact Hm | exact Hd].
Defined.

(** C8 as stated fails for [error_code]: the entry written for an operation
    that raises a plain exception is an ERROR entry whose [error_code] is
    absent. *)
Lemma error_entry_without_error_code :
  exists r,
    db (snd (audit_log "CREATE" "CAMPAIGN" "create_campaign" (raising boom)
               sample_world 12 [PNone] [("campaign_name", PStr "Spring")]
               empty_state))
    = [r]
    /\ result_status r = "ERROR"
    /\ error_message r = Some "boom"
    /\ error_code r = None.
Proof.
  eexists. split; [vm_compute; reflexivity |]. repeat split.
Qed.

(** ** The interceptor: results of the operation *)

Lemma inspect_string (s : string) :
  extract_resource_id (PStr s)
  = Ok (if contains_char "/" s then PStr s else PNone)
  /\ resource_count (PStr s) = Ok PNone.
Proof.
  unfold extract_resource_id, resource_count. simpl.
  destruct (contains_char "/" s); auto.
Qed.

Lemma inspect_no_results (result : pyval) :
  hasattr result "results" = false ->
  (exists rid, extract_resource_id result = Ok rid /\ bindable rid = true)
  /\ resource_count result = Ok PNone.
Proof.
  unfold extract_resource_id, resource_count. intros ->. simpl.
  split; [| reflexivity].
  destruct result; try (exists PNone; split; reflexivity).
  destruct (contains_char "/" s); eexists; split; reflexivity.
Qed.

(** A result whose [results] attribute is a list or a tuple: the resource
    id is the [resource_name] of the first item, the count the number of
    items. *)
Lemma inspect_sequence (result results : pyval) (l : list pyval) :
  getattr result "results" = Some results ->
  sequence_items results = Some l ->
  extract_resource_id result
  = Ok (match l with
        | first :: _ => getattr_default first "resource_name" PNone
        | [] => PNone
        end)
  /\ resource_count result = Ok (PInt (Z.of_nat (List.length l))).
Proof.
  intros Hres Hseq.
  destruct (hasattr_getattr _ _ _ Hres) as [Hhas Hget].
  unfold extract_resource_id, resource_count. rewrite Hhas, Hget.
  destruct result; try discriminate Hres.
  destruct results; try discriminate Hseq; injection Hseq as ->;
    (destruct l as [| first rest]; simpl; [auto |]);
    unfold hasattr, getattr_default;
    destruct (getattr first "resource_name"); simpl; auto.
Qed.

Lemma audit_log_success (ot rt fn : string) (func : operation) (w : world)
  (ms : Z) (args : list pyval) (kwargs : list (string * pyval))
  (st st1 : state) (result rid count : pyval) :
  func args kwargs st = (Ok result, st1) ->
  extract_resource_id result = Ok rid ->
  resource_count result = Ok count ->
  to_json count = Ok JNull \/ (exists n, to_json count = Ok (JInt n)) ->
  fst (audit_log ot rt fn func w ms args kwargs st) = Ok result
  /\ (forall r,
        db (snd (audit_log ot rt fn func w ms args kwargs st))
        = (db st1 ++ [r])%list ->
        bind_text 5 rid = Ok (resource_id r) /\ result_status r = "SUCCESS")
  /\ (session_texts st1 = true ->
      column_ok (PDict (log_params args kwargs)) = true ->
      bindable rid = true ->
      int64 ms = true ->
      exists r,
        db (snd (audit_log ot rt fn func w ms args kwargs st))
        = (db st1 ++ [r])%list)
  /\ (column_ok (PDict (log_params args kwargs)) = false ->
      db (snd (audit_log ot rt fn func w ms args kwargs st)) = db st1).
Proof.
  intros Hf Hr Hc Hcount.
  rewrite (audit_log_returned ot rt fn func w ms args kwargs st result rid
             count st1 Hf Hr Hc).
  simpl. split; [reflexivity |]. split; [| split].
  - intros r Hadd. apply log_operation_added in Hadd.
    apply row_of_success_entry in Hadd. intuition.
  - intros Hs Hp Hb Hms.
    destruct (log_operation_inserts w _ st1
                (storable_success_entry ot rt fn _ rid count ms st1
                   Hs Hp Hb Hcount Hms)) as [r [Hadd _]].
    exists r. exact Hadd.
  - intros Hp.
    apply (log_operation_drops w
             (success_entry ot rt fn (log_params args kwargs) rid count ms)
             st1).
    left. exact Hp.
Qed.

(** C7, as the code has it, for an operation that returns [result]:
    - a string containing a slash is returned unchanged and is the
      [resource_id] of the entry the call writes;
    - a result whose [results] attribute is a non-empty list or tuple whose
      first item has a [resource_name] is returned unchanged, and that
      [resource_name] is the [resource_id] of the entry the call writes;
    - in both cases the entry is written when the session identifies the user
      with strings, the parameter snapshot serializes and the remaining
      values bind, and no entry is written when the parameter snapshot does
      not serialize;
    - a result with no [results] attribute, or with a list or a tuple there,
      is returned unchanged. *)
Theorem audit_log_records_resource_id :
  forall (ot rt fn : string) (func : operation) (w : world) (ms : Z)
         (args : list pyval) (kwargs : list (string * pyval))
         (st st1 : state) (result : pyval),
    func args kwargs st = (Ok result, st1) ->
    (forall s,
        result = PStr s -> contains_char "/" s = true ->
        fst (audit_log ot rt fn func w ms args kwargs st) = Ok result
        /\ (forall r,
              db (snd (audit_log ot rt fn func w ms args kwargs st))
              = (db st1 ++ [r])%list ->
              resource_id r = Some s /\ result_status r = "SUCCESS")
        /\ (session_texts st1 = true ->
            column_ok (PDict (log_params args kwargs)) = true ->
            int64 ms = true ->
            exists r,
              db (snd (audit_log ot rt fn func w ms args kwargs st))
              = (db st1 ++ [r])%list)
        /\ (column_ok (PDict (log_params args kwargs)) = false ->
            db (snd (audit_log ot rt fn func w ms args kwargs st)) = db st1))
    /\ (forall results first rest name,
          getattr result "results" = Some results ->
          sequence_items results = Some (first :: rest) ->
          getattr first "resource_name" = Some name ->
          fst (audit_log ot rt fn func w ms args kwargs st) = Ok result
          /\ (forall r,
                db (snd (audit_log ot rt fn func w ms args kwargs st))
                = (db st1 ++ [r])%list ->
                bind_text 5 name = Ok (resource_id r)
                /\ (forall s, name = PStr s -> resource_id r = Some s)
                /\ result_status r = "SUCCESS")
          /\ (session_texts st1 = true ->
              column_ok (PDict (log_params args kwargs)) = true ->
              bindable name = true ->
              int64 ms = true ->
              exists r,
                db (snd (audit_log ot rt fn func w ms args kwargs st))
                = (db st1 ++ [r])%list)
          /\ (column_ok (PDict (log_params args kwargs)) = false ->
              db (snd (audit_log ot rt fn func w ms args kwargs st))
              = db st1))
    /\ (hasattr result "results" = false
        \/ (exists results l,
              getattr result "results" = Some results
              /\ sequence_items results = Some l) ->
        fst (audit_log ot rt fn func w ms args kwargs st) = Ok result).
Proof.
  intros ot rt fn func w ms args kwargs st st1 result Hf.
  split; [| split].
  - intros s -> Hs.
    destruct (inspect_string s) as [Hr Hc]. rewrite Hs in Hr.
    destruct (audit_log_success ot rt fn func w ms args kwargs st st1 _ _ _
                Hf Hr Hc (or_introl eq_refl)) as [H1 [H2 [H3 H4]]].
    split; [exact H1 |]. split; [| split].
    + intros r Hadd. destruct (H2 r Hadd) as [Hb Hstat].
      simpl in Hb. split; [congruence | exact Hstat].
    + intros Hsess Hp Hms. apply H3; auto.
    + exact H4.
  - intros results first rest name Hres Hseq Hname.
    destruct (inspect_sequence _ _ _ Hres Hseq) as [Hr Hc].
    destruct (hasattr_getattr _ _ _ Hname) as [_ Hget]. rewrite Hget in Hr.
    destruct (audit_log_success ot rt fn func w ms args kwargs st st1 _ _ _
                Hf Hr Hc (or_intror (ex_intro _ _ eq_refl)))
      as [H1 [H2 [H3 H4]]].
    split; [exact H1 |]. split; [| split].
    + intros r Hadd. destruct (H2 r Hadd) as [Hb Hstat].
      split; [exact Hb |]. split; [| exact Hstat].
      intros s ->. simpl in Hb. congruence.
    + exact H3.
    + exact H4.
  - intros [Hno | [results [l [Hres Hseq]]]].
    + destruct (inspect_no_results result Hno) as [[rid [Hr _]] Hc].
      apply (audit_log_success ot rt fn func w ms args kwargs st st1 _ _ _
               Hf Hr Hc (or_introl eq_refl)).
    + destruct (inspect_sequence _ _ _ Hres Hseq) as [Hr Hc].
      apply (audit_log_success ot rt fn func w ms args kwargs st st1 _ _ _
               Hf Hr Hc (or_intror (ex_intro _ _ eq_refl))).
Qed.

Lemma audit_log_records_resource_id_witness :
  (exists r,
      audit_log "CREATE" "CAMPAIGN" "create_campaign"
        (returning (PStr "customers/1/campaigns/7")) sample_world 12 [PNone]
        [("campaign_name", PStr "Spring")] empty_state
      = (Ok (PStr "customers/1/campaigns/7"),
         mk_state [r] 1
           [("generated_user_id", PStr "user_1714557600");
            ("session_id", PStr "session_1714557600")] [])
      /\ resource_id r = Some "customers/1/campaigns/7")
  /\ (exists r,
        audit_log "CREATE" "CAMPAIGN" "create_campaigns"
          (returning mutate_response) sample_world 12 [PNone] [] empty_state
        = (Ok mutate_response,
           mk_state [r] 1
             [("generated_user_id", PStr "user_1714557600");
              ("session_id", PStr "session_1714557600")] [])
        /\ resource_id r = Some "customers/1/campaigns/7").
Proof.
  split.
  - eexists. split; [vm_compute; reflexivity |].
    destruct (audit_log_records_resource_id "CREATE" "CAMPAIGN"
                "create_campaign" (returning (PStr "customers/1/campaigns/7"))
                sample_world 12 [PNone] [("campaign_name", PStr "Spring")]
                empty_state empty_state _ eq_refl) as [Hstring _].
    destruct (Hstring _ eq_refl eq_refl) as [_ [Hrow _]].
    apply (Hrow _ eq_refl).
  - eexists. split; [vm_compute; reflexivity |].
    destruct (audit_log_records_resource_id "CREATE" "CAMPAIGN"
                "create_campaigns" (returning mutate_response) sample_world 12
                [PNone] [] empty_state empty_state _ eq_refl) as [_ [Hseq _]].
    destruct (Hseq _ _ _ _ eq_refl eq_refl eq_refl) as [_ [Hrow _]].
    destruct (Hrow _ eq_refl) as [_ [Hname _]].
    apply Hname. reflexivity.
Defined.

(** C7 as stated fails: the operation returns a string with a slash, the
    wrapper returns it, but with a keyword argument [json] cannot serialize no
    entry is written, so the string is recorded nowhere. *)
Lemma resource_id_of_unserializable_call_is_not_recorded :
  let out :=
    audit_log "CREATE" "CAMPAIGN" "create_campaign"
      (returning (PStr "customers/1/campaigns/7")) sample_world 12 [PNone]
      [("campaign_name", PStr "Spring"); ("operation", handle)] empty_state in
  fst out = Ok (PStr "customers/1/campaigns/7")
  /\ db (snd out) = []
  /\ stdout (snd out)
     = ["Error logging audit entry: "
        ++ "Object of type CampaignOperation is not JSON serializable"].
Proof.
  vm_compute. repeat split.
Qed.

(** ** The interceptor: the parameter snapshot *)

#[local] Arguments excluded k : simpl never.
























(** ** The audit recorder: [log_error] *)

Lemma error_info_mapping (err : pyval) :
  code_is_mapping err = true -> error_info err = Ok (sub_error_info err).
Proof.
  unfold code_is_mapping, error_info, sub_error_info, sub_error_code,
    getattr_default.
  destruct (getattr err "error_code") as [c |]; [| reflexivity].
  destruct c; try discriminate. intros _. reflexivity.
Qed.

Lemma error_infos_mapping (errs : list pyval) :
  List.forallb code_is_mapping errs = true ->
  error_infos errs = Ok (List.map sub_error_info errs).
Proof.
  unfold error_infos.
  induction errs as [| err t IH]; simpl; [reflexivity |].
  intros H. apply andb_true_iff in H. destruct H as [Herr Ht].
  rewrite (error_info_mapping err Herr). simpl. rewrite (IH Ht). reflexivity.
Qed.

Lemma first_code_head (err : pyval) (errs : list pyval) :
  sub_error_code err <> PNone ->
  first_code (List.map sub_error_info (err :: errs)) = sub_error_code err.
Proof.
  simpl. destruct (sub_error_code err); congruence.
Qed.

(** The decomposition as far as it works: for a failure list whose
    sub-errors carry their code as a mapping (or carry none) and whose parts
    serialize, the message is the JSON text of the list of parts and the code
    the first code that is not [None]; without a failure list the code is the
    text of the [code] attribute, or absent, and the message the text of the
    exception. *)
Lemma error_details_cases (e : pyval) :
  (forall failure errors errs j,
      getattr e "failure" = Some failure ->
      getattr failure "errors" = Some errors ->
      py_iter errors = Ok errs ->
      List.forallb code_is_mapping errs = true ->
      to_json (PList (List.map sub_error_info errs)) = Ok j ->
      error_details e
      = Ok (first_code (List.map sub_error_info errs),
            "Google Ads API Error: " ++ json_text j))
  /\ (hasattr e "failure"
       && hasattr (getattr_default e "failure" PNone) "errors" = false ->
      forall code, getattr e "code" = Some code ->
                   error_details e = Ok (PStr (py_str code), py_str e))
  /\ (hasattr e "failure"
       && hasattr (getattr_default e "failure" PNone) "errors" = false ->
      getattr e "code" = None -> error_details e = Ok (PNone, py_str e)).
Proof.
  split; [| split].
  - intros failure errors errs j Hf He Hit Hshape Hj.
    destruct (hasattr_getattr _ _ _ Hf) as [Hhas Hget].
    destruct (hasattr_getattr _ _ _ He) as [Hhas' Hget'].
    unfold error_details. rewrite Hhas, Hget, Hhas', Hget', Hit. simpl.
    rewrite (error_infos_mapping errs Hshape). simpl.
    unfold json_dumps. rewrite Hj. reflexivity.
  - intros Hno code Hc. unfold error_details. rewrite Hno.
    destruct (hasattr_getattr _ _ _ Hc) as [Hhas Hget].
    rewrite Hhas, Hget. reflexivity.
  - intros Hno Hc. unfold error_details. rewrite Hno.
    unfold hasattr. rewrite Hc. reflexivity.
Qed.

(** What [log_error] records once the decomposition has returned. *)
Lemma log_error_records (w : world) (handling : option pyval)
  (ot rt fn : string) (e params rid : pyval) (ms : option Z) (st : state)
  (code : pyval) (msg : string) :
  error_details e = Ok (code, msg) ->
  fst (log_error w handling ot rt fn e params rid ms st) = Ok tt
  /\ (forall r,
        db (snd (log_error w handling ot rt fn e params rid ms st))
        = (db st ++ [r])%list ->
        result_status r = "ERROR"
        /\ error_message r = Some msg
        /\ bind_text 12 code = Ok (error_code r)
        /\ error_type r = Some (type_name e)
        /\ stack_trace r = Some (format_exc w handling))
  /\ (session_texts st = true ->
      column_ok params = true ->
      bindable rid = true ->
      bindable code = true ->
      match ms with Some n => int64 n | None => true end = true ->
      exists r,
        db (snd (log_error w handling ot rt fn e params rid ms st))
        = (db st ++ [r])%list).
Proof.
  intros Hd. unfold log_error. rewrite Hd.
  split; [apply log_operation_returns |]. split.
  - intros r Hr. apply log_operation_added in Hr.
    unfold row_of_args in Hr; simpl in Hr. intuition.
  - intros Hs Hp Hrid Hcode Hms.
    match goal with
    | |- exists r, db (snd (log_operation w ?a st)) = _ =>
        assert (Hst : storable a st = true)
          by (unfold storable; simpl; rewrite Hs, Hp, Hrid, Hcode, Hms;
              reflexivity);
        destruct (log_operation_inserts w a st Hst) as [r [Hr _]]
    end.
    exists r. exact Hr.
Qed.

(** On a failure whose sub-errors carry the code as a mapping, the entry is
    recorded as C6 describes. *)
Lemma log_error_mapping_exception :
  exists r,
    log_error sample_world (Some mapping_exception) "API_CALL" "GOOGLE_ADS_API"
      "handle_exception" mapping_exception (PDict [("customer_id", PStr "123")])
      PNone None empty_state
    = (Ok tt,
       mk_state [r] 1
         [("generated_user_id", PStr "user_1714557600");
          ("session_id", PStr "session_1714557600")] [])
    /\ error_code r = Some "INVALID_CUSTOMER_ID"
    /\ error_type r = Some "GoogleAdsException"
    /\ error_message r
       = Some ("Google Ads API Error: "
               ++ json_text
                    (JArr [JObj [("error_code", JStr "INVALID_CUSTOMER_ID");
                                 ("message", JStr "Invalid customer ID.");
                                 ("location", JNull)];
                           JObj [("error_code", JStr "UNKNOWN");
                                 ("message", JStr "<GoogleAdsError>");
                                 ("location", JNull)]])).
Proof.
  eexists. split; [vm_compute; reflexivity |]. repeat split.
Qed.

(** C6 fails on the exceptions the vendor library raises: the sub-error's
    [error_code] is a message of the library, not a mapping, so reading its
    name raises [AttributeError] out of [log_error]; no code, message or
    location is extracted and nothing is recorded. *)
Lemma log_error_raises_on_vendor_exception :
  log_error sample_world (Some vendor_exception) "API_CALL" "GOOGLE_ADS_API"
    "handle_exception" vendor_exception (PDict [("customer_id", PStr "123")])
    PNone None empty_state
  = (Raise (py_exception "AttributeError"
              "'ErrorCode' object has no attribute 'get'"),
     empty_state).
Proof.
  vm_compute. reflexivity.
Qed.

(** * Further properties *)

(** ** The identity resolver *)

(** X1: the session id is generated once.  Asking again, at any later
    moment, returns the same id and changes nothing. *)
Theorem session_id_is_generated_once :
  forall (w w' : world) (st : state),
    get_session_id w' (snd (get_session_id w st)) = get_session_id w st.
Proof.
  intros w w' st. unfold get_session_id.
  destruct (assoc "session_id" (session st)) as [s |] eqn:E; simpl.
  - rewrite E. reflexivity.
  - rewrite assoc_dict_set_same. reflexivity.
Qed.

Lemma get_user_id_keeps (k : string) (w : world) (st : state) :
  k <> "generated_user_id" ->
  assoc k (session (snd (get_user_id w st))) = assoc k (session st).
Proof.
  intros Hk. unfold get_user_id.
  destruct (assoc "user_id" (session st)); [reflexivity |].
  destruct (assoc "generated_user_id" (session st));
    destruct (env_user_id w) as [u |]; try destruct (negb (u =? "")%string);
    simpl; try reflexivity; apply assoc_dict_set_other; exact Hk.
Qed.

(** X2: how the user is resolved.  An id set with the [Update User ID]
    button is the user from then on, whatever the environment and whatever
    was generated before; without it a non-empty [GOOGLE_ADS_USER_ID] is the
    user and nothing is cached; without either the id generated at the first
    call is kept in the session, and later calls return it whatever the clock
    shows. *)
Theorem user_id_resolution :
  forall (w : world) (st : state),
    (forall new,
        get_user_id w (update_user_id new st)
        = (PStr new, update_user_id new st))
    /\ (forall u,
          assoc "user_id" (session st) = None ->
          env_user_id w = Some u -> u <> ""%string ->
          get_user_id w st = (PStr u, st))
    /\ (forall w',
          assoc "user_id" (session st) = None ->
          env_unset w -> env_unset w' ->
          get_user_id w' (snd (get_user_id w st)) = get_user_id w st).
Proof.
  intros w st. split; [| split].
  - intros new. unfold get_user_id, update_user_id, set_session. simpl.
    rewrite assoc_dict_set_same. reflexivity.
  - intros u Hnone Henv Hu. unfold get_user_id. rewrite Hnone, Henv.
    destruct (String.eqb_spec u ""); [contradiction | reflexivity].
  - intros w' Hnone Hw Hw'.
    assert (Hgen : forall w0, env_unset w0 -> forall st0,
               assoc "user_id" (session st0) = None ->
               get_user_id w0 st0
               = match assoc "generated_user_id" (session st0) with
                 | Some g => (g, st0)
                 | None =>
                     (PStr ("user_" ++ str_of_Z (epoch_seconds w0)),
                      set_session st0 "generated_user_id"
                        (PStr ("user_" ++ str_of_Z (epoch_seconds w0))))
                 end).
    { intros w0 [H0 | H0] st0 Hn; unfold get_user_id; rewrite Hn, H0;
        reflexivity. }
    rewrite (Hgen w' Hw').
    + rewrite (Hgen w Hw st Hnone).
      destruct (assoc "generated_user_id" (session st)) as [g |] eqn:Eg; simpl.
      * rewrite Eg. reflexivity.
      * rewrite assoc_dict_set_same. reflexivity.
    + rewrite get_user_id_keeps by discriminate. exact Hnone.
Qed.

(** ** The ids of the table *)

Lemma strongly_sorted_snoc {A : Type} (R : A -> A -> Prop) (l : list A)
  (x : A) :
  StronglySorted R l -> Forall (fun y => R y x) l ->
  StronglySorted R (l ++ [x]).
Proof.
  induction 1 as [| y t Ht IH Hy]; simpl; intros Hall.
  - constructor; constructor.
  - inversion Hall as [| ? ? Hyx Htx]; subst.
    constructor; [apply IH; exact Htx |].
    apply Forall_app. split; [exact Hy | constructor; [exact Hyx | constructor]].
Qed.

Lemma log_operation_well_numbered (w : world) (a : log_args) (st : state) :
  well_numbered st -> well_numbered (snd (log_operation w a st)).
Proof.
  intros [Hsorted Hbound]. unfold well_numbered.
  destruct (log_operation_cases w a st)
    as [[Hdb Hseq] | [r [Hdb [Hseq [Hid _]]]]].
  - rewrite Hdb, Hseq. auto.
  - rewrite Hdb, Hseq. split.
    + apply strongly_sorted_snoc; [exact Hsorted |].
      eapply Forall_impl; [| exact Hbound]. intros x Hx. simpl in Hx. lia.
    + apply Forall_app. split.
      * eapply Forall_impl; [| exact Hbound]. intros x Hx. simpl in Hx. lia.
      * constructor; [lia | constructor].
Qed.

(** X3: [log_operation] only ever appends.  It leaves the stored rows as
    they are and adds none or one; on a table whose ids increase and do not
    exceed the counter, the row it adds gets the counter plus one, an id
    larger than every stored one, and the table stays so numbered. *)
Theorem log_operation_appends_under_next_id :
  forall (w : world) (a : log_args) (st : state),
    well_numbered st ->
    well_numbered (snd (log_operation w a st))
    /\ (db (snd (log_operation w a st)) = db st
        \/ exists r,
             db (snd (log_operation w a st)) = (db st ++ [r])%list
             /\ id r = sqlite_sequence st + 1
             /\ Forall (fun old : row => id old < id r) (db st)).
Proof.
  intros w a st Hwn. split; [apply log_operation_well_numbered; exact Hwn |].
  destruct (log_operation_cases w a st)
    as [[Hdb _] | [r [Hdb [_ [Hid _]]]]]; [left; exact Hdb |].
  right. exists r. split; [exact Hdb |]. split; [exact Hid |].
  destruct Hwn as [_ Hbound].
  eapply Forall_impl; [| exact Hbound]. intros x Hx. simpl in Hx. lia.
Qed.

Lemma log_operation_appends_under_next_id_witness :
  exists r,
    db (snd (log_operation sample_world
               (created "Autumn" "customers/1/campaigns/9") two_inserts))
    = (db two_inserts ++ [r])%list
    /\ id r = 3.
Proof.
  assert (Hwn : well_numbered two_inserts).
  { apply log_operation_well_numbered. apply log_operation_well_numbered.
    split; constructor. }
  destruct (log_operation_appends_under_next_id sample_world
              (created "Autumn" "customers/1/campaigns/9") two_inserts Hwn)
    as [_ [Hsame | [r [Hr [Hid _]]]]].
  - vm_compute in Hsame. discriminate.
  - exists r. split; [exact Hr | exact Hid].
Defined.

Lemma log_operation_consecutive (w : world) (a : log_args) (st : state) :
  consecutively_numbered st ->
  consecutively_numbered (snd (log_operation w a st)).
Proof.
  intros [Hids Hseq]. unfold consecutively_numbered.
  destruct (log_operation_cases w a st)
    as [[Hdb Hs] | [r [Hdb [Hs [Hid _]]]]].
  - rewrite Hdb, Hs. auto.
  - rewrite Hdb, Hs, List.length_app, List.map_app. simpl.
    rewrite Nat.add_1_r, List.seq_S, List.map_app, <- Hids. simpl.
    rewrite Hid, Hseq. split; [f_equal; f_equal; lia | lia].
Qed.

(** X4: ids are consecutive.  After any run of [log_operation] calls on a
    fresh store, with whatever arguments and at whatever moments, the stored
    ids are 1, 2, ..., n in insertion order, n being the number of rows
    stored: a call that stores nothing uses up no id. *)
Theorem ids_are_consecutive_from_one :
  forall (calls : list (world * log_args)),
    List.map id (db (log_all calls empty_state))
    = List.map Z.of_nat
        (List.seq 1 (List.length (db (log_all calls empty_state))))
    /\ sqlite_sequence (log_all calls empty_state)
       = Z.of_nat (List.length (db (log_all calls empty_state))).
Proof.
  intros calls.
  assert (H : forall st, consecutively_numbered st ->
                         consecutively_numbered (log_all calls st)).
  { unfold log_all. induction calls as [| c t IH]; simpl; intros st Hst;
      [exact Hst |].
    apply IH. apply log_operation_consecutive. exact Hst. }
  apply (H empty_state). split; reflexivity.
Qed.

(** ** The session of the rows *)

Lemma log_operation_try_session (w : world) (a : log_args)
  (st st' stx : state) :
  log_operation_try w a st = (Ok st', stx) ->
  exists r v,
    db st' = (db st ++ [r])%list
    /\ fst (get_session_id w (snd (get_user_id w st))) = v
    /\ bind_text 15 v = Ok (session_id r)
    /\ session st' = session (snd (get_session_id w (snd (get_user_id w st)))).
Proof.
  unfold log_operation_try.
  destruct (get_user_id_store w st) as [Hdb1 _].
  destruct (get_user_id w st) as [uid st1]; simpl in *.
  destruct (dumps_if_truthy (a_parameters a)) as [params | e]; [| discriminate].
  destruct (dumps_if_truthy (a_result_data a)) as [rdata | e]; [| discriminate].
  destruct (get_session_id_store w st1) as [Hdb2 _].
  destruct (get_session_id w st1) as [sid st2]; simpl in *.
  intros H. injection H as H _.
  bind_inv H. injection H as <-.
  repeat (bind_inv Hstep).
  injection Hstep as <-.
  repeat match goal with
         | Hn : not_null _ ?x = Ok _ |- _ =>
             destruct x; simpl in Hn; [injection Hn as <- | discriminate]
         end.
  eexists; exists sid; simpl.
  rewrite Hdb2, Hdb1.
  split; [reflexivity |]. split; [reflexivity |]. split; [assumption |].
  reflexivity.
Qed.

Lemma log_operation_added_try (w : world) (a : log_args) (st : state)
  (r : row) :
  db (snd (log_operation w a st)) = (db st ++ [r])%list ->
  exists stx,
    log_operation_try w a st = (Ok (snd (log_operation w a st)), stx).
Proof.
  unfold log_operation.
  destruct (log_operation_try w a st) as [[st' | e] stx] eqn:Htry; simpl.
  - intros _. exists stx. reflexivity.
  - intros Hr. apply log_operation_try_raise in Htry.
    destruct Htry as [Hdb _]. rewrite Hdb in Hr.
    exfalso. exact (not_appended _ _ Hr).
Qed.

Lemma get_session_id_value (w : world) (st : state) :
  assoc "session_id" (session (snd (get_session_id w st)))
  = Some (fst (get_session_id w st)).
Proof.
  unfold get_session_id.
  destruct (assoc "session_id" (session st)) as [s |] eqn:E; simpl;
    [exact E | apply assoc_dict_set_same].
Qed.

(** X5: the rows of a session share its session id.  Two rows written one
    after the other carry the same [session_id], whatever the arguments and
    however much time passed between the calls. *)
Theorem rows_of_a_session_share_the_session_id :
  forall (w1 w2 : world) (a1 a2 : log_args) (st : state) (r1 r2 : row),
    db (snd (log_operation w1 a1 st)) = (db st ++ [r1])%list ->
    db (snd (log_operation w2 a2 (snd (log_operation w1 a1 st))))
    = (db (snd (log_operation w1 a1 st)) ++ [r2])%list ->
    session_id r1 = session_id r2.
Proof.
  intros w1 w2 a1 a2 st r1 r2 H1 H2.
  destruct (log_operation_added_try _ _ _ _ H1) as [stx1 Htry1].
  destruct (log_operation_added_try _ _ _ _ H2) as [stx2 Htry2].
  destruct (log_operation_try_session _ _ _ _ _ Htry1)
    as [r1' [v1 [Hr1 [Hv1 [Hb1 Hs1]]]]].
  destruct (log_operation_try_session _ _ _ _ _ Htry2)
    as [r2' [v2 [Hr2 [Hv2 [Hb2 _]]]]].
  rewrite H1 in Hr1. apply List.app_inv_head in Hr1. injection Hr1 as <-.
  rewrite H2 in Hr2. apply List.app_inv_head in Hr2. injection Hr2 as <-.
  assert (Hsame : v2 = v1).
  { rewrite <- Hv2, <- Hv1. unfold get_session_id at 1.
    rewrite get_user_id_keeps by discriminate.
    rewrite Hs1, get_session_id_value. reflexivity. }
  rewrite Hsame in Hb2. congruence.
Qed.

Lemma rows_of_a_session_share_the_session_id_witness :
  List.map session_id (db two_inserts)
  = [Some "session_1714557600"%string; Some "session_1714557600"%string].
Proof.
  assert (H : exists r1 r2,
             db (snd (log_operation sample_world
                        (created "Spring" "customers/1/campaigns/7")
                        empty_state))
             = (db empty_state ++ [r1])%list
             /\ db two_inserts
                = (db (snd (log_operation sample_world
                              (created "Spring" "customers/1/campaigns/7")
                              empty_state)) ++ [r2])%list
             /\ session_id r1 = Some "session_1714557600"%string
             /\ db two_inserts = [r1; r2]).
  { vm_compute. do 2 eexists. repeat split. }
  destruct H as [r1 [r2 [H1 [H2 [Hs Hdb]]]]].
  pose proof (rows_of_a_session_share_the_session_id sample_world sample_world
                (created "Spring" "customers/1/campaigns/7")
                (created "Summer" "customers/1/campaigns/8") empty_state r1 r2
                H1 H2) as Hshare.
  rewrite Hdb. simpl. rewrite <- Hshare, Hs. reflexivity.
Defined.

(** ** The dashboard's buttons and the store *)

(** X6: after [Disconnect] nothing is logged.  The button stores [None] as
    the customer id, the column is [NOT NULL], and [log_operation] swallows
    the failure: whatever the arguments, no row is written and no id is used
    until a customer id is set again. *)
Theorem nothing_is_logged_after_disconnect :
  forall (w : world) (a : log_args) (st : state),
    db (snd (log_operation w a (disconnect st))) = db st
    /\ sqlite_sequence (snd (log_operation w a (disconnect st)))
       = sqlite_sequence st
    /\ fst (log_operation w a (disconnect st)) = Ok tt.
Proof.
  intros w a st.
  assert (Hcust : get_customer_id (snd (get_user_id w (disconnect st)))
                  = PNone).
  { unfold get_customer_id. rewrite get_user_id_keeps by discriminate.
    unfold disconnect, set_session; simpl.
    rewrite assoc_dict_set_same. reflexivity. }
  split; [| split; [| apply log_operation_returns]].
  - destruct (log_operation_cases w a (disconnect st))
      as [[Hdb _] | [r [Hr _]]]; [exact Hdb |].
    destruct (log_operation_added_try _ _ _ _ Hr) as [stx Htry].
    apply log_operation_try_ok in Htry.
    destruct Htry as [r' [_ [_ [_ [_ [_ [_ [Hc _]]]]]]]].
    rewrite Hcust in Hc. discriminate.
  - destruct (log_operation_cases w a (disconnect st))
      as [[_ Hseq] | [r [Hr _]]]; [exact Hseq |].
    destruct (log_operation_added_try _ _ _ _ Hr) as [stx Htry].
    apply log_operation_try_ok in Htry.
    destruct Htry as [r' [_ [_ [_ [_ [_ [_ [Hc _]]]]]]]].
    rewrite Hcust in Hc. discriminate.
Qed.

(** X7: clearing takes two presses and does not reset the ids.  A press on
    a session that is not armed deletes nothing; the next press deletes every
    row; and the first row logged after that gets the id after the last one
    ever used, which on a well-numbered table is larger than the id of every
    deleted row. *)
Theorem clearing_takes_two_presses_and_keeps_the_counter :
  forall (st : state),
    armed st = false ->
    db (clear_logs_click st) = db st
    /\ db (clear_logs_click (clear_logs_click st)) = []
    /\ armed (clear_logs_click (clear_logs_click st)) = false
    /\ forall (w : world) (a : log_args) (r : row),
         db (snd (log_operation w a (clear_logs_click (clear_logs_click st))))
         = [r] ->
         id r = sqlite_sequence st + 1
         /\ (well_numbered st -> Forall (fun old : row => id old < id r) (db st)).
Proof.
  intros st Harmed.
  assert (H1 : clear_logs_click st
               = set_session st "confirm_clear_logs" (PBool true)).
  { unfold clear_logs_click. unfold armed in Harmed. rewrite Harmed.
    reflexivity. }
  assert (H2 : clear_logs_click (clear_logs_click st)
               = mk_state [] (sqlite_sequence st)
                   (dict_set (session (clear_logs_click st))
                      "confirm_clear_logs" (PBool false))
                   (stdout st)).
  { rewrite H1. unfold clear_logs_click, set_session; simpl.
    rewrite assoc_dict_set_same. reflexivity. }
  split; [rewrite H1; reflexivity |].
  split; [rewrite H2; reflexivity |].
  split; [rewrite H2; unfold armed; simpl; rewrite assoc_dict_set_same;
          reflexivity |].
  intros w a r Hr.
  destruct (log_operation_cases w a (clear_logs_click (clear_logs_click st)))
    as [[Hdb _] | [r' [Hr' [_ [Hid _]]]]].
  - rewrite Hdb, H2 in Hr. discriminate.
  - rewrite Hr' in Hr. rewrite H2 in Hr. simpl in Hr. injection Hr as ->.
    rewrite H2 in Hid. simpl in Hid.
    split; [exact Hid |].
    intros [_ Hbound]. eapply Forall_impl; [| exact Hbound].
    intros x Hx. simpl in Hx. lia.
Qed.

Lemma clearing_takes_two_presses_and_keeps_the_counter_witness :
  db (clear_logs_click two_inserts) = db two_inserts
  /\ db (clear_logs_click (clear_logs_click two_inserts)) = []
  /\ List.map id
       (db (snd (log_operation sample_world
                   (created "Autumn" "customers/1/campaigns/9")
                   (clear_logs_click (clear_logs_click two_inserts)))))
     = [3].
Proof.
  destruct (clearing_takes_two_presses_and_keeps_the_counter two_inserts
              eq_refl) as [H1 [H2 _]].
  split; [exact H1 |]. split; [exact H2 |].
  vm_compute. reflexivity.
Defined.

(** ** Queries: what [get_audit_logs] returns *)

Lemma column_equals_given (x : option string) (c v : string) :
  column_equals x c = true -> given x = Some v -> c = v.
Proof.
  unfold column_equals. intros H E. rewrite E in H.
  apply String.eqb_eq. exact H.
Qed.

Lemma sql_limit_length {A : Type} (n : Z) (l : list A) :
  0 <= n -> Z.of_nat (List.length (sql_limit n l)) <= n.
Proof.
  intros Hn. unfold sql_limit.
  destruct (n <? 0) eqn:E; [apply Z.ltb_lt in E; lia |].
  pose proof (List.firstn_le_length (Z.to_nat n) l). lia.
Qed.

Lemma sql_limit_incl {A : Type} (n : Z) (l : list A) (x : A) :
  In x (sql_limit n l) -> In x l.
Proof.
  unfold sql_limit. destruct (n <? 0); [auto |].
  intros H. rewrite <- (List.firstn_skipn (Z.to_nat n) l).
  apply List.in_or_app. auto.
Qed.

(** X8: a query returns only what was asked for.  With a limit that is not
    negative it returns at most that many entries, and every entry it returns
    is a stored row, parsed, that has the user, the customer, the operation
    type and the resource type asked for.  Its timestamp is not before a
    start bound, as texts, unless the bound reads as a number, which
    excludes nothing; and it is not after an end bound, as texts, the bound
    then being one that does not read as a number: with an end bound that
    reads as a number nothing is returned. *)
Theorem get_audit_logs_returns_only_selected_rows :
  forall (st : state) (limit : Z) (f : filters) (entries : list log_entry),
    text_timestamps st ->
    get_audit_logs st limit f entries ->
    (0 <= limit -> Z.of_nat (List.length entries) <= limit)
    /\ forall e,
         In e entries ->
         (exists r, In r (db st) /\ e = parse_row r)
         /\ (forall u, given (f_user_id f) = Some u -> user_id e = u)
         /\ (forall c, given (f_customer_id f) = Some c -> customer_id e = c)
         /\ (forall o, given (f_operation_type f) = Some o ->
                       operation_type e = o)
         /\ (forall t, given (f_resource_type f) = Some t ->
                       resource_type e = t)
         /\ (forall d, given (f_start_date f) = Some d ->
                       numeric_text d = false ->
                       String.leb d (timestamp e) = true)
         /\ (forall d, given (f_end_date f) = Some d ->
                       numeric_text d = false
                       /\ String.leb (timestamp e) d = true).
Proof.
  intros st limit f entries _ Hq.
  destruct (get_audit_logs_inv _ _ _ _ Hq)
    as [_ [rows [[sorted [Hperm [_ ->]]] ->]]].
  split.
  - intros Hn. rewrite List.length_map. apply sql_limit_length. exact Hn.
  - intros e He. apply List.in_map_iff in He. destruct He as [r [<- Hr]].
    apply sql_limit_incl in Hr.
    apply (Permutation_in _ Hperm) in Hr.
    apply List.filter_In in Hr. destruct Hr as [Hin Hsel].
    unfold where_clause in Hsel.
    repeat (apply andb_true_iff in Hsel; destruct Hsel as [Hsel ?]).
    split; [exists r; auto |]. simpl.
    split; [intros u E; eapply column_equals_given; eassumption |].
    split; [intros u E; eapply column_equals_given; eassumption |].
    split; [intros u E; eapply column_equals_given; eassumption |].
    split; [intros u E; eapply column_equals_given; eassumption |].
    split.
    + intros d E Hd.
      match goal with
      | H : match given (f_start_date f) with
            | Some _ => _ | None => _ end = true |- _ =>
          rewrite E in H; unfold at_or_after in H; rewrite Hd in H; exact H
      end.
    + intros d E.
      match goal with
      | H : match given (f_end_date f) with
            | Some _ => _ | None => _ end = true |- _ =>
          rewrite E in H; unfold at_or_before in H;
          destruct (numeric_text d); [discriminate H | auto]
      end.
Qed.

Lemma two_inserts_text_timestamps : text_timestamps two_inserts.
Proof.
  unfold text_timestamps. vm_compute. repeat constructor.
Qed.

Lemma get_audit_logs_returns_only_selected_rows_witness :
  let f :=
    mk_filters None None (Some "CREATE"%string) None
      (Some "2024-05-01"%string) None in
  get_audit_logs_run two_inserts 1 f
  = Ok (run_get_audit_logs (sqlite_order f) two_inserts 1 f)
  /\ List.length (run_get_audit_logs (sqlite_order f) two_inserts 1 f) = 1%nat
  /\ forall e,
       In e (run_get_audit_logs (sqlite_order f) two_inserts 1 f) ->
       operation_type e = "CREATE"%string
       /\ String.leb "2024-05-01" (timestamp e) = true.
Proof.
  intros f.
  split; [reflexivity |].
  split; [vm_compute; reflexivity |].
  destruct (get_audit_logs_returns_only_selected_rows two_inserts 1 f
              (run_get_audit_logs (sqlite_order f) two_inserts 1 f)
              two_inserts_text_timestamps
              (run_get_audit_logs_allowed (sqlite_order f)
                 (sqlite_order_respects f) two_inserts 1 f eq_refl))
    as [_ Hall].
  intros e He.
  destruct (Hall e He) as [_ [_ [_ [Hop [_ [Hstart _]]]]]].
  split; [apply Hop; reflexivity | apply Hstart; reflexivity].
Defined.

Lemma ascii_compare_refl (c : ascii) : Ascii.compare c c = Eq.
Proof.
  unfold Ascii.compare. apply N.compare_refl.
Qed.

(** A text that properly extends [d] sorts after [d], and [d] not after
    it. *)
Lemma extension_sorts_after (d rest : string) :
  rest <> ""%string ->
  String.leb (d ++ rest) d = false /\ String.leb d (d ++ rest) = true.
Proof.
  intros Hrest. unfold String.leb.
  induction d as [| c d' IH]; simpl.
  - destruct rest; [contradiction | auto].
  - rewrite ascii_compare_refl. exact IH.
Qed.

(** X9: a bare date as a bound.  A bound that is a bare date (as the
    dashboard passes it; it does not read as a number) is a proper prefix of
    every timestamp of that day and is compared with it as text, so an
    [end_date] leaves out every entry of its own day, while a [start_date]
    includes the entries of its day. *)
Theorem bare_date_end_bound_leaves_out_its_own_day :
  forall (st : state) (limit : Z) (f : filters) (entries : list log_entry)
         (d rest : string),
    text_timestamps st ->
    get_audit_logs st limit f entries ->
    numeric_text d = false ->
    rest <> ""%string ->
    (given (f_end_date f) = Some d ->
     forall e, In e entries -> timestamp e <> (d ++ rest)%string)
    /\ (forall r,
          f = mk_filters None None None None (Some d) None ->
          d <> ""%string ->
          In r (db st) -> timestamp r = (d ++ rest)%string ->
          limit < 0 \/ Z.of_nat (List.length (db st)) <= limit ->
          In (parse_row r) entries).
Proof.
  intros st limit f entries d rest _ Hq Hd Hrest.
  destruct (extension_sorts_after d rest Hrest) as [Hafter Hbefore].
  split.
  - intros Hend e He.
    destruct (get_audit_logs_inv _ _ _ _ Hq)
      as [_ [rows [[sorted [Hperm [_ ->]]] ->]]].
    apply List.in_map_iff in He. destruct He as [r [<- Hr]].
    apply sql_limit_incl in Hr. apply (Permutation_in _ Hperm) in Hr.
    apply List.filter_In in Hr. destruct Hr as [_ Hsel].
    unfold where_clause in Hsel. apply andb_true_iff in Hsel.
    destruct Hsel as [_ Hsel]. rewrite Hend in Hsel.
    unfold at_or_before in Hsel. rewrite Hd in Hsel.
    simpl. intros Hts. rewrite Hts, Hafter in Hsel. discriminate.
  - intros r -> Hne Hin Hts Hlimit.
    eapply get_audit_logs_returns_row; try eassumption.
    unfold where_clause, column_equals, at_or_after; simpl.
    destruct (String.eqb_spec d ""); [contradiction |].
    rewrite Hd, Hts, Hbefore. reflexivity.
Qed.

Lemma bare_date_end_bound_leaves_out_its_own_day_witness :
  get_audit_logs_run two_inserts 100
    (mk_filters None None None None None (Some "2024-05-01"%string))
  = Ok []
  /\ forall r,
       In r (db two_inserts) ->
       In (parse_row r)
         (run_get_audit_logs index_scan_order two_inserts 100
            (mk_filters None None None None (Some "2024-05-01"%string) None)).
Proof.
  split; [vm_compute; reflexivity |].
  intros r Hr.
  destruct (bare_date_end_bound_leaves_out_its_own_day two_inserts 100
              (mk_filters None None None None (Some "2024-05-01"%string) None)
              _ "2024-05-01" " 10:00:00" two_inserts_text_timestamps
              (run_get_audit_logs_allowed index_scan_order index_scan_respects
                 two_inserts 100 _ eq_refl)
              eq_refl ltac:(discriminate)) as [_ Hstart].
  apply Hstart; [reflexivity | discriminate | exact Hr | |].
  - vm_compute in Hr. destruct Hr as [<- | [<- | []]]; reflexivity.
  - right. vm_compute. discriminate.
Defined.

Lemma ltb_leb_contradict (a b : string) :
  String.ltb a b = true -> String.leb b a = true -> False.
Proof.
  unfold String.ltb, String.leb. rewrite (String.compare_antisym a b).
  destruct (String.compare b a); simpl; discriminate.
Qed.

(** A list sorted newest first that rearranges a list strictly sorted newest
    first is that list. *)
Lemma newest_first_arrangement_is_unique (l1 l2 : list row) :
  ordered_by_timestamp_desc l1 ->
  StronglySorted (fun a b => strictly_later b a) l2 ->
  Permutation l1 l2 -> l1 = l2.
Proof.
  unfold ordered_by_timestamp_desc.
  revert l2. induction l1 as [| x t1 IH]; intros l2 H1 H2 Hperm.
  - apply Permutation_nil in Hperm. congruence.
  - destruct l2 as [| y t2];
      [apply Permutation_sym, Permutation_nil in Hperm; discriminate |].
    inversion H1 as [| ? ? Ht1 Hx]; subst.
    inversion H2 as [| ? ? Ht2 Hy]; subst.
    assert (Hxy : x = y).
    { assert (Hin : In x (y :: t2))
        by (eapply Permutation_in; [exact Hperm | left; reflexivity]).
      destruct Hin as [-> | Hin]; [reflexivity |].
      assert (Hin' : In y (x :: t1))
        by (eapply Permutation_in;
            [apply Permutation_sym; exact Hperm | left; reflexivity]).
      destruct Hin' as [-> | Hin']; [reflexivity |].
      exfalso.
      rewrite Forall_forall in Hx, Hy.
      exact (ltb_leb_contradict _ _ (Hy x Hin) (Hx y Hin')). }
    subst y. f_equal. apply IH; try assumption.
    eapply Permutation_cons_inv. exact Hperm.
Qed.

Lemma strongly_sorted_rev {A : Type} (R : A -> A -> Prop) (l : list A) :
  StronglySorted R l -> StronglySorted (fun a b => R b a) (List.rev l).
Proof.
  induction 1 as [| x t Ht IH Hx]; simpl; [constructor |].
  apply strongly_sorted_snoc; [exact IH |].
  apply Forall_rev. exact Hx.
Qed.

(** X10: with distinct moments the most recent entry comes first.  When the
    timestamps of the stored rows strictly increase with insertion, a query
    whose limit does not cut the selection short has exactly one possible
    result: the rows its conditions select, in reverse insertion order. *)
Theorem strictly_increasing_timestamps_fix_the_order :
  forall (st : state) (limit : Z) (f : filters) (entries : list log_entry),
    text_timestamps st ->
    StronglySorted strictly_later (db st) ->
    limit < 0 \/ Z.of_nat (List.length (db st)) <= limit ->
    get_audit_logs st limit f entries ->
    entries
    = List.rev (List.map parse_row (List.filter (where_clause f) (db st))).
Proof.
  intros st limit f entries _ Hinc Hlimit Hq.
  destruct (get_audit_logs_inv _ _ _ _ Hq)
    as [_ [rows [[sorted [Hperm [Hs ->]]] ->]]].
  rewrite sql_limit_all.
  - rewrite <- List.map_rev. f_equal.
    apply newest_first_arrangement_is_unique; [exact Hs | |].
    + apply strongly_sorted_rev. apply strongly_sorted_filter. exact Hinc.
    + eapply perm_trans; [exact Hperm | apply Permutation_rev].
  - destruct Hlimit as [Hneg | Hle]; [left; exact Hneg |].
    right. rewrite (Permutation_length Hperm).
    pose proof (List.filter_length_le (where_clause f) (db st)). lia.
Qed.

Lemma strictly_increasing_timestamps_fix_the_order_witness :
  List.map id
    (run_get_audit_logs table_scan_order a_second_apart 100
       (only_user "user_1714557600"))
  = [2; 1].
Proof.
  assert (Hinc : StronglySorted strictly_later (db a_second_apart)).
  { assert (H : exists a b, db a_second_apart = [a; b]
                            /\ strictly_later a b).
    { vm_compute. do 2 eexists. split; reflexivity. }
    destruct H as [a [b [-> Hab]]].
    repeat constructor. exact Hab. }
  assert (Htext : text_timestamps a_second_apart).
  { unfold text_timestamps. vm_compute. repeat constructor. }
  rewrite (strictly_increasing_timestamps_fix_the_order a_second_apart 100
             (only_user "user_1714557600") _ Htext Hinc
             ltac:(right; vm_compute; discriminate)
             (run_get_audit_logs_allowed table_scan_order table_scan_respects
                a_second_apart 100 (only_user "user_1714557600") eq_refl)).
  vm_compute. reflexivity.
Defined.

(** ** Statistics: [get_operation_stats] *)

Lemma total_count_bump (k : string) (g : list (string * Z)) :
  total_count (bump k g) = total_count g + 1.
Proof.
  induction g as [| [k' n] t IH]; simpl; [lia |].
  destruct (String.eqb k k'); simpl; lia.
Qed.

Lemma total_count_fold (values : list string) (acc : list (string * Z)) :
  total_count (List.fold_left (fun g k => bump k g) values acc)
  = total_count acc + Z.of_nat (List.length values).
Proof.
  revert acc. induction values as [| k t IH]; intros acc; simpl; [lia |].
  rewrite IH, total_count_bump. lia.
Qed.

Lemma total_count_tally (values : list string) :
  total_count (tally values) = Z.of_nat (List.length values).
Proof.
  unfold tally. rewrite total_count_fold. reflexivity.
Qed.

Lemma total_count_perm (l l' : list (string * Z)) :
  Permutation l l' -> total_count l = total_count l'.
Proof.
  induction 1; simpl; lia.
Qed.

Lemma assoc_bump_same (k : string) (g : list (string * Z)) :
  assoc k (bump k g) = Some (get_count k g + 1).
Proof.
  unfold get_count.
  induction g as [| [k' n] t IH]; simpl.
  - rewrite String.eqb_refl. reflexivity.
  - destruct (String.eqb k k') eqn:E; simpl; rewrite E; [reflexivity | exact IH].
Qed.

Lemma assoc_bump_other (k k' : string) (g : list (string * Z)) :
  k' <> k -> assoc k' (bump k g) = assoc k' g.
Proof.
  intros Hne.
  induction g as [| [k0 n] t IH]; simpl.
  - destruct (String.eqb_spec k' k); [contradiction | reflexivity].
  - destruct (String.eqb_spec k k0) as [-> | Hk]; simpl.
    + destruct (String.eqb_spec k' k0); [contradiction | reflexivity].
    + destruct (String.eqb k' k0); [reflexivity | exact IH].
Qed.

Lemma get_count_fold (k : string) (values : list string)
  (acc : list (string * Z)) :
  get_count k (List.fold_left (fun g v => bump v g) values acc)
  = get_count k acc + occurrences k values.
Proof.
  unfold occurrences.
  revert acc. induction values as [| v t IH]; intros acc; simpl; [lia |].
  rewrite IH.
  destruct (String.eqb_spec k v) as [<- | Hne]; simpl.
  - unfold get_count at 1. rewrite assoc_bump_same. lia.
  - unfold get_count. rewrite assoc_bump_other by exact Hne. lia.
Qed.

Lemma get_count_tally (k : string) (values : list string) :
  get_count k (tally values) = occurrences k values.
Proof.
  unfold tally. rewrite get_count_fold. reflexivity.
Qed.

Lemma keys_bump (k : string) (g : list (string * Z)) :
  List.map fst (bump k g)
  = if List.existsb (String.eqb k) (List.map fst g)
    then List.map fst g
    else (List.map fst g ++ [k])%list.
Proof.
  induction g as [| [k' n] t IH]; simpl; [reflexivity |].
  destruct (String.eqb k k') eqn:E; simpl; [reflexivity |].
  rewrite IH. destruct (List.existsb (String.eqb k) (List.map fst t));
    reflexivity.
Qed.

Lemma nodup_keys_bump (k : string) (g : list (string * Z)) :
  NoDup (List.map fst g) -> NoDup (List.map fst (bump k g)).
Proof.
  intros Hg. rewrite keys_bump.
  destruct (List.existsb (String.eqb k) (List.map fst g)) eqn:E; [exact Hg |].
  apply NoDup_app; [exact Hg | repeat constructor; intros [] |].
  intros x Hx [Hk | []]. subst x.
  assert (Hex : List.existsb (String.eqb k) (List.map fst g) = true).
  { apply List.existsb_exists. exists k. split; [exact Hx |].
    apply String.eqb_refl. }
  congruence.
Qed.

Lemma nodup_keys_tally (values : list string) :
  NoDup (List.map fst (tally values)).
Proof.
  unfold tally.
  assert (H : forall acc, NoDup (List.map fst acc) ->
              NoDup (List.map fst
                       (List.fold_left (fun g k => bump k g) values acc))).
  { induction values as [| k t IH]; intros acc Hacc; simpl; [exact Hacc |].
    apply IH. apply nodup_keys_bump. exact Hacc. }
  apply H. constructor.
Qed.

Lemma assoc_some_in {A : Type} (k : string) (v : A) (l : list (string * A)) :
  assoc k l = Some v -> In (k, v) l.
Proof.
  induction l as [| [k' v'] t IH]; simpl; [discriminate |].
  destruct (String.eqb_spec k k') as [-> | Hne]; intros H.
  - injection H as ->. auto.
  - auto.
Qed.

Lemma assoc_in_nodup {A : Type} (k : string) (v : A) (l : list (string * A)) :
  NoDup (List.map fst l) -> In (k, v) l -> assoc k l = Some v.
Proof.
  induction l as [| [k' v'] t IH]; simpl; [intros _ [] |].
  intros Hnd Hin. inversion Hnd as [| ? ? Hfresh Hnd']; subst.
  destruct Hin as [E | Hin].
  - injection E as -> ->. rewrite String.eqb_refl. reflexivity.
  - destruct (String.eqb_spec k k') as [-> | Hne]; [| auto].
    exfalso. apply Hfresh. apply (List.in_map fst) in Hin. exact Hin.
Qed.

Lemma assoc_perm {A : Type} (k : string) (l l' : list (string * A)) :
  NoDup (List.map fst l) -> Permutation l l' -> assoc k l = assoc k l'.
Proof.
  intros Hnd Hperm.
  assert (Hnd' : NoDup (List.map fst l'))
    by (eapply Permutation_NoDup; [apply Permutation_map; exact Hperm | exact Hnd]).
  destruct (assoc k l) as [v |] eqn:E.
  - symmetry. apply assoc_in_nodup; [exact Hnd' |].
    eapply Permutation_in; [exact Hperm |]. apply assoc_some_in. exact E.
  - destruct (assoc k l') as [v' |] eqn:E'; [| reflexivity].
    apply assoc_some_in in E'.
    apply (Permutation_in _ (Permutation_sym Hperm)) in E'.
    apply (assoc_in_nodup _ _ _ Hnd) in E'. congruence.
Qed.

(** Without a limit, a [GROUP BY] result holds for every value the number
    of rows that have it, and its counts add up to the number of rows. *)
Lemma group_count_exact (values : list string) (ordered : bool)
  (result : list (string * Z)) :
  sql_group_count values ordered None result ->
  (forall k, get_count k result = occurrences k values)
  /\ total_count result = Z.of_nat (List.length values).
Proof.
  intros [arranged [Hperm [_ ->]]]. simpl. split.
  - intros k. unfold get_count.
    rewrite <- (assoc_perm k _ _ (nodup_keys_tally values)
                  (Permutation_sym Hperm)).
    apply get_count_tally.
  - rewrite (total_count_perm _ _ Hperm). apply total_count_tally.
Qed.

Lemma occurrences_map (k : string) (column : row -> string)
  (table : list row) :
  occurrences k (List.map column table)
  = count_rows (fun r => String.eqb k (column r)) table.
Proof.
  unfold occurrences, count_rows. f_equal.
  induction table as [| r t IH]; simpl; [reflexivity |].
  destruct (String.eqb k (column r)); simpl; rewrite IH; reflexivity.
Qed.

Lemma present_length (column : row -> option string) (table : list row) :
  (List.length (present column table) <= List.length table)%nat.
Proof.
  unfold present.
  induction table as [| r t IH]; simpl; [lia |].
  destruct (column r); simpl; lia.
Qed.

Lemma count_rows_le (p q : row -> bool) (table : list row) :
  (forall r, p r = true -> q r = true) ->
  count_rows p table <= count_rows q table.
Proof.
  intros Hpq. unfold count_rows.
  induction table as [| r t IH]; simpl; [lia |].
  destruct (p r) eqn:Ep.
  - rewrite (Hpq r Ep). simpl. lia.
  - destruct (q r); simpl; lia.
Qed.

(** X11: the statistics add up.  In whatever statistics the statements
    return, the counts by operation type, by resource type and by status each
    add up to the total; the operations of the last day are at most the total
    and the errors of the last day at most the operations of the last day;
    and the errors counted by type are at most the ERROR count of the status
    breakdown. *)
Theorem statistics_add_up :
  forall (st : state) (day_ago : string) (s : operation_stats),
    get_operation_stats st day_ago s ->
    total_count (operations_by_type s) = total_operations s
    /\ total_count (operations_by_resource s) = total_operations s
    /\ total_count (status_breakdown s) = total_operations s
    /\ errors_last_24h s <= operations_last_24h s
    /\ operations_last_24h s <= total_operations s
    /\ total_count (errors_by_type s) <= get_count "ERROR" (status_breakdown s).
Proof.
  intros st day_ago s
    [Htotal [Htype [Hres [Hstatus [Hday [_ [Herr [_ Herrday]]]]]]]].
  destruct (group_count_exact _ _ _ Htype) as [_ Ht].
  destruct (group_count_exact _ _ _ Hres) as [_ Hr].
  destruct (group_count_exact _ _ _ Hstatus) as [Hs1 Hs2].
  destruct (group_count_exact _ _ _ Herr) as [_ He].
  assert (Hlen : total_operations s = Z.of_nat (List.length (db st))).
  { rewrite Htotal. unfold count_rows.
    rewrite filter_all by reflexivity. reflexivity. }
  rewrite List.length_map in Ht, Hr, Hs2.
  split; [rewrite Hlen; exact Ht |].
  split; [rewrite Hlen; exact Hr |].
  split; [rewrite Hlen; exact Hs2 |].
  split; [rewrite Herrday, Hday; apply count_rows_le; intros r H;
          apply andb_true_iff in H; tauto |].
  split; [rewrite Hday, Htotal; apply count_rows_le; reflexivity |].
  rewrite He, Hs1, occurrences_map.
  pose proof (present_length error_type (List.filter is_error (db st))) as Hp.
  assert (Hc : count_rows (fun r => String.eqb "ERROR" (result_status r)) (db st)
               = Z.of_nat (List.length (List.filter is_error (db st)))).
  { unfold count_rows. f_equal. f_equal. apply List.filter_ext.
    intros r. unfold is_error. apply String.eqb_sym. }
  lia.
Qed.

Lemma insert_group_perm (g : string * Z) (l : list (string * Z)) :
  Permutation (insert_group g l) (g :: l).
Proof.
  induction l as [| x t IH]; simpl; [apply Permutation_refl |].
  destruct (snd x <? snd g); [apply Permutation_refl |].
  eapply Permutation_trans; [apply perm_skip; exact IH | apply perm_swap].
Qed.

Lemma sort_groups_perm (l : list (string * Z)) :
  Permutation (sort_groups l) l.
Proof.
  induction l as [| x t IH]; simpl; [constructor |].
  eapply Permutation_trans; [apply insert_group_perm |].
  apply perm_skip. exact IH.
Qed.

Lemma insert_group_sorted (g : string * Z) (l : list (string * Z)) :
  StronglySorted by_count_desc l ->
  StronglySorted by_count_desc (insert_group g l).
Proof.
  induction l as [| x t IH]; simpl; intros Hs.
  - repeat constructor.
  - inversion Hs as [| ? ? Ht Hx]; subst.
    destruct (snd x <? snd g) eqn:E.
    + apply Z.ltb_lt in E. constructor; [exact Hs |].
      constructor; [unfold by_count_desc; lia |].
      eapply Forall_impl; [| exact Hx].
      unfold by_count_desc. intros y Hy. lia.
    + apply Z.ltb_ge in E. constructor; [apply IH; exact Ht |].
      apply Forall_forall. intros y Hy.
      apply (Permutation_in _ (insert_group_perm g t)) in Hy.
      destruct Hy as [<- | Hy]; [exact E |].
      rewrite Forall_forall in Hx. apply Hx. exact Hy.
Qed.

Lemma sort_groups_sorted (l : list (string * Z)) :
  StronglySorted by_count_desc (sort_groups l).
Proof.
  induction l as [| x t IH]; simpl; [constructor |].
  apply insert_group_sorted. exact IH.
Qed.

(** The executable run is one of the results the statement may return. *)
Lemma run_group_count_allowed (values : list string) (ordered : bool)
  (limit : option nat) :
  sql_group_count values ordered limit (run_group_count values limit).
Proof.
  exists (sort_groups (tally values)).
  split; [apply sort_groups_perm |].
  split; [intros _; apply sort_groups_sorted | reflexivity].
Qed.

Lemma run_get_operation_stats_allowed (st : state) (day_ago : string) :
  get_operation_stats st day_ago (run_get_operation_stats st day_ago).
Proof.
  unfold get_operation_stats, run_get_operation_stats. simpl.
  repeat (split; [first [reflexivity | apply run_group_count_allowed] |]).
  reflexivity.
Qed.

Lemma statistics_add_up_witness :
  let s := run_get_operation_stats mixed_log "2024-04-30 10:00:00" in
  total_count (operations_by_type s) = 3
  /\ total_count (status_breakdown s) = total_operations s
  /\ errors_last_24h s <= operations_last_24h s
  /\ total_count (errors_by_type s) <= get_count "ERROR" (status_breakdown s).
Proof.
  pose proof (statistics_add_up mixed_log "2024-04-30 10:00:00" _
                (run_get_operation_stats_allowed mixed_log "2024-04-30 10:00:00"))
    as [H1 [_ [H3 [H4 [_ H6]]]]].
  split; [rewrite H1; vm_compute; reflexivity |].
  split; [exact H3 |]. split; [exact H4 | exact H6].
Defined.

(** X12: the counts of the dashboard are exact.  Whatever order the engine
    returns the groups in, reading a breakdown with [get(k, 0)] gives the
    number of rows that have [k] in the grouped column, for every [k], also
    one that does not occur. *)
Theorem breakdown_counts_are_exact :
  forall (st : state) (day_ago : string) (s : operation_stats),
    get_operation_stats st day_ago s ->
    forall k : string,
      get_count k (operations_by_type s) = rows_with operation_type k st
      /\ get_count k (operations_by_resource s) = rows_with resource_type k st
      /\ get_count k (status_breakdown s) = rows_with result_status k st.
Proof.
  intros st day_ago s [_ [Htype [Hres [Hstatus _]]]] k.
  destruct (group_count_exact _ _ _ Htype) as [Ht _].
  destruct (group_count_exact _ _ _ Hres) as [Hr _].
  destruct (group_count_exact _ _ _ Hstatus) as [Hs _].
  unfold rows_with. rewrite Ht, Hr, Hs, !occurrences_map. auto.
Qed.

Lemma breakdown_counts_are_exact_witness :
  let s := run_get_operation_stats mixed_log "2024-04-30 10:00:00" in
  get_count "CREATE" (operations_by_type s) = 2
  /\ get_count "DELETE" (operations_by_type s) = 0
  /\ get_count "ERROR" (status_breakdown s) = 1.
Proof.
  intros s.
  pose proof (breakdown_counts_are_exact mixed_log "2024-04-30 10:00:00" _
                (run_get_operation_stats_allowed mixed_log "2024-04-30 10:00:00"))
    as H.
  destruct (H "CREATE") as [H1 _]. destruct (H "DELETE") as [H2 _].
  destruct (H "ERROR") as [_ [_ H3]].
  fold s in H1, H2, H3. rewrite H1, H2, H3. vm_compute. auto.
Defined.

Lemma successes_and_errors_cover (table : list row) :
  Forall (fun r : row => result_status r = "SUCCESS" \/ result_status r = "ERROR")
    table ->
  count_rows (fun r => String.eqb "SUCCESS" (result_status r)) table
  + count_rows (fun r => String.eqb "ERROR" (result_status r)) table
  = Z.of_nat (List.length table).
Proof.
  unfold count_rows. induction 1 as [| r t Hr _ IH]; [reflexivity |].
  cbn [List.filter List.length].
  destruct Hr as [E | E]; rewrite E.
  - change ("SUCCESS" =? "SUCCESS")%string with true.
    change ("ERROR" =? "SUCCESS")%string with false.
    cbn [List.length]. rewrite Nat2Z.inj_succ. lia.
  - change ("SUCCESS" =? "ERROR")%string with false.
    change ("ERROR" =? "ERROR")%string with true.
    cbn [List.length]. rewrite Nat2Z.inj_succ. lia.
Qed.

Lemma log_operation_status (w : world) (a : log_args) (st : state) :
  a_result_status a = "SUCCESS" \/ a_result_status a = "ERROR" ->
  success_or_error st -> success_or_error (snd (log_operation w a st)).
Proof.
  intros Ha Hst. unfold success_or_error in *.
  destruct (log_operation_cases w a st) as [[-> _] | [r [-> [_ [_ [_ [_ Hr]]]]]]];
    [exact Hst |].
  apply Forall_app. split; [exact Hst |].
  constructor; [| constructor].
  destruct Hr as [_ [_ [_ [-> _]]]]. exact Ha.
Qed.

(** X13: the wrapper writes only successes and errors, so the two figures of
    the dashboard account for every row.  If the table holds only SUCCESS and
    ERROR rows when the wrapped function is done, it still does after the
    wrapper's bookkeeping, on every path of the wrapper; and on such a table
    the Successful and Failed figures add up to the Total. *)
Theorem wrapper_rows_are_successes_or_errors :
  forall (ot rt fn : string) (func : operation) (w : world) (ms : Z)
    (args : list pyval) (kwargs : list (string * pyval)) (st : state),
    success_or_error (snd (func args kwargs st)) ->
    let st' := snd (audit_log ot rt fn func w ms args kwargs st) in
    success_or_error st'
    /\ forall (day_ago : string) (s : operation_stats),
         get_operation_stats st' day_ago s ->
         get_count "SUCCESS" (status_breakdown s)
         + get_count "ERROR" (status_breakdown s)
         = total_operations s.
Proof.
  intros ot rt fn func w ms args kwargs st Hfunc st'.
  assert (Hst' : success_or_error st').
  { subst st'. destruct (func args kwargs st) as [res st1] eqn:Hf.
    simpl in Hfunc.
    destruct (audit_log_paths ot rt fn func w ms args kwargs st res st1 Hf)
      as [[result [rid [count [_ ->]]]]
         | [[e [code [msg [_ ->]]]] | [e' ->]]]; simpl.
    - apply log_operation_status; [left; reflexivity | exact Hfunc].
    - apply log_operation_status; [right; reflexivity | exact Hfunc].
    - exact Hfunc. }
  split; [exact Hst' |].
  intros day_ago s [Htotal [_ [_ [Hstatus _]]]].
  destruct (group_count_exact _ _ _ Hstatus) as [Hs _].
  rewrite !Hs, !occurrences_map, Htotal.
  unfold count_rows at 3. rewrite filter_all by reflexivity.
  apply successes_and_errors_cover. exact Hst'.
Qed.

Lemma wrapper_rows_are_successes_or_errors_witness :
  let st' := snd (audit_log "UPDATE" "CAMPAIGN" "update_campaign" (raising boom)
                    sample_world 3 [PInt 1] [] two_inserts) in
  success_or_error st'
  /\ forall (day_ago : string) (s : operation_stats),
       get_operation_stats st' day_ago s ->
       get_count "SUCCESS" (status_breakdown s)
       + get_count "ERROR" (status_breakdown s)
       = total_operations s.
Proof.
  apply (wrapper_rows_are_successes_or_errors "UPDATE" "CAMPAIGN"
           "update_campaign" (raising boom) sample_world 3 [PInt 1] []
           two_inserts).
  unfold success_or_error. vm_compute. repeat constructor.
Defined.

Lemma strongly_sorted_app_cross {A : Type} (R : A -> A -> Prop)
  (l1 l2 : list A) :
  StronglySorted R (l1 ++ l2)%list ->
  forall a b, In a l1 -> In b l2 -> R a b.
Proof.
  induction l1 as [| x t IH]; simpl; intros Hs a b Ha Hb; [destruct Ha |].
  inversion Hs as [| ? ? Ht Hx]; subst.
  destruct Ha as [<- | Ha].
  - rewrite Forall_forall in Hx. apply Hx. apply List.in_or_app. auto.
  - apply IH; assumption.
Qed.

Lemma occurrences_pos (k : string) (values : list string) :
  In k values -> 0 < occurrences k values.
Proof.
  intros Hin. unfold occurrences.
  assert (H : In k (List.filter (String.eqb k) values)).
  { apply List.filter_In. split; [exact Hin | apply String.eqb_refl]. }
  destruct (List.filter (String.eqb k) values); [destruct H | simpl; lia].
Qed.

Lemma tally_in (k : string) (values : list string) :
  In k values -> In (k, occurrences k values) (tally values).
Proof.
  intros Hin. pose proof (occurrences_pos k values Hin) as Hpos.
  pose proof (get_count_tally k values) as Hc. unfold get_count in Hc.
  destruct (assoc k (tally values)) as [n |] eqn:E; [| lia].
  subst n. apply assoc_some_in. exact E.
Qed.

Lemma tally_count (k : string) (c : Z) (values : list string) :
  In (k, c) (tally values) -> c = occurrences k values /\ In k values.
Proof.
  intros Hin.
  pose proof (assoc_in_nodup k c _ (nodup_keys_tally values) Hin) as Ha.
  pose proof (get_count_tally k values) as Hc. unfold get_count in Hc.
  rewrite Ha in Hc. split; [exact Hc |].
  destruct (List.in_dec String.string_dec k values) as [Hk | Hk]; [exact Hk |].
  exfalso.
  assert (Hno : forall acc, ~ In k (List.map fst acc) ->
            ~ In k (List.map fst
                      (List.fold_left (fun g v => bump v g) values acc))).
  { clear -Hk. induction values as [| v t IH]; intros acc Hacc; [exact Hacc |].
    simpl. apply IH; [intros H; apply Hk; right; exact H |].
    rewrite keys_bump.
    destruct (List.existsb (String.eqb v) (List.map fst acc)); [exact Hacc |].
    intros H. apply List.in_app_or in H. destruct H as [H | [H | []]].
    - exact (Hacc H).
    - apply Hk. left. exact H. }
  apply (Hno [] (fun H => H)). apply (List.in_map fst) in Hin. exact Hin.
Qed.

(** What a [GROUP BY] ... [ORDER BY count DESC LIMIT n] returns: at most
    [n] groups, no value twice, each with its exact count, and no value left
    out has more rows than one that is listed. *)
Lemma top_groups (values : list string) (n : nat)
  (result : list (string * Z)) :
  sql_group_count values true (Some n) result ->
  (List.length result <= n)%nat
  /\ NoDup (List.map fst result)
  /\ (forall k c, In (k, c) result ->
        c = occurrences k values /\ In k values)
  /\ (forall k c k', In (k, c) result -> In k' values ->
        ~ In k' (List.map fst result) -> occurrences k' values <= c).
Proof.
  intros [arranged [Hperm [Hsorted ->]]]. simpl.
  specialize (Hsorted eq_refl).
  assert (Hsplit : arranged = (firstn n arranged ++ skipn n arranged)%list)
    by (symmetry; apply List.firstn_skipn).
  split; [apply List.firstn_le_length |].
  split.
  { assert (Hnd : NoDup (List.map fst arranged)).
    { eapply Permutation_NoDup;
        [apply Permutation_map; apply Permutation_sym; exact Hperm |].
      apply nodup_keys_tally. }
    rewrite Hsplit, List.map_app in Hnd.
    apply NoDup_app_remove_r in Hnd. exact Hnd. }
  split.
  { intros k c Hin. apply tally_count.
    eapply Permutation_in; [exact Hperm |].
    rewrite Hsplit. apply List.in_or_app. left. exact Hin. }
  intros k c k' Hin Hk' Hout.
  pose proof (tally_in k' values Hk') as Ht.
  apply (Permutation_in _ (Permutation_sym Hperm)) in Ht.
  rewrite Hsplit in Ht. apply List.in_app_or in Ht.
  destruct Ht as [Ht | Ht].
  - exfalso. apply Hout. apply (List.in_map fst) in Ht. exact Ht.
  - rewrite Hsplit in Hsorted.
    exact (strongly_sorted_app_cross _ _ _ Hsorted _ _ Hin Ht).
Qed.

(** X14: the most active users are the ten with the most rows.  The list has
    at most ten users, none twice; the count beside a user is the number of
    that user's rows (at least one); and a user whose rows are in the table
    but who is not listed has no more rows than any listed user. *)
Theorem most_active_users_are_the_top_ten :
  forall (st : state) (day_ago : string) (s : operation_stats),
    get_operation_stats st day_ago s ->
    (List.length (most_active_users s) <= 10)%nat
    /\ NoDup (List.map fst (most_active_users s))
    /\ (forall u n, In (u, n) (most_active_users s) ->
          n = rows_with user_id u st /\ 0 < n)
    /\ (forall u n r, In (u, n) (most_active_users s) -> In r (db st) ->
          ~ In (user_id r) (List.map fst (most_active_users s)) ->
          rows_with user_id (user_id r) st <= n).
Proof.
  intros st day_ago s [_ [_ [_ [_ [_ [Husers _]]]]]].
  destruct (top_groups _ _ _ Husers) as [Hlen [Hnd [Hcount Htop]]].
  unfold rows_with. split; [exact Hlen |]. split; [exact Hnd |]. split.
  - intros u n Hin. destruct (Hcount u n Hin) as [-> Hu].
    split; [apply occurrences_map | apply occurrences_pos; exact Hu].
  - intros u n r Hin Hr Hout. rewrite <- occurrences_map.
    apply (Htop u n (user_id r) Hin); [| exact Hout].
    apply List.in_map. exact Hr.
Qed.

Lemma most_active_users_are_the_top_ten_witness :
  let s := run_get_operation_stats mixed_log "2024-04-30 10:00:00" in
  (List.length (most_active_users s) <= 10)%nat
  /\ exists u, most_active_users s = [(u, 3)] /\ rows_with user_id u mixed_log = 3.
Proof.
  intros s.
  destruct (most_active_users_are_the_top_ten mixed_log "2024-04-30 10:00:00" s
              (run_get_operation_stats_allowed mixed_log "2024-04-30 10:00:00"))
    as [Hlen [_ [Hcount _]]].
  split; [exact Hlen |].
  destruct (most_active_users s) as [| [u n] t] eqn:E; [discriminate E |].
  exists u.
  assert (Hn : n = 3 /\ t = []) by (vm_compute in E; split; congruence).
  destruct Hn as [-> ->]. split; [reflexivity |].
  symmetry. apply (Hcount u 3). left. reflexivity.
Defined.

(** A query with a limit that does not bite returns as many entries as the
    [WHERE] clause selects rows. *)
Lemma query_length (st : state) (limit : Z) (f : filters)
  (entries : list log_entry) :
  get_audit_logs st limit f entries ->
  limit < 0 \/ count_rows (where_clause f) (db st) <= limit ->
  Z.of_nat (List.length entries) = count_rows (where_clause f) (db st).
Proof.
  intros Hq Hlimit.
  destruct (get_audit_logs_inv _ _ _ _ Hq)
    as [_ [rows [[sorted [Hperm [_ ->]]] ->]]].
  rewrite List.length_map. unfold count_rows in *.
  rewrite <- (Permutation_length Hperm) in *.
  rewrite sql_limit_all by exact Hlimit. reflexivity.
Qed.

(** X15: the Total of the dashboard is the number of entries of the
    unfiltered log.  A query without filters never returns more entries than
    the total, and returns exactly that many when its limit is negative or
    at least the total. *)
Theorem total_operations_is_the_length_of_the_log :
  forall (st : state) (day_ago : string) (s : operation_stats) (limit : Z)
    (entries : list log_entry),
    get_operation_stats st day_ago s ->
    get_audit_logs st limit no_filter entries ->
    Z.of_nat (List.length entries) <= total_operations s
    /\ (limit < 0 \/ total_operations s <= limit ->
        Z.of_nat (List.length entries) = total_operations s).
Proof.
  intros st day_ago s limit entries [Htotal _] Hq.
  assert (Hall : count_rows (where_clause no_filter) (db st)
                 = total_operations s).
  { rewrite Htotal. unfold count_rows.
    rewrite !filter_all by reflexivity. reflexivity. }
  split.
  - destruct (get_audit_logs_inv _ _ _ _ Hq)
      as [_ [rows [[sorted [Hperm [_ ->]]] ->]]].
    rewrite List.length_map, <- Hall. unfold count_rows.
    rewrite <- (Permutation_length Hperm).
    unfold sql_limit. destruct (limit <? 0); [lia |].
    rewrite List.length_firstn. lia.
  - intros Hlimit. rewrite <- Hall. apply (query_length st limit no_filter).
    + exact Hq.
    + rewrite Hall. exact Hlimit.
Qed.

Lemma total_operations_is_the_length_of_the_log_witness :
  let s := run_get_operation_stats mixed_log "2024-04-30 10:00:00" in
  let entries := run_get_audit_logs index_scan_order mixed_log 100 no_filter in
  Z.of_nat (List.length entries) <= total_operations s
  /\ (100 < 0 \/ total_operations s <= 100 ->
      Z.of_nat (List.length entries) = total_operations s).
Proof.
  apply (total_operations_is_the_length_of_the_log mixed_log
           "2024-04-30 10:00:00").
  - apply run_get_operation_stats_allowed.
  - apply (run_get_audit_logs_allowed index_scan_order index_scan_respects).
    reflexivity.
Defined.




Lemma rows_with_snoc (column : row -> string) (k : string) (table : list row)
  (r : row) :
  count_rows (fun x => String.eqb k (column x)) (table ++ [r])%list
  = count_rows (fun x => String.eqb k (column x)) table
    + (if String.eqb k (column r) then 1 else 0).
Proof.
  unfold count_rows. rewrite List.filter_app, List.length_app. simpl.
  destruct (String.eqb k (column r)); simpl; lia.
Qed.

(** X17: a logged call shows in the statistics at once.  When an entry is
    storable, statistics taken after [log_operation] differ from statistics
    taken before it by one in the total, by one in the count of the entry's
    status and of its operation type, and not at all in the counts of the
    other statuses and operation types. *)
Theorem a_logged_call_is_counted_once :
  forall (w : world) (a : log_args) (st : state) (day_ago day_ago' : string)
    (s s' : operation_stats),
    storable a st = true ->
    get_operation_stats st day_ago s ->
    get_operation_stats (snd (log_operation w a st)) day_ago' s' ->
    total_operations s' = total_operations s + 1
    /\ (forall k,
          get_count k (status_breakdown s')
          = get_count k (status_breakdown s)
            + (if String.eqb k (a_result_status a) then 1 else 0))
    /\ (forall k,
          get_count k (operations_by_type s')
          = get_count k (operations_by_type s)
            + (if String.eqb k (a_operation_type a) then 1 else 0)).
Proof.
  intros w a st day_ago day_ago' s s' Hst Hs Hs'.
  destruct (log_operation_inserts w a st Hst)
    as [r [Hdb [_ [_ [_ [_ [_ [_ [_ Hr]]]]]]]]].
  destruct Hr as [Hot [_ [_ [Hrs _]]]].
  destruct Hs as [Htotal [Htype [_ [Hstatus _]]]].
  destruct Hs' as [Htotal' [Htype' [_ [Hstatus' _]]]].
  rewrite Hdb in Htotal', Htype', Hstatus'.
  destruct (group_count_exact _ _ _ Htype) as [Ht _].
  destruct (group_count_exact _ _ _ Htype') as [Ht' _].
  destruct (group_count_exact _ _ _ Hstatus) as [Hc _].
  destruct (group_count_exact _ _ _ Hstatus') as [Hc' _].
  split.
  { rewrite Htotal', Htotal. unfold count_rows.
    rewrite !filter_all by reflexivity.
    rewrite List.length_app. simpl. lia. }
  split; intros k.
  - rewrite Hc', Hc, !occurrences_map, rows_with_snoc, Hrs. reflexivity.
  - rewrite Ht', Ht, !occurrences_map, rows_with_snoc, Hot. reflexivity.
Qed.

Lemma a_logged_call_is_counted_once_witness :
  let s := run_get_operation_stats two_inserts "2024-04-30 10:00:00" in
  let s' := run_get_operation_stats mixed_log "2024-04-30 10:00:00" in
  total_operations s' = total_operations s + 1
  /\ get_count "ERROR" (status_breakdown s')
     = get_count "ERROR" (status_breakdown s) + 1
  /\ get_count "SUCCESS" (status_breakdown s')
     = get_count "SUCCESS" (status_breakdown s) + 0.
Proof.
  intros s s'.
  destruct (a_logged_call_is_counted_once sample_world failed_update two_inserts
              "2024-04-30 10:00:00" "2024-04-30 10:00:00" s s'
              ltac:(vm_compute; reflexivity)
              (run_get_operation_stats_allowed _ _)
              (run_get_operation_stats_allowed _ _))
    as [H1 [H2 _]].
  split; [exact H1 |].
  split; [exact (H2 "ERROR") | exact (H2 "SUCCESS")].
Defined.

Lemma group_count_empty (ordered : bool) (limit : option nat)
  (result : list (string * Z)) :
  sql_group_count [] ordered limit result -> result = [].
Proof.
  intros [arranged [Hperm [_ ->]]].
  apply Permutation_sym, Permutation_nil in Hperm. subst arranged.
  destruct limit as [[| n] |]; reflexivity.
Qed.

(** X18: cleared logs leave no statistics behind.  After the confirming
    press of [Clear All Audit Logs], the only statistics the statements can
    return are the empty ones: all counts zero and all breakdowns empty. *)
Theorem statistics_after_clearing_are_empty :
  forall (st : state) (day_ago : string) (s : operation_stats),
    armed st = true ->
    get_operation_stats (clear_logs_click st) day_ago s ->
    s = no_statistics.
Proof.
  intros st day_ago s Harmed Hs.
  assert (Hdb : db (clear_logs_click st) = []).
  { unfold clear_logs_click. unfold armed in Harmed. rewrite Harmed.
    reflexivity. }
  destruct Hs as [H1 [H2 [H3 [H4 [H5 [H6 [H7 [H8 H9]]]]]]]].
  rewrite Hdb in *. simpl in *.
  apply group_count_empty in H2, H3, H4, H6, H7, H8.
  destruct s. simpl in *. subst. reflexivity.
Qed.

Lemma statistics_after_clearing_are_empty_witness :
  run_get_operation_stats
    (clear_logs_click (clear_logs_click mixed_log)) "2024-04-30 10:00:00"
  = no_statistics.
Proof.
  apply (statistics_after_clearing_are_empty (clear_logs_click mixed_log)
           "2024-04-30 10:00:00").
  - vm_compute. reflexivity.
  - apply run_get_operation_stats_allowed.
Defined.

(** ** Schema initialisation: [init_database] *)

Lemma same_name_refl (a : string) : same_name a a = true.
Proof.
  apply String.eqb_refl.
Qed.

Lemma has_name_app (a : string) (l l' : list string) :
  has_name a (l ++ l')%list = has_name a l || has_name a l'.
Proof.
  apply List.existsb_app.
Qed.

Lemma try_add_column_spec (c : string) (s : schema) (cols : list string) :
  table_columns s = Some cols ->
  table_columns (try_add_column c s)
  = Some (if has_name c cols then cols else (cols ++ [c])%list)
  /\ indexes (try_add_column c s) = indexes s.
Proof.
  intros Hs. unfold try_add_column, add_column. rewrite Hs.
  destruct (has_name c cols); simpl; auto.
Qed.

Lemma try_add_column_fixed (c : string) (s : schema) (cols : list string) :
  table_columns s = Some cols -> has_name c cols = true ->
  try_add_column c s = s.
Proof.
  intros Hs Hc. unfold try_add_column, add_column. rewrite Hs, Hc. reflexivity.
Qed.

Lemma create_index_spec (name column : string) (s s' : schema) :
  create_index_if_not_exists name column s = Ok s' ->
  table_columns s' = table_columns s
  /\ (indexes s' = indexes s \/ indexes s' = (indexes s ++ [(name, column)])%list)
  /\ has_name name (List.map fst (indexes s')) = true.
Proof.
  unfold create_index_if_not_exists.
  destruct (table_columns s) as [cols |] eqn:Hs; [| discriminate].
  destruct (has_name name (List.map fst (indexes s))) eqn:Hn.
  - intros H. injection H as <-. auto.
  - destruct (has_name column cols); [| discriminate].
    intros H. injection H as <-. simpl.
    split; [reflexivity |]. split; [auto |].
    rewrite List.map_app, has_name_app. simpl.
    rewrite same_name_refl. apply orb_true_iff. auto.
Qed.

Lemma create_indexes_spec (l : list (string * string)) (s : schema) :
  table_columns (snd (create_indexes l s)) = table_columns s
  /\ (exists more, indexes (snd (create_indexes l s)) = (indexes s ++ more)%list
                   /\ incl more l)
  /\ (fst (create_indexes l s) = Ok tt ->
      forall nc, In nc l ->
        has_name (fst nc) (List.map fst (indexes (snd (create_indexes l s))))
        = true).
Proof.
  revert s. induction l as [| [name column] t IH]; intros s; simpl.
  - split; [reflexivity |]. split; [| intros _ nc []].
    exists []. rewrite List.app_nil_r. split; [reflexivity | apply incl_refl].
  - destruct (create_index_if_not_exists name column s) as [s1 | e] eqn:E; simpl.
    + destruct (create_index_spec _ _ _ _ E) as [Hc [Hi Hn]].
      destruct (IH s1) as [IHc [[more [IHi IHincl]] IHn]].
      split; [congruence |]. split.
      * destruct Hi as [Hi | Hi]; rewrite IHi, Hi.
        -- exists more. split; [reflexivity |]. apply incl_tl. exact IHincl.
        -- exists ((name, column) :: more). rewrite <- List.app_assoc.
           split; [reflexivity |].
           apply incl_cons; [left; reflexivity | apply incl_tl; exact IHincl].
      * intros Hok nc [<- | Hin]; [| apply IHn; assumption].
        simpl. rewrite IHi, List.map_app, has_name_app, Hn. reflexivity.
    + split; [reflexivity |]. split; [| discriminate].
      exists []. rewrite List.app_nil_r. split; [reflexivity |].
      intros x [].
Qed.

Lemma create_indexes_fixed (l : list (string * string)) (s : schema)
  (cols : list string) :
  table_columns s = Some cols ->
  (forall nc, In nc l -> has_name (fst nc) (List.map fst (indexes s)) = true) ->
  create_indexes l s = (Ok tt, s).
Proof.
  intros Hs. induction l as [| [name column] t IH]; intros Hn; simpl;
    [reflexivity |].
  unfold create_index_if_not_exists. rewrite Hs.
  pose proof (Hn (name, column) (or_introl eq_refl)) as Hhead.
  simpl in Hhead. rewrite Hhead.
  apply IH. intros nc Hin. apply Hn. right. exact Hin.
Qed.

Lemma create_indexes_ok (l : list (string * string)) (s : schema)
  (cols : list string) :
  table_columns s = Some cols ->
  (forall nc, In nc l ->
     has_name (snd nc) cols = true
     \/ has_name (fst nc) (List.map fst (indexes s)) = true) ->
  fst (create_indexes l s) = Ok tt.
Proof.
  revert s. induction l as [| [name column] t IH]; intros s Hs Hl; simpl;
    [reflexivity |].
  destruct (create_index_if_not_exists name column s) as [s1 | e] eqn:E.
  - destruct (create_index_spec _ _ _ _ E) as [Hc [Hi _]].
    apply IH; [congruence |].
    intros nc Hin. destruct (Hl nc (or_intror Hin)) as [H | H]; [auto |].
    right. destruct Hi as [-> | ->]; [exact H |].
    rewrite List.map_app, has_name_app, H. reflexivity.
  - exfalso. unfold create_index_if_not_exists in E. rewrite Hs in E.
    destruct (Hl (name, column) (or_introl eq_refl)) as [H | H]; simpl in H.
    + destruct (has_name name (List.map fst (indexes s))); [discriminate |].
      rewrite H in E. discriminate.
    + rewrite H in E. discriminate.
Qed.

Lemma create_indexes_raises (l1 : list (string * string))
  (nc : string * string) (l2 : list (string * string)) (s : schema)
  (cols : list string) :
  table_columns s = Some cols ->
  has_name (snd nc) cols = false ->
  has_name (fst nc) (List.map fst (indexes s)) = false ->
  has_name (fst nc) (List.map fst l1) = false ->
  exists e, fst (create_indexes (l1 ++ nc :: l2)%list s) = Raise e
            /\ type_name e = "OperationalError".
Proof.
  revert s. induction l1 as [| [name column] t IH]; intros s Hs Hcol Hidx Hl1.
  - destruct nc as [name column]. simpl in *.
    unfold create_index_if_not_exists. rewrite Hs, Hidx, Hcol. simpl.
    eexists. split; reflexivity.
  - simpl in Hl1. apply orb_false_iff in Hl1. destruct Hl1 as [Hne Hl1].
    cbn [List.app create_indexes].
    destruct (create_index_if_not_exists name column s) as [s1 | e] eqn:E.
    + destruct (create_index_spec _ _ _ _ E) as [Hc [Hi _]].
      apply IH; [congruence | exact Hcol | | exact Hl1].
      destruct Hi as [-> | ->]; [exact Hidx |].
      rewrite List.map_app, has_name_app, Hidx. simpl. rewrite Hne. reflexivity.
    + simpl. exists e. split; [reflexivity |].
      unfold create_index_if_not_exists in E. rewrite Hs in E.
      destruct (has_name name (List.map fst (indexes s))); [discriminate |].
      destruct (has_name column cols); [discriminate |].
      injection E as <-. reflexivity.
Qed.

Lemma has_name_snoc (a : string) (l : list string) (c : string) :
  has_name a (l ++ [c])%list = has_name a l || same_name a c.
Proof.
  rewrite has_name_app. simpl. rewrite orb_false_r. reflexivity.
Qed.

Ltac resolve_names :=
  cbn [negb]; rewrite ?has_name_snoc; repeat (simpl (same_name _ _));
  rewrite ?orb_false_r, ?orb_true_r.

(** Three [ALTER TABLE] attempts in a row append the error columns that the
    table lacks. *)
Lemma error_columns_added (old c1 c2 c3 : list string) :
  c1 = (if has_name "error_type" old then old
        else (old ++ ["error_type"])%list) ->
  c2 = (if has_name "error_code" c1 then c1
        else (c1 ++ ["error_code"])%list) ->
  c3 = (if has_name "stack_trace" c2 then c2
        else (c2 ++ ["stack_trace"])%list) ->
  c3 = (old ++ List.filter (fun c => negb (has_name c old)) error_columns)%list
  /\ (forall c, In c error_columns -> has_name c c3 = true).
Proof.
  intros -> -> ->. unfold error_columns. cbn [List.filter].
  destruct (has_name "error_type" old) eqn:E1; resolve_names;
    destruct (has_name "error_code" old) eqn:E2; resolve_names;
    destruct (has_name "stack_trace" old) eqn:E3; resolve_names;
    (split;
     [ rewrite <- ?List.app_assoc, ?List.app_nil_r; reflexivity
     | intros c [<- | [<- | [<- | []]]]; resolve_names;
       rewrite ?E1, ?E2, ?E3; reflexivity ]).
Qed.

(** The state of the schema when the index statements start. *)
Lemma before_the_indexes (s : schema) :
  exists cols,
    table_columns
      (try_add_column "stack_trace"
         (try_add_column "error_code"
            (try_add_column "error_type" (create_table_if_not_exists s))))
    = Some cols
    /\ indexes
         (try_add_column "stack_trace"
            (try_add_column "error_code"
               (try_add_column "error_type" (create_table_if_not_exists s))))
       = indexes s
    /\ (forall c, In c error_columns -> has_name c cols = true)
    /\ match table_columns s with
       | None => cols = created_columns
       | Some old =>
           cols = (old ++ List.filter (fun c => negb (has_name c old))
                            error_columns)%list
       end.
Proof.
  assert (Hx : exists old,
            table_columns (create_table_if_not_exists s) = Some old
            /\ indexes (create_table_if_not_exists s) = indexes s
            /\ match table_columns s with
               | None => old = created_columns
               | Some old' => old = old'
               end).
  { unfold create_table_if_not_exists.
    destruct (table_columns s) as [old |] eqn:Hs.
    - exists old. rewrite Hs. auto.
    - exists created_columns. simpl. auto. }
  destruct Hx as [old [H0 [I0 Hold]]].
  destruct (try_add_column_spec "error_type" _ _ H0) as [H1 I1].
  destruct (try_add_column_spec "error_code" _ _ H1) as [H2 I2].
  destruct (try_add_column_spec "stack_trace" _ _ H2) as [H3 I3].
  destruct (error_columns_added old _ _ _ eq_refl eq_refl eq_refl)
    as [Hshape Herr].
  eexists. split; [exact H3 |].
  split; [congruence |].
  split; [exact Herr |].
  destruct (table_columns s) as [old' |].
  - subst old'. exact Hshape.
  - subst old. rewrite Hshape. reflexivity.
Qed.

Lemma successful_init_is_initialised (s s' : schema) :
  init_database s = (Ok tt, s') -> initialised s'.
Proof.
  intros Hinit. unfold init_database in Hinit. cbv zeta in Hinit.
  destruct (before_the_indexes s) as [cols [Hcols [_ [Herr _]]]].
  set (s4 := try_add_column "stack_trace" _) in *.
  destruct (create_indexes_spec created_indexes s4) as [Hc [_ Hn]].
  rewrite Hinit in Hc, Hn. simpl in Hc, Hn. specialize (Hn eq_refl).
  rewrite Hcols in Hc. exists cols. auto.
Qed.

Lemma initialised_is_fixed (s : schema) :
  initialised s -> init_database s = (Ok tt, s).
Proof.
  intros [cols [Hc [Herr Hn]]].
  unfold init_database. cbv zeta.
  assert (H1 : create_table_if_not_exists s = s)
    by (unfold create_table_if_not_exists; rewrite Hc; reflexivity).
  rewrite H1.
  rewrite (try_add_column_fixed "error_type" s cols Hc)
    by (apply Herr; simpl; auto).
  rewrite (try_add_column_fixed "error_code" s cols Hc)
    by (apply Herr; simpl; auto).
  rewrite (try_add_column_fixed "stack_trace" s cols Hc)
    by (apply Herr; simpl; auto).
  apply (create_indexes_fixed _ _ cols Hc). exact Hn.
Qed.

(** X19: initialising twice is initialising once.  When [init_database]
    succeeds, the schema it leaves has the table with the three error
    columns and the five index names, and a further run succeeds and changes
    nothing. *)
Theorem init_database_is_idempotent :
  forall s s' : schema,
    init_database s = (Ok tt, s') ->
    initialised s' /\ init_database s' = (Ok tt, s').
Proof.
  intros s s' Hinit.
  pose proof (successful_init_is_initialised s s' Hinit) as H.
  split; [exact H | apply initialised_is_fixed; exact H].
Qed.

Lemma init_database_is_idempotent_witness :
  initialised (snd (init_database legacy_schema))
  /\ init_database (snd (init_database legacy_schema))
     = (Ok tt, snd (init_database legacy_schema)).
Proof.
  apply (init_database_is_idempotent legacy_schema). vm_compute. reflexivity.
Defined.

(** X20: initialisation only adds.  Whether or not it succeeds,
    [init_database] keeps the columns of an existing table in their order
    and appends exactly those of the three error columns that the table
    lacks (names compared without regard to case); a missing table is
    created with the seventeen columns; and the indexes that were there stay,
    followed by some of the five. *)
Theorem init_database_only_adds :
  forall s : schema,
    match table_columns s with
    | None => table_columns (snd (init_database s)) = Some created_columns
    | Some old =>
        table_columns (snd (init_database s))
        = Some (old ++ List.filter (fun c => negb (has_name c old))
                         error_columns)%list
    end
    /\ exists more,
         indexes (snd (init_database s)) = (indexes s ++ more)%list
         /\ incl more created_indexes.
Proof.
  intros s. unfold init_database. cbv zeta.
  destruct (before_the_indexes s) as [cols [Hcols [Hidx [_ Hshape]]]].
  set (s4 := try_add_column "stack_trace" _) in *.
  destruct (create_indexes_spec created_indexes s4) as [Hc [[more [Hi Hincl]] _]].
  split.
  - rewrite Hc, Hcols. destruct (table_columns s); subst cols; reflexivity.
  - exists more. rewrite Hi, Hidx. auto.
Qed.

(** X21: when initialisation succeeds.  [init_database] returns normally on
    a file without the table, and on a file whose table has, for each of
    the five indexes, the indexed column or already an index of that name. *)
Theorem init_database_succeeds :
  forall s : schema,
    (forall old nc, table_columns s = Some old -> In nc created_indexes ->
       has_name (snd nc) old = true
       \/ has_name (fst nc) (List.map fst (indexes s)) = true) ->
    fst (init_database s) = Ok tt /\ initialised (snd (init_database s)).
Proof.
  intros s Hs.
  assert (Hok : fst (init_database s) = Ok tt).
  { unfold init_database. cbv zeta.
    destruct (before_the_indexes s) as [cols [Hcols [Hidx [_ Hshape]]]].
    set (s4 := try_add_column "stack_trace" _) in *.
    apply (create_indexes_ok _ _ cols Hcols).
    intros nc Hin. rewrite Hidx.
    destruct (table_columns s) as [old |] eqn:Hold.
    - destruct (Hs old nc eq_refl Hin) as [H | H]; [left | right; exact H].
      subst cols. rewrite has_name_app, H. reflexivity.
    - left. subst cols.
      destruct Hin as [<- | [<- | [<- | [<- | [<- | []]]]]]; reflexivity. }
  split; [exact Hok |].
  destruct (init_database s) as [res s'] eqn:E. simpl in Hok. subst res.
  apply (successful_init_is_initialised s s' E).
Qed.

Lemma init_database_succeeds_witness :
  fst (init_database legacy_schema) = Ok tt
  /\ initialised (snd (init_database legacy_schema)).
Proof.
  apply (init_database_succeeds legacy_schema).
  intros old nc Hold Hin. left.
  injection Hold as <-.
  destruct Hin as [<- | [<- | [<- | [<- | [<- | []]]]]]; reflexivity.
Defined.

Lemma has_name_filter (a : string) (p : string -> bool) (l : list string) :
  has_name a l = false -> has_name a (List.filter p l) = false.
Proof.
  induction l as [| x t IH]; simpl; [reflexivity |].
  intros H. apply orb_false_iff in H. destruct H as [Hx Ht].
  destruct (p x); simpl; [rewrite Hx |]; auto.
Qed.

(** X22: when initialisation fails.  On a file whose table [audit_logs]
    lacks the column of one of the five indexes, with no index of that name
    there yet, [init_database] raises [sqlite3.OperationalError]. *)
Theorem init_database_raises_without_an_indexed_column :
  forall (s : schema) (old : list string) (nc : string * string),
    table_columns s = Some old ->
    In nc created_indexes ->
    has_name (snd nc) old = false ->
    has_name (fst nc) (List.map fst (indexes s)) = false ->
    exists e,
      fst (init_database s) = Raise e /\ type_name e = "OperationalError".
Proof.
  intros s old nc Hold Hin Hcol Hidx.
  unfold init_database. cbv zeta.
  destruct (before_the_indexes s) as [cols [Hcols [Hi [_ Hshape]]]].
  set (s4 := try_add_column "stack_trace" _) in *.
  rewrite Hold in Hshape. rewrite <- Hi in Hidx.
  assert (Hcol' : has_name (snd nc) error_columns = false ->
                  has_name (snd nc) cols = false).
  { intros H. subst cols. rewrite has_name_app, Hcol, orb_false_l.
    apply has_name_filter. exact H. }
  destruct Hin as [<- | [<- | [<- | [<- | [<- | []]]]]].
  - apply (create_indexes_raises (firstn 0 created_indexes) _
             (skipn 1 created_indexes) s4 cols Hcols);
      [apply Hcol' | | ]; auto.
  - apply (create_indexes_raises (firstn 1 created_indexes) _
             (skipn 2 created_indexes) s4 cols Hcols);
      [apply Hcol' | | ]; auto.
  - apply (create_indexes_raises (firstn 2 created_indexes) _
             (skipn 3 created_indexes) s4 cols Hcols);
      [apply Hcol' | | ]; auto.
  - apply (create_indexes_raises (firstn 3 created_indexes) _
             (skipn 4 created_indexes) s4 cols Hcols);
      [apply Hcol' | | ]; auto.
  - apply (create_indexes_raises (firstn 4 created_indexes) _
             (skipn 5 created_indexes) s4 cols Hcols);
      [apply Hcol' | | ]; auto.
Qed.

Lemma init_database_raises_without_an_indexed_column_witness :
  exists e,
    fst (init_database foreign_schema) = Raise e
    /\ type_name e = "OperationalError".
Proof.
  apply (init_database_raises_without_an_indexed_column foreign_schema
           ["id"; "timestamp"; "message"] ("idx_user_id", "user_id")).
  - reflexivity.
  - right. left. reflexivity.
  - reflexivity.
  - reflexivity.
Defined.

(** ** The interceptor: one row per call *)

(** X23: a wrapped call writes at most one row.  Whatever the wrapped
    function does and however it ends, the wrapper leaves the rows that were
    there when the function was done untouched, and adds none or exactly one:
    a row under the next id, stamped with the moment of the bookkeeping,
    carrying the operation type, the resource type and the function name of
    the decoration, and SUCCESS or ERROR as status.  Increasing ids bounded
    by the counter stay so. *)
Theorem audit_log_writes_at_most_one_row :
  forall (ot rt fn : string) (func : operation) (w : world) (ms : Z)
    (args : list pyval) (kwargs : list (string * pyval)) (st : state),
    let st1 := snd (func args kwargs st) in
    let st' := snd (audit_log ot rt fn func w ms args kwargs st) in
    ((db st' = db st1 /\ sqlite_sequence st' = sqlite_sequence st1)
     \/ exists r,
          db st' = (db st1 ++ [r])%list
          /\ id r = sqlite_sequence st1 + 1
          /\ sqlite_sequence st' = id r
          /\ timestamp r = current_timestamp w
          /\ operation_type r = ot /\ resource_type r = rt
          /\ function_name r = fn
          /\ (result_status r = "SUCCESS" \/ result_status r = "ERROR"))
    /\ (well_numbered st1 -> well_numbered st').
Proof.
  intros ot rt fn func w ms args kwargs st st1 st'. subst st1 st'.
  destruct (func args kwargs st) as [res st1] eqn:Hf. simpl.
  destruct (audit_log_paths ot rt fn func w ms args kwargs st res st1 Hf)
    as [[result [rid [count [_ ->]]]]
       | [[e [code [msg [_ ->]]]] | [e' ->]]]; simpl.
  - split; [| apply log_operation_well_numbered].
    match goal with
    | |- context [log_operation w ?a st1] =>
        destruct (log_operation_cases w a st1)
          as [H | [r [Hdb [Hseq [Hid [Hts [_ Hr]]]]]]]
    end; [left; exact H |].
    right. exists r.
    apply row_of_success_entry in Hr.
    destruct Hr as [H1 [H2 [H3 [H4 _]]]]. auto 10.
  - split; [| apply log_operation_well_numbered].
    match goal with
    | |- context [log_operation w ?a st1] =>
        destruct (log_operation_cases w a st1)
          as [H | [r [Hdb [Hseq [Hid [Hts [_ Hr]]]]]]]
    end; [left; exact H |].
    right. exists r.
    apply row_of_error_entry in Hr.
    destruct Hr as [H1 [H2 [H3 [H4 _]]]]. auto 10.
  - split; [left; auto | auto].
Qed.

(** X24: the SDK's own errors are recorded without their code.  When a
    wrapped operation raises [APIError] or [ValidationError], the wrapper
    raises that same exception; the row it writes has status ERROR, the class
    name as error type, the exception's message as error message, the
    traceback, and no error code: the [error_code] an [APIError] carries is
    not looked at.  The row is written when the session identifies the user
    with strings, the parameter snapshot serializes and the elapsed time
    binds. *)
Theorem sdk_errors_are_recorded_without_their_code :
  forall (ot rt fn : string) (func : operation) (w : world) (ms : Z)
    (args : list pyval) (kwargs : list (string * pyval)) (st st1 : state)
    (e : pyval) (message : string),
    sdk_error e message ->
    func args kwargs st = (Raise e, st1) ->
    fst (audit_log ot rt fn func w ms args kwargs st) = Raise e
    /\ (forall r,
          db (snd (audit_log ot rt fn func w ms args kwargs st))
          = (db st1 ++ [r])%list ->
          result_status r = "ERROR"
          /\ (error_type r = Some "APIError"
              \/ error_type r = Some "ValidationError")
          /\ error_type r = Some (type_name e)
          /\ error_message r = Some message
          /\ error_code r = None
          /\ stack_trace r = Some (format_exc w (Some e)))
    /\ (session_texts st1 = true ->
        column_ok (PDict (log_params args kwargs)) = true ->
        int64 ms = true ->
        exists r,
          db (snd (audit_log ot rt fn func w ms args kwargs st))
          = (db st1 ++ [r])%list).
Proof.
  intros ot rt fn func w ms args kwargs st st1 e message Hsdk Hf.
  assert (Hd : error_details e = Ok (PNone, message)
               /\ (type_name e = "APIError" \/ type_name e = "ValidationError")
               /\ is_exception e = true).
  { destruct Hsdk as [[code [errs ->]] | [field ->]]; repeat split; auto. }
  destruct Hd as [Hd [Hclass He]].
  rewrite (audit_log_raised ot rt fn func w ms args kwargs st e st1 Hf He).
  rewrite (on_exception_logged _ _ _ _ _ _ _ _ _ _ Hd). simpl.
  split; [reflexivity |]. split.
  - intros r Hr. apply log_operation_added in Hr.
    apply row_of_error_entry in Hr.
    destruct Hr as [_ [_ [_ [Hs [Hm [Ht [Htr [_ [_ [Hc _]]]]]]]]]].
    simpl in Hc. injection Hc as Hc.
    split; [exact Hs |].
    split; [rewrite Ht; destruct Hclass as [-> | ->]; auto |].
    auto.
  - intros Hs Hp Hms.
    match goal with
    | |- exists r, db (snd (log_operation w ?a st1)) = _ =>
        destruct (log_operation_inserts w a st1) as [r [Hr _]];
          [apply storable_error_entry; auto | exists r; exact Hr]
    end.
Qed.

Lemma sdk_errors_are_recorded_without_their_code_witness :
  fst (audit_log "CREATE" "CAMPAIGN" "create_campaign"
         (raising invalid_argument) sample_world 12 [PInt 1] [] empty_state)
  = Raise invalid_argument
  /\ exists r,
       db (snd (audit_log "CREATE" "CAMPAIGN" "create_campaign"
                  (raising invalid_argument) sample_world 12 [PInt 1] []
                  empty_state))
       = [r]
       /\ error_type r = Some "APIError"
       /\ error_message r = Some "Google Ads API error: INVALID_ARGUMENT"
       /\ error_code r = None.
Proof.
  destruct (sdk_errors_are_recorded_without_their_code "CREATE" "CAMPAIGN"
              "create_campaign" (raising invalid_argument) sample_world 12
              [PInt 1] [] empty_state empty_state invalid_argument
              "Google Ads API error: INVALID_ARGUMENT")
    as [Hraise [Hrow Hwritten]].
  - left. eexists. eexists. reflexivity.
  - reflexivity.
  - split; [exact Hraise |].
    destruct Hwritten as [r Hr]; try reflexivity.
    exists r. split; [exact Hr |].
    destruct (Hrow r Hr) as [_ [_ [Ht [Hm [Hc _]]]]]. auto.
Defined.

(** X25: a response without a sized [results] turns a success into a
    failure.  When the wrapped operation returns an object whose [results]
    attribute is [None], a boolean or an integer, the bookkeeping for the
    success raises [TypeError] inside the [try] block: the caller gets that
    [TypeError] instead of the result, and the row written, if any, is an
    ERROR row with error type [TypeError]. *)
Theorem unsized_results_turn_success_into_failure :
  forall (ot rt fn : string) (func : operation) (w : world) (ms : Z)
    (args : list pyval) (kwargs : list (string * pyval)) (st st1 : state)
    (result v : pyval),
    func args kwargs st = (Ok result, st1) ->
    getattr result "results" = Some v ->
    unsized v = true ->
    exists e,
      fst (audit_log ot rt fn func w ms args kwargs st) = Raise e
      /\ type_name e = "TypeError"
      /\ forall r,
           db (snd (audit_log ot rt fn func w ms args kwargs st))
           = (db st1 ++ [r])%list ->
           result_status r = "ERROR" /\ error_type r = Some "TypeError".
Proof.
  intros ot rt fn func w ms args kwargs st st1 result v Hf Hres Hv.
  destruct (hasattr_getattr _ _ _ Hres) as [Hhas Hget].
  assert (Hbook : exists e,
            (extract_resource_id result = Raise e
             \/ (exists rid, extract_resource_id result = Ok rid
                             /\ resource_count result = Raise e))
            /\ type_name e = "TypeError"
            /\ exists msg, error_details e = Ok (PNone, msg)).
  { unfold extract_resource_id, resource_count. rewrite Hhas, Hget.
    destruct result; try discriminate Hres.
    destruct v as [| b | n | | | | |]; try discriminate Hv; simpl.
    - eexists. split; [right; eexists; split; reflexivity |].
      split; [reflexivity | eexists; reflexivity].
    - destruct b; simpl.
      + eexists. split; [left; reflexivity |].
        split; [reflexivity | eexists; reflexivity].
      + eexists. split; [right; eexists; split; reflexivity |].
        split; [reflexivity | eexists; reflexivity].
    - destruct (n =? 0); simpl.
      + eexists. split; [right; eexists; split; reflexivity |].
        split; [reflexivity | eexists; reflexivity].
      + eexists. split; [left; reflexivity |].
        split; [reflexivity | eexists; reflexivity]. }
  destruct Hbook as [e [Hraise [Hty [msg Hd]]]].
  exists e.
  rewrite (audit_log_bookkeeping_raised ot rt fn func w ms args kwargs st
             result e st1 Hf Hraise).
  rewrite (on_exception_logged _ _ _ _ _ _ _ _ _ _ Hd). simpl.
  split; [reflexivity |]. split; [exact Hty |].
  intros r Hr. apply log_operation_added in Hr.
  apply row_of_error_entry in Hr.
  destruct Hr as [_ [_ [_ [Hs [_ [Ht _]]]]]].
  rewrite Ht, Hty. auto.
Qed.

Lemma unsized_results_turn_success_into_failure_witness :
  exists e,
    fst (audit_log "UPDATE" "CAMPAIGN" "update_campaign"
           (returning empty_response) sample_world 3 [PInt 1] [] empty_state)
    = Raise e
    /\ type_name e = "TypeError"
    /\ forall r,
         db (snd (audit_log "UPDATE" "CAMPAIGN" "update_campaign"
                    (returning empty_response) sample_world 3 [PInt 1] []
                    empty_state))
         = (db empty_state ++ [r])%list ->
         result_status r = "ERROR" /\ error_type r = Some "TypeError".
Proof.
  apply (unsized_results_turn_success_into_failure "UPDATE" "CAMPAIGN"
           "update_campaign" (returning empty_response) sample_world 3
           [PInt 1] [] empty_state empty_state empty_response PNone);
    reflexivity.
Defined.
